(** * Zero-curve bootstrap of the Banxico connectors

    A shallow embedding of [src/instruments/bootstrap.py] (the log-linear
    discount-factor interpolator, the implied-DF solver and the per-date
    bootstrap driver) and of the two time-series wrappers named
    [boostrap_mbono_curve] ([bootstrap.py] and [rates_to_curves.py]).

    Number model.  Python floats are read as real numbers: arithmetic is
    exact, [np.exp]/[np.log] are [exp]/[ln], and a missing or non-numeric
    cell (NaN after [pd.to_numeric(..., errors="coerce")]) is a separate
    cell constructor, never a real.  Infinities are outside the model.
    Library code that is not part of the repository is a parameter of the
    development: scipy's [brentq], pandas' [sort_values] (with the contract
    pandas documents for it) and the text parser behind [pd.to_numeric]. *)

From Stdlib Require Import Reals Lra Lia List String Ascii ZArith.
From Stdlib Require Import Permutation Sorted.
From stdpp Require Import gmap.
Import ListNotations.
Local Open Scope R_scope.

(* ------------------------------------------------------------------ *)
(** ** Errors and the error monad                                      *)
(* ------------------------------------------------------------------ *)

(** Every [raise] site of [bootstrap.py] is a [ValueError]; the
    constructors keep them apart by message.  The last four are raised by
    the interpreter or by library code on the inputs named next to them. *)
Inductive error : Type :=
| MissingPrice                         (* "Instrument has neither dirty_price nor clean_price." *)
| InvalidPillars                       (* "Non-positive DF in pillars." *)
| MissingAnchorRate                    (* "Need an 'overnight_rate' row (or a 1-day pillar) ..." *)
| MissingOvernightRate                 (* "Overnight row must carry the rate in dirty_price ..." *)
| MissingFrnPrice                      (* "BONDES F/G/D row must bring clean or dirty price." *)
| UnknownInstrumentType (s : string)   (* "Unknown instrument type: ..." *)
| ZeroDivision                         (* float division by zero *)
| NanToInteger                         (* int(np.floor(nan)) *)
| EmptySequence                        (* xs[0], max(()) or lst[-1] on an empty container *)
| SolverFailure.                       (* raised inside scipy.optimize.brentq *)

Inductive result (A : Type) : Type :=
| Ok (a : A)
| Err (e : error).
Arguments Ok {A} a.
Arguments Err {A} e.

Definition bind {A B : Type} (m : result A) (k : A -> result B) : result B :=
  match m with
  | Ok a => k a
  | Err e => Err e
  end.

Notation "'let*' x ':=' m 'in' k" := (bind m (fun x => k))
  (at level 10, x pattern, m at level 100, k at level 200).

(* ------------------------------------------------------------------ *)
(** ** Numeric helpers                                                 *)
(* ------------------------------------------------------------------ *)

Definition Rleb (a b : R) : bool := if Rle_dec a b then true else false.
Definition Rltb (a b : R) : bool := if Rlt_dec a b then true else false.

(** Python's [round(x, 2)]: nearest multiple of 0.01, halves to even. *)
Definition round_half_even (x : R) : Z :=
  let f := Zfloor x in
  let frac := x - IZR f in
  if Rlt_dec frac (1 / 2) then f
  else if Rlt_dec (1 / 2) frac then (f + 1)%Z
  else if Z.even f then f else (f + 1)%Z.

Definition round2 (x : R) : R := IZR (round_half_even (x * 100)) / 100.

(** [ndarray.astype(int)]: truncation toward zero. *)
Definition astype_int (x : R) : Z := if Rle_dec 0 x then Zfloor x else Zceil x.

(** [np.isclose(a, b)] with numpy's defaults rtol=1e-05, atol=1e-08. *)
Definition isclose (a b : R) : bool := Rleb (Rabs (a - b)) (1e-8 + 1e-5 * Rabs b).

(** [x ** y] on floats with a positive base. *)
Definition fpow (x y : R) : R := Rpower x y.

(** [range(lo, lo + n)] as integers. *)
Fixpoint zrange (lo : Z) (n : nat) : list Z :=
  match n with
  | O => []
  | S m => lo :: zrange (lo + 1) m
  end.

Definition last_opt {A : Type} (l : list A) : option A :=
  match l with
  | [] => None
  | a :: _ => Some (List.last l a)
  end.

(** A stable sort (insertion of each element after its equals): the model
    of [sort_values(..., kind="mergesort")], whose result is determined by
    stability, and the reference instance of the unspecified-kind sort. *)
Section StableSort.
Context {A : Type} (leb : A -> A -> bool).

Fixpoint insert_sorted (a : A) (l : list A) : list A :=
  match l with
  | [] => [a]
  | b :: l' => if leb b a then b :: insert_sorted a l' else a :: l
  end.

Definition stable_sort (l : list A) : list A :=
  fold_left (fun acc a => insert_sorted a acc) l [].
End StableSort.

(* ------------------------------------------------------------------ *)
(** ** Discount-factor store                                           *)
(* ------------------------------------------------------------------ *)

(** The dict [pillars] (tenor in days -> discount factor).  The code only
    ever reads it through [sorted(keys)], [max(keys)], [in] and indexing,
    so it is kept as an association list in ascending key order; a write
    to an existing key replaces its value. *)
Definition pillars : Type := list (R * R).

Fixpoint pillars_set (T v : R) (p : pillars) : pillars :=
  match p with
  | [] => [(T, v)]
  | (x, y) :: q =>
      if Rlt_dec T x then (T, v) :: p
      else if Req_dec_T T x then (T, v) :: q
      else (x, y) :: pillars_set T v q
  end.

Fixpoint pillars_get (T : R) (p : pillars) : option R :=
  match p with
  | [] => None
  | (x, y) :: q => if Req_dec_T T x then Some y else pillars_get T q
  end.

(** [max(pillars.keys())] *)
Definition max_key (p : pillars) : result R :=
  match last_opt (map fst p) with
  | Some x => Ok x
  | None => Err EmptySequence
  end.

(** A write whose key is NaN: the entry can never be read back ([nan]
    equals no key, [tenors > 0] is false on it), so it is dropped. *)
Definition pillars_set_opt (T : option R) (v : R) (p : pillars) : pillars :=
  match T with
  | Some t => pillars_set t v p
  | None => p
  end.

(** Keys of a dict are distinct; the store lists them ascending. *)
Definition keys_ascending (p : pillars) : Prop :=
  StronglySorted Rlt (map fst p).

(** A valid pillar set: every discount factor strictly positive. *)
Definition all_positive (p : pillars) : Prop :=
  Forall (fun td => 0 < snd td) p.

(** Discount factors non-increasing in tenor. *)
Definition df_monotone (p : pillars) : Prop :=
  forall t1 t2 d1 d2,
    pillars_get t1 p = Some d1 -> pillars_get t2 p = Some d2 ->
    t1 < t2 -> d2 <= d1.

(** The three facts a run in ascending tenor order carries along: keys
    ascending, discount factors non-increasing, and every stored tenor at
    most [T] with a discount factor of at least 1e-12. *)
Definition store_inv (T : R) (p : pillars) : Prop :=
  keys_ascending p /\ df_monotone p /\
  forall t d, pillars_get t p = Some d -> t <= T /\ 1e-12 <= d.

(* ------------------------------------------------------------------ *)
(** ** Log-linear curve function                                       *)
(* ------------------------------------------------------------------ *)

(** [np.searchsorted(xs, t)] (side "left") on ascending [xs]. *)
Fixpoint searchsorted (xs : list R) (t : R) : nat :=
  match xs with
  | [] => O
  | x :: r => if Rlt_dec x t then S (searchsorted r t) else O
  end.

(** The closure [df] of [_build_loglinear_df_func]. *)
Definition loglinear_df (xs ys logys : list R) (t : R) : R :=
  let n := length xs in
  let at_ (l : list R) (i : nat) := nth i l 0 in
  if Rle_dec t (at_ xs 0%nat) then
    if Nat.eqb n 1 then at_ ys 0%nat
    else
      let m := (at_ logys 1%nat - at_ logys 0%nat) / (at_ xs 1%nat - at_ xs 0%nat) in
      exp (at_ logys 0%nat + m * (t - at_ xs 0%nat))
  else if Rge_dec t (at_ xs (n - 1)%nat) then
    if Nat.eqb n 1 then at_ ys 0%nat
    else
      let m_last := (at_ logys (n - 1)%nat - at_ logys (n - 2)%nat)
                    / (at_ xs (n - 1)%nat - at_ xs (n - 2)%nat) in
      let m_last := Rmin m_last (-1e-12) in
      exp (at_ logys (n - 1)%nat + m_last * (t - at_ xs (n - 1)%nat))
  else
    let j := (Z.of_nat (searchsorted xs t) - 1)%Z in
    let j := Z.to_nat (Z.max 0 (Z.min j (Z.of_nat n - 2))) in
    let w := (t - at_ xs j) / (at_ xs (j + 1)%nat - at_ xs j) in
    exp (at_ logys j * (1 - w) + at_ logys (j + 1)%nat * w).

(** [_build_loglinear_df_func].  On an empty dict Python builds the
    closure and raises [IndexError] at its first call; every caller calls
    it at once, so the model reports the empty store when building. *)
Definition _build_loglinear_df_func (pillar_points : pillars) : result (R -> R) :=
  let xs := map fst pillar_points in
  let ys := map snd pillar_points in
  if existsb (fun y => Rleb y 0) ys then Err InvalidPillars
  else match xs with
       | [] => Err EmptySequence
       | _ => Ok (loglinear_df xs ys (map ln ys))
       end.

(* ------------------------------------------------------------------ *)
(** ** Input table                                                     *)
(* ------------------------------------------------------------------ *)

(** One cell of a numeric column: a number, NaN/None, or text that
    [pd.to_numeric] has not seen yet. *)
Inductive cell : Type :=
| CNum (x : R)
| CNaN
| CText (s : string).

(** What the loop sees of a cell: [None] stands for [pd.isna(c)]. *)
Definition num (c : cell) : option R :=
  match c with
  | CNum x => Some x
  | _ => None
  end.

(** An instrument row with the columns [bootstrap_from_curve_df] and the
    wrappers read. *)
Record row : Type := mkRow {
  time_index : Z;
  type : string;
  tenor_days : cell;
  clean_price : cell;
  dirty_price : cell;
  coupon : cell
}.

Abbreviation frame := (list row).

(** [str.strip()] and [str.lower()] on ASCII text. *)
Definition is_space (c : ascii) : bool :=
  let n := nat_of_ascii c in
  ((9 <=? n)%nat && (n <=? 13)%nat) || ((28 <=? n)%nat && (n <=? 32)%nat).

Definition lower_ascii (c : ascii) : ascii :=
  let n := nat_of_ascii c in
  if ((65 <=? n)%nat && (n <=? 90)%nat)%bool then ascii_of_nat (n + 32) else c.

Fixpoint lstrip (l : list ascii) : list ascii :=
  match l with
  | [] => []
  | c :: r => if is_space c then lstrip r else l
  end.

Definition strip (s : string) : string :=
  string_of_list_ascii (rev (lstrip (rev (lstrip (list_ascii_of_string s))))).

Definition lower (s : string) : string :=
  string_of_list_ascii (map lower_ascii (list_ascii_of_string s)).

(** [str(r["type"]).strip().lower()] *)
Definition inst_type_of (r : row) : string := lower (strip (type r)).

Definition is_frn (s : string) : bool :=
  String.eqb s "floating_bondes_d" || String.eqb s "floating_bondes_f"
  || String.eqb s "floating_bondes_g".

(** The six type tags the main loop dispatches on. *)
Definition recognized (s : string) : bool :=
  String.eqb s "overnight_rate" || String.eqb s "zero_coupon"
  || String.eqb s "fixed_bond" || is_frn s.

(** The order [sort_values("tenor_days")] sorts by: ascending, NaN last. *)
Definition tenor_le (a b : option R) : Prop :=
  match a, b with
  | Some x, Some y => x <= y
  | _, None => True
  | None, Some _ => False
  end.

Definition tenor_leb (a b : option R) : bool :=
  match a, b with
  | Some x, Some y => Rleb x y
  | _, None => true
  | None, Some _ => false
  end.

(** The sort key of a row: [float(r["tenor_days"])], [None] for NaN. *)
Definition row_key (r : row) : option R := num (tenor_days r).

Definition row_le (a b : row) : Prop := tenor_le (row_key a) (row_key b).

Definition row_leb (a b : row) : bool := tenor_leb (row_key a) (row_key b).

(** What pandas promises of [DataFrame.sort_values] whatever the [kind]:
    the same rows, in ascending key order.  (Only "mergesort"/"stable"
    promise to keep the order of rows with equal keys.) *)
Definition sort_contract (sort_values : frame -> frame) : Prop :=
  (forall df, Permutation df (sort_values df)) /\
  (forall df, StronglySorted row_le (sort_values df)).

(** A sort that does keep equal keys in input order. *)
Definition sort_values_stable (df : frame) : frame := stable_sort row_leb df.

(** [_pick_price] *)
Definition _pick_price (r : row) : result R :=
  match num (dirty_price r) with
  | Some dp => Ok dp
  | None =>
      match num (clean_price r) with
      | Some cp => Ok cp
      | None => Err MissingPrice
      end
  end.

(* ------------------------------------------------------------------ *)
(** ** Solver and driver                                               *)
(* ------------------------------------------------------------------ *)

(** Running state of one per-date bootstrap: the dict [pillars] and the
    [nonlocal on_rate_pct]. *)
Record state : Type := mkState {
  st_pillars : pillars;
  on_rate_pct : option R
}.

Definition init_state : state := mkState [(0, 1)] None.

Section Bootstrap.

(** [scipy.optimize.brentq(f, lo, hi, xtol=..., maxiter=...)] *)
Variable brentq : (R -> R) -> R -> R -> R -> nat -> result R.

(** [pv_given_dfT], the closure of the solver. *)
Definition pv_given_dfT (pre_known_sum df_S S T : R)
    (future_times future_amounts : list R) (dfT : R) : R :=
  if Rle_dec dfT 0 then pre_known_sum
  else
    let ln_dfS := ln df_S in
    let ln_dfT := ln dfT in
    fold_left
      (fun pv ta =>
         let '(t, a) := ta in
         let df_t :=
           if Rlt_dec t (T - 1e-12) then
             let w := (t - S) / (T - S) in
             exp ((1 - w) * ln_dfS + w * ln_dfT)
           else dfT in
         pv + a * df_t)
      (combine future_times future_amounts) pre_known_sum.

Definition _solve_df_T_loglinear_generic (price pre_known_sum df_S S T : R)
    (future_times future_amounts : list R) : result R :=
  if Rle_dec T (S + 1e-12) then Ok df_S
  else
    let target := price in
    let pv := pv_given_dfT pre_known_sum df_S S T future_times future_amounts in
    let lo := 1e-14 in
    let hi := df_S in
    let f_lo := pv lo - target in
    let f_hi := pv hi - target in
    if Rlt_dec 0 (f_lo * f_hi) then
      let m_ff := Rmin (-1e-12) (ln df_S / Rmax S 1) in
      let sum_unk_ff :=
        fold_left
          (fun acc ta => let '(t, a) := ta in acc + a * (df_S * exp (m_ff * (t - S))))
          (combine future_times future_amounts) 0 in
      match last_opt future_amounts with
      | None => Err EmptySequence
      | Some a_last =>
          let df_T := (target - pre_known_sum - sum_unk_ff) / a_last in
          Ok (Rmax 1e-14 (Rmin df_T hi))
      end
    else brentq (fun x => pv x - target) lo hi 1e-14 200.

(** [day_count_convention]; every caller in the repository leaves it
    at its default. *)
Variable day_count_convention : R.

(** [_ensure_on_rate_pct]: returns the rate and the state with the
    cache filled. *)
Definition _ensure_on_rate_pct (st : state) : result (R * state) :=
  match on_rate_pct st with
  | Some r => Ok (r, st)
  | None =>
      match pillars_get 1 (st_pillars st) with
      | Some df1 =>
          if Req_dec_T df1 0 then Err ZeroDivision
          else
            let r := ((1 / df1) - 1) * day_count_convention / 1 * 100 in
            let v := round2 r in
            Ok (v, mkState (st_pillars st) (Some v))
      | None => Err MissingAnchorRate
      end
  end.

Definition _normalize_spread_pct (s_raw : option R) : R :=
  match s_raw with
  | None => 0
  | Some s => if Rlt_dec 5 (Rabs s) then s / 100 else s
  end.

(** The realized 28-day rate [TCdev]; the code computes it twice with
    the same expression. *)
Definition tc_dev (r_pct d : R) : R :=
  if Rle_dec d 0 then 0
  else (fpow (1 + r_pct / 36000) d - 1) * 36000 / d.

(** [_frn_28day_coupon_params] on a numeric tenor: [(k, d, rem, C1, C)]. *)
Definition _frn_28day_coupon_params (T_days r_pct s_pct : R)
  : Z * R * R * R * R :=
  let step := 28 in
  let k := if Rlt_dec 0 T_days then Zceil (T_days / step) else 0%Z in
  if Z.eqb k 0 then (0%Z, 0, 0, 0, 0)
  else
    let rem := T_days - step * IZR (k - 1) in
    let d := if Rlt_dec 0 rem then step - rem else 0 in
    let TCdev := tc_dev r_pct d in
    let r_eff := r_pct + s_pct in
    let TC1 :=
      ((1 + TCdev / 36000) * fpow (1 + r_eff / 36000) (step - d) - 1)
      * 36000 / step in
    let TC := (fpow (1 + r_eff / 36000) step - 1) * 36000 / step in
    let C1 := 100 * step * TC1 / 36000 in
    let C := 100 * step * TC / 36000 in
    (k, d, rem, C1, C).

(** The two loops that split a schedule at the last pillar [S]: cash
    flows at or before [S] are priced with [df_func], the others are
    kept, in order, for the solver. *)
Definition partition_flows (df_func : R -> R) (S : R) (flows : list (R * R))
  : R * list (R * R) :=
  fold_left
    (fun acc ta =>
       let '(pre_known_sum, future) := acc in
       let '(t, a) := ta in
       if Rle_dec t (S + 1e-12) then (pre_known_sum + a * df_func t, future)
       else (pre_known_sum, future ++ [(t, a)]))
    flows (0, []).

(** [df_T = max(1e-12, min(df_T, df_func(S)))] *)
Definition cap_df (df_T df_S : R) : R := Rmax 1e-12 (Rmin df_T df_S).

(** The [fixed_bond] branch up to the value written to [pillars[T]].
    With a NaN coupon every cash flow is NaN; the solver is then asked
    for the root of a NaN-valued function, which brentq refuses. *)
Definition fixed_bond_df (r : row) (T : R) (p : pillars) : result R :=
  let* price := _pick_price r in
  let step := 182 in
  let k := Zfloor (T / step) in
  let pre_T_dates := map (fun i => step * IZR i) (zrange 1 (Z.to_nat k)) in
  let pre_T_dates :=
    match last_opt pre_T_dates with
    | Some l => if isclose l T then removelast pre_T_dates else pre_T_dates
    | None => pre_T_dates
    end in
  let last_cpn_time :=
    match last_opt pre_T_dates with Some l => l | None => 0 end in
  let alpha := step / day_count_convention in
  let alpha_T := (T - last_cpn_time) / day_count_convention in
  let* df_func := _build_loglinear_df_func p in
  let* S_ := max_key p in
  let S := S_ in
  let* df_T :=
    if Rle_dec T (S + 1e-12) then Ok (df_func T)
    else
      match num (coupon r) with
      | None => Err SolverFailure
      | Some cpn =>
          let c_rate := cpn / 100 in
          let c_amt := c_rate * alpha * 100 in
          let final_cf := 100 + c_rate * alpha_T * 100 in
          let '(pre_known_sum, future) :=
            partition_flows df_func S (map (fun t => (t, c_amt)) pre_T_dates) in
          let future := future ++ [(T, final_cf)] in
          _solve_df_T_loglinear_generic price pre_known_sum (df_func S) S T
            (map fst future) (map snd future)
      end in
  Ok (cap_df df_T (df_func S)).

(** The BONDES branch after the coupon parameters, for [k > 0]. *)
Definition frn_df (r : row) (T r_pct : R) (k : Z) (d rem C1 C : R)
    (p : pillars) : result R :=
  let TCdev := tc_dev r_pct d in
  let accrued := 100 * d * TCdev / 36000 in
  let* price :=
    match num (dirty_price r) with
    | Some pd => Ok pd
    | None =>
        match num (clean_price r) with
        | Some pc => Ok (pc + accrued)
        | None => Err MissingFrnPrice
        end
    end in
  let step := 28 in
  let pay_times := map (fun j => rem + step * IZR j) (zrange 0 (Z.to_nat (k - 1))) in
  let pay_amts :=
    match pay_times with
    | [] => []
    | _ :: rest => C1 :: map (fun _ => C) rest
    end in
  let last_coupon_at_T := match pay_times with [] => C1 | _ => C end in
  let pay_times := pay_times ++ [T] in
  let pay_amts := pay_amts ++ [100 + last_coupon_at_T] in
  let* df_func := _build_loglinear_df_func p in
  let* S_ := max_key p in
  let S := S_ in
  let '(pre_known_sum, future) :=
    partition_flows df_func S (combine pay_times pay_amts) in
  let* df_T :=
    if Rle_dec T (S + 1e-12) then Ok (df_func T)
    else _solve_df_T_loglinear_generic price pre_known_sum (df_func S) S T
           (map fst future) (map snd future) in
  Ok (cap_df df_T (df_func S)).

(** One iteration of the main loop.  [types] is [df["type"].to_list()]. *)
Definition step (types : list string) (r : row) (st : state) : result state :=
  let inst_type := inst_type_of r in
  let T := num (tenor_days r) in
  let p := st_pillars st in
  if negb (existsb (String.eqb "overnight_rate") types) then Ok st
  else if String.eqb inst_type "overnight_rate" then
    match num (dirty_price r) with
    | None => Err MissingOvernightRate
    | Some rate =>
        let rate := if Rlt_dec 1 rate then rate / 100 else rate in
        let den := 1 + rate * (1 / day_count_convention) in
        if Req_dec_T den 0 then Err ZeroDivision
        else
          let df_1d := 1 / den in
          Ok (mkState (pillars_set_opt T df_1d p) (Some (round2 (rate * 100))))
    end
  else if String.eqb inst_type "zero_coupon" then
    let* price := _pick_price r in
    Ok (mkState (pillars_set_opt T (price / 10) p) (on_rate_pct st))
  else if String.eqb inst_type "fixed_bond" then
    match T with
    | None => let* _ := _pick_price r in Err NanToInteger
    | Some T =>
        let* df_T := fixed_bond_df r T p in
        Ok (mkState (pillars_set T df_T p) (on_rate_pct st))
    end
  else if is_frn inst_type then
    let* (r_pct, st1) := _ensure_on_rate_pct st in
    let s_pct := _normalize_spread_pct (num (coupon r)) in
    match T with
    | None => Ok st1
    | Some T =>
        let '(k, d, rem, C1, C) := _frn_28day_coupon_params T r_pct s_pct in
        if (k <=? 0)%Z then
          let* S_ := max_key p in
          match pillars_get S_ p with
          | Some v => Ok (mkState (pillars_set T v p) (on_rate_pct st1))
          | None => Err EmptySequence
          end
        else
          let* df_T := frn_df r T r_pct k d rem C1 C p in
          Ok (mkState (pillars_set T df_T p) (on_rate_pct st1))
    end
  else Err (UnknownInstrumentType inst_type).

(** [for _, r in df.iterrows(): ...] *)
Fixpoint run_rows (types : list string) (rows : list row) (st : state)
  : result state :=
  match rows with
  | [] => Ok st
  | r :: rest =>
      let* st' := step types r st in
      run_rows types rest st'
  end.

(** The closing block: pillars with a positive tenor become the rows
    [(days_to_maturity, zero_rate)], stably sorted by days. *)
Definition zero_curve (p : pillars) : list (Z * R) :=
  let kept := List.filter (fun td => Rltb 0 (fst td)) p in
  let out :=
    map (fun td =>
           (astype_int (fst td),
            ((1 / snd td) - 1) * (day_count_convention / fst td) * 100))
        kept in
  stable_sort (fun a b => (fst a <=? fst b)%Z) out.

(** [pd.to_numeric(col, errors="coerce")] cell by cell; the parser of
    text cells belongs to pandas. *)
Variable parse_float : string -> option R.

Definition to_numeric (c : cell) : cell :=
  match c with
  | CNum x => CNum x
  | CNaN => CNaN
  | CText s => match parse_float s with Some x => CNum x | None => CNaN end
  end.

Definition coerce_tenor_days (r : row) : row :=
  mkRow (time_index r) (type r) (to_numeric (tenor_days r)) (clean_price r)
    (dirty_price r) (coupon r).
Definition coerce_clean_price (r : row) : row :=
  mkRow (time_index r) (type r) (tenor_days r) (to_numeric (clean_price r))
    (dirty_price r) (coupon r).
Definition coerce_dirty_price (r : row) : row :=
  mkRow (time_index r) (type r) (tenor_days r) (clean_price r)
    (to_numeric (dirty_price r)) (coupon r).
Definition coerce_coupon (r : row) : row :=
  mkRow (time_index r) (type r) (tenor_days r) (clean_price r)
    (dirty_price r) (to_numeric (coupon r)).

Variable sort_values : frame -> frame.

(** The four column assignments, in order. *)
Definition coerce_frame (df : frame) : frame :=
  map coerce_coupon
    (map coerce_dirty_price (map coerce_clean_price (map coerce_tenor_days df))).

(** The store the main loop ends with. *)
Definition bootstrap_pillars (curve_df : frame) : result state :=
  let df := sort_values (coerce_frame curve_df) in
  run_rows (map type df) df init_state.

(** [bootstrap_from_curve_df] as a function of the table it is given. *)
Definition bootstrap_from_curve_df (curve_df : frame) : result (list (Z * R)) :=
  let* st := bootstrap_pillars curve_df in
  Ok (zero_curve (st_pillars st)).

(** *** The same call on DataFrame objects

    DataFrames are mutable objects: the store maps object identities to
    their current rows.  [copy] and [sort_values] make a new object, a
    column assignment [df[c] = ...] updates the object [df] names. *)
Definition frame_of (h : gmap nat frame) (l : nat) : frame :=
  default [] (h !! l).

Definition new_object (h : gmap nat frame) (f : frame) : nat * gmap nat frame :=
  let l := fresh (dom h) in (l, <[l := f]> h).

Definition assign_column (upd : row -> row) (l : nat) (h : gmap nat frame)
  : gmap nat frame :=
  <[l := map upd (frame_of h l)]> h.

Definition call_bootstrap_from_curve_df (curve_df : nat) (h : gmap nat frame)
  : gmap nat frame * result (list (Z * R)) :=
  let '(df, h) := new_object h (frame_of h curve_df) in
  let h := assign_column coerce_tenor_days df h in
  let h := assign_column coerce_clean_price df h in
  let h := assign_column coerce_dirty_price df h in
  let h := assign_column coerce_coupon df h in
  let '(df, h) := new_object h (sort_values (frame_of h df)) in
  let rows := frame_of h df in
  (h, let* st := run_rows (map type rows) rows init_state in
      Ok (zero_curve (st_pillars st))).

End Bootstrap.

(* ------------------------------------------------------------------ *)
(** ** Time-series wrappers                                            *)
(* ------------------------------------------------------------------ *)

(** [frame.groupby(key)]: one group per distinct key, keys ascending,
    rows of a group in their original order. *)
Definition groupby {A : Type} (key : A -> Z) (l : list A) : list (Z * list A) :=
  map (fun k => (k, List.filter (fun a => Z.eqb (key a) k) l))
      (stable_sort Z.leb (nodup Z.eq_dec (map key l))).

(** [bootstrap.py]: the wrapper next to the driver.  [nodes] is the
    table [get_df_between_dates] returned; the result is the long table
    [(time_index, days_to_maturity, zero_rate)]. *)
Module bootstrap.
Section Wrapper.
Variable brentq : (R -> R) -> R -> R -> R -> nat -> result R.
Variable parse_float : string -> option R.
Variable sort_values : frame -> frame.

Fixpoint per_date (groups : list (Z * frame))
  : result (list (Z * list (Z * R))) :=
  match groups with
  | [] => Ok []
  | (ti, curve_df) :: rest =>
      let* zdf := bootstrap_from_curve_df brentq 360 parse_float sort_values curve_df in
      let* more := per_date rest in
      Ok ((ti, zdf) :: more)
  end.

Definition boostrap_mbono_curve (nodes : frame) : result (list (Z * Z * R)) :=
  let* results := per_date (groupby time_index nodes) in
  Ok (concat (map (fun tz => map (fun dz => (fst tz, fst dz, snd dz)) (snd tz))
                  results)).
End Wrapper.
End bootstrap.

(** [rates_to_curves.py]: the wrapper the curve registry is wired to.
    Its input names the tenor and coupon columns [days_to_maturity] and
    [current_coupon]; the result maps each date (and the curve id) to the
    dict [days_to_maturity -> zero_rate]. *)
Module rates_to_curves.

Record node_row : Type := mkNode {
  node_time_index : Z;
  node_type : string;
  days_to_maturity : cell;
  node_clean_price : cell;
  node_dirty_price : cell;
  current_coupon : cell
}.

(** [Series.to_dict()]: a repeated key keeps its first position and its
    last value. *)
Fixpoint dict_set (k : Z) (v : R) (d : list (Z * R)) : list (Z * R) :=
  match d with
  | [] => [(k, v)]
  | (k', v') :: d' => if Z.eqb k k' then (k, v) :: d' else (k', v') :: dict_set k v d'
  end.

Definition to_dict (rows : list (Z * R)) : list (Z * R) :=
  fold_left (fun d kv => dict_set (fst kv) (snd kv) d) rows [].

Section Wrapper.
Variable brentq : (R -> R) -> R -> R -> R -> nat -> result R.
Variable parse_float : string -> option R.
Variable sort_values : frame -> frame.

(** The "robust numeric casting" block that fills the columns the
    driver reads. *)
Definition cast_row (n : node_row) : row :=
  mkRow (node_time_index n) (node_type n)
    (to_numeric parse_float (days_to_maturity n))
    (to_numeric parse_float (node_clean_price n))
    (to_numeric parse_float (node_dirty_price n))
    (to_numeric parse_float (current_coupon n)).

Fixpoint per_date (groups : list (Z * list node_row))
  : result (list (Z * list (Z * R))) :=
  match groups with
  | [] => Ok []
  | (ti, curve_df) :: rest =>
      if (length curve_df <? 5)%nat then per_date rest
      else
        let* zero_df :=
          bootstrap_from_curve_df brentq 360 parse_float sort_values
            (map cast_row curve_df) in
        let* more := per_date rest in
        Ok ((ti, zero_df) :: more)
  end.

(** Dates whose table has no row leave no group behind in the final
    [groupby].  (When every processed date has an empty table the final
    [groupby(...).apply(...)] runs on a frame without rows; the model
    returns the empty result there.) *)
Definition boostrap_mbono_curve (curve_unique_identifier : string)
    (nodes_data_df : list node_row)
  : result (list (Z * string * list (Z * R))) :=
  let* results := per_date (groupby node_time_index nodes_data_df) in
  Ok (map (fun tz => (fst tz, curve_unique_identifier, to_dict (snd tz)))
          (List.filter (fun tz => negb (Nat.eqb (length (snd tz)) 0)) results)).
End Wrapper.
End rates_to_curves.

(* ------------------------------------------------------------------ *)
(** ** Instances and sample rows for closed examples                   *)
(* ------------------------------------------------------------------ *)

(** A bracketing root finder with brentq's interface: it refuses a
    bracket without a sign change and otherwise bisects [maxiter] times. *)
Fixpoint bisect (n : nat) (f : R -> R) (lo hi : R) : R :=
  match n with
  | O => (lo + hi) / 2
  | S m =>
      let mid := (lo + hi) / 2 in
      if Rle_dec (f lo * f mid) 0 then bisect m f lo mid else bisect m f mid hi
  end.

Definition brentq_bisect (f : R -> R) (lo hi xtol : R) (maxiter : nat) : result R :=
  if Rlt_dec 0 (f lo * f hi) then Err SolverFailure
  else Ok (bisect maxiter f lo hi).

(** A parser for text cells that reads unsigned decimal integers. *)
Definition digit_of (c : ascii) : option Z :=
  let n := nat_of_ascii c in
  if ((48 <=? n)%nat && (n <=? 57)%nat)%bool then Some (Z.of_nat (n - 48)) else None.

Fixpoint parse_digits (acc : Z) (l : list ascii) : option Z :=
  match l with
  | [] => Some acc
  | c :: r =>
      match digit_of c with
      | Some d => parse_digits (10 * acc + d) r
      | None => None
      end
  end.

Definition parse_float_digits (s : string) : option R :=
  match list_ascii_of_string s with
  | [] => None
  | l => option_map IZR (parse_digits 0 l)
  end.

Definition overnight_row (ti : Z) (T rate : R) : row :=
  mkRow ti "overnight_rate" (CNum T) CNaN (CNum rate) CNaN.

Definition zero_coupon_row (ti : Z) (T clean : R) : row :=
  mkRow ti "zero_coupon" (CNum T) (CNum clean) CNaN CNaN.

Definition unknown_family_row (ti : Z) (T clean : R) : row :=
  mkRow ti "unknown_family" (CNum T) (CNum clean) CNaN CNaN.

Definition fixed_bond_row (ti : Z) (T dirty cpn : R) : row :=
  mkRow ti "fixed_bond" (CNum T) CNaN (CNum dirty) (CNum cpn).

(** A valuation date with four instrument rows. *)
Definition four_row_group : frame :=
  [overnight_row 1 1 0.105; zero_coupon_row 1 28 9.92;
   zero_coupon_row 1 91 9.75; zero_coupon_row 1 182 9.5].

(** The same four rows with the column names of [rates_to_curves.py]. *)
Definition four_node_group : list rates_to_curves.node_row :=
  map (fun r => rates_to_curves.mkNode (time_index r) (type r) (tenor_days r)
                  (clean_price r) (dirty_price r) (coupon r))
      four_row_group.

(* ------------------------------------------------------------------ *)
(** ** Further definitions: contracts and schedules                    *)
(* ------------------------------------------------------------------ *)

(** What the solver relies on from the root finder: a returned point lies
    in the bracket it was given. *)
Definition brentq_in_bracket
    (brentq : (R -> R) -> R -> R -> R -> nat -> result R) : Prop :=
  forall f lo hi xtol maxiter x,
    lo <= hi -> brentq f lo hi xtol maxiter = Ok x -> lo <= x <= hi.

(** The coupon schedule at the head of the [fixed_bond] branch:
    [pre_T_dates] and [last_cpn_time]. *)
Definition fixed_bond_pre_T_dates (T : R) : list R :=
  let step := 182 in
  let k := Zfloor (T / step) in
  let pre_T_dates := map (fun i => step * IZR i) (zrange 1 (Z.to_nat k)) in
  match last_opt pre_T_dates with
  | Some l => if isclose l T then removelast pre_T_dates else pre_T_dates
  | None => pre_T_dates
  end.

Definition fixed_bond_last_cpn_time (T : R) : R :=
  match last_opt (fixed_bond_pre_T_dates T) with Some l => l | None => 0 end.

(* ------------------------------------------------------------------ *)
(** ** Fetching series in batches ([utils.py])                         *)
(* ------------------------------------------------------------------ *)

(** What a call of [_fetch_banxico_series] can do besides returning:
    [raise_for_status] raises [requests.HTTPError], which carries the
    status code of its response when it has one; anything else (a
    connection error, a body that is not JSON) is another exception. *)
Inductive exception : Type :=
| HTTPError (status_code : option Z)
| OtherException.

Inductive outcome (A : Type) : Type :=
| Returned (a : A)
| Raised (e : exception).
Arguments Returned {A} a.
Arguments Raised {A} e.

(** [list(dict.fromkeys(series_ids))]: the distinct ids, each at the
    place of its first occurrence. *)
Definition dict_fromkeys (series_ids : list string) : list string :=
  fold_left (fun d k => if existsb (String.eqb k) d then d else d ++ [k])
            series_ids [].

(** [e.response is not None and e.response.status_code == 413] *)
Definition is_413 (e : exception) : bool :=
  match e with
  | HTTPError (Some status_code) => Z.eqb status_code 413
  | _ => false
  end.

Section Fetch.
(** The server, with whatever it remembers between requests, and the
    series objects it sends. *)
Variables server series : Type.

(** One request for a non-empty list of ids: [requests.get],
    [raise_for_status] and the "series" list of the JSON body. *)
Variable http_get : server -> list string -> server * outcome (list series).

Definition _fetch_banxico_series (srv : server) (series_ids : list string)
  : server * outcome (list series) :=
  match series_ids with
  | [] => (srv, Returned [])
  | _ => http_get srv series_ids
  end.

(** The [while i < len(uniq_ids)] loop; [fuel] bounds the number of
    iterations and [None] means it was used up.  [i] and [chunk] never go
    below 0 and 1, so they are naturals here. *)
Fixpoint batched_loop (fuel : nat) (uniq_ids : list string) (i chunk : nat)
    (out : list series) (srv : server) : option (server * outcome (list series)) :=
  if (i <? length uniq_ids)%nat then
    match fuel with
    | O => None
    | S fuel =>
        let ids_slice := firstn chunk (skipn i uniq_ids) in
        match _fetch_banxico_series srv ids_slice with
        | (srv, Returned part) =>
            batched_loop fuel uniq_ids (i + chunk) chunk (out ++ part) srv
        | (srv, Raised e) =>
            if (is_413 e && (1 <? chunk)%nat)%bool
            then batched_loop fuel uniq_ids i (Nat.max 1 (chunk / 2)) out srv
            else Some (srv, Raised e)
        end
    end
  else Some (srv, Returned out).

(** [fetch_banxico_series_batched(series_ids, ..., max_chunk=max_chunk)],
    run for at most [len(uniq_ids) + chunk] iterations. *)
Definition fetch_banxico_series_batched (series_ids : list string) (max_chunk : Z)
    (srv : server) : option (server * outcome (list series)) :=
  let uniq_ids := dict_fromkeys series_ids in
  let chunk := Z.to_nat (Z.max 1 max_chunk) in
  batched_loop (length uniq_ids + chunk) uniq_ids 0 chunk [] srv.
End Fetch.
Arguments _fetch_banxico_series {server series} http_get srv series_ids.
Arguments batched_loop {server series} http_get fuel uniq_ids i chunk out srv.
Arguments fetch_banxico_series_batched {server series} http_get series_ids max_chunk srv.

(** A server for closed examples: it keeps the count of requests it has
    seen, refuses more than two ids at a time with status 413 and
    otherwise sends one series object, the id itself, per id asked. *)
Definition two_id_server (n : nat) (ids : list string)
  : nat * outcome (list string) :=
  (S n, if (length ids <=? 2)%nat then Returned ids
        else Raised (HTTPError (Some 413%Z))).

(* ------------------------------------------------------------------ *)
(** ** Tickers and type tags ([nodes.py])                              *)
(* ------------------------------------------------------------------ *)

Fixpoint string_drop (n : nat) (s : string) : string :=
  match n, s with
  | O, _ => s
  | S n', String _ s' => string_drop n' s'
  | S _, EmptyString => EmptyString
  end.

(** [s.split(sep, 1)] for a non-empty [sep]: the text before and the text
    after the first occurrence of [sep]; [None] when [sep] does not occur
    and the list has the single element [s]. *)
Fixpoint split_once (sep s : string) : option (string * string) :=
  if String.prefix sep s then Some (EmptyString, string_drop (String.length sep) s)
  else
    match s with
    | EmptyString => None
    | String c s' =>
        match split_once sep s' with
        | Some (before, after) => Some (String c before, after)
        | None => None
        end
    end.

(** What the prefix dispatch in step 5 of [BanxicoMXNOTR.update] makes of
    one ticker: the frame key [(family, tenor)] to look up and the type tag
    to write there. *)
Inductive attach : Type :=
| Skip                                          (* the [else: continue] *)
| IndexError                                    (* [...split(p, 1)[1]] out of range *)
| Attach (family tenor sec_type : string).

(** [family, tenor = name, tkr.split(p, 1)[1]] *)
Definition attach_family (family p sec_type tkr : string) : attach :=
  match split_once p tkr with
  | Some (_, tenor) => Attach family tenor sec_type
  | None => IndexError
  end.

Definition classify_ticker (tkr : string) : attach :=
  if String.prefix "MCET_" tkr then attach_family "Cetes" "MCET_" "zero_coupon" tkr
  else if String.prefix "MBONO_" tkr then attach_family "Bonos" "MBONO_" "fixed_bond" tkr
  else if String.prefix "BONDES_D_" tkr
    then attach_family "Bondes_D" "BONDES_D_" "floating_bondes_d" tkr
  else if String.prefix "BONDES_F_" tkr
    then attach_family "Bondes_F" "BONDES_F_" "floating_bondes_f" tkr
  else if String.prefix "BONDES_G_" tkr
    then attach_family "Bondes_G" "BONDES_G_" "floating_bondes_g" tkr
  else Skip.

(** The ticker [get_asset_list] gives the asset of a tenor,
    [f"{p}{t}_OTR"], and the key [pivot_family] files the frame of a
    tenor under, [(family_name, f"{tenor}_OTR")]. *)
Definition asset_ticker (p t : string) : string := (p ++ t ++ "_OTR")%string.

Definition frames_key (family_name tenor : string) : string * string :=
  (family_name, (tenor ++ "_OTR")%string).

Definition BANXICO_TARGET_RATE : string := "BANXICO_TARGET_RATE".

(* ================================================================== *)
(** * Properties                                                      *)
(* ================================================================== *)

(** ** Real-number facts *)

Lemma exp_le_mono (x y : R) : x <= y -> exp x <= exp y.
Proof.
  intros [Hlt | ->]; [left; now apply exp_increasing | right; reflexivity].
Qed.

Lemma last_cons_default {A : Type} (l : list A) (a d1 d2 : A) :
  List.last (a :: l) d1 = List.last (a :: l) d2.
Proof.
  revert a. induction l as [|b l IH]; intros a; [reflexivity|].
  change (List.last (a :: b :: l) d1) with (List.last (b :: l) d1).
  change (List.last (a :: b :: l) d2) with (List.last (b :: l) d2).
  apply IH.
Qed.

Lemma last_cons_nth {A : Type} (l : list A) (a d : A) :
  List.last (a :: l) a = nth (length l) (a :: l) d.
Proof.
  revert a. induction l as [|b l IH]; intros a; [reflexivity|].
  change (List.last (a :: b :: l) a) with (List.last (b :: l) a).
  change (nth (length (b :: l)) (a :: b :: l) d) with (nth (length l) (b :: l) d).
  rewrite <- IH. apply last_cons_default.
Qed.

Lemma last_opt_nth {A : Type} (l : list A) (d x : A) :
  last_opt l = Some x -> nth (length l - 1) l d = x.
Proof.
  destruct l as [|a l]; [discriminate|].
  unfold last_opt. intros [= <-].
  cbn [length]. rewrite Nat.sub_1_r. cbn [Nat.pred].
  symmetry. apply last_cons_nth.
Qed.

Lemma existsb_nonpositive_false (p : pillars) :
  all_positive p -> existsb (fun y => Rleb y 0) (map snd p) = false.
Proof.
  induction 1 as [|[t d] q Hd _ IH]; [reflexivity|].
  cbn [map existsb snd] in *. rewrite IH. unfold Rleb.
  destruct (Rle_dec d 0); [lra | reflexivity].
Qed.

Lemma existsb_nonpositive_inv (p : pillars) :
  existsb (fun y => Rleb y 0) (map snd p) = false -> all_positive p.
Proof.
  induction p as [|[t d] q IH]; intros H; [constructor|].
  cbn [map existsb snd] in H. apply orb_false_iff in H as [H1 H2].
  constructor; [|now apply IH].
  unfold Rleb in H1. cbn [snd]. destruct (Rle_dec d 0); [discriminate | lra].
Qed.

Lemma build_ok_inv (p : pillars) (df : R -> R) :
  _build_loglinear_df_func p = Ok df ->
  all_positive p /\ p <> [] /\
  df = loglinear_df (map fst p) (map snd p) (map ln (map snd p)).
Proof.
  unfold _build_loglinear_df_func.
  destruct (existsb _ _) eqn:E; [discriminate|].
  destruct p as [|a q]; [discriminate|].
  intros [= <-]. split; [now apply existsb_nonpositive_inv|]. split; [discriminate | reflexivity].
Qed.

Lemma build_ok (p : pillars) :
  all_positive p -> p <> [] ->
  _build_loglinear_df_func p
  = Ok (loglinear_df (map fst p) (map snd p) (map ln (map snd p))).
Proof.
  intros Hpos Hne. unfold _build_loglinear_df_func.
  rewrite existsb_nonpositive_false by assumption.
  destruct p; [contradiction | reflexivity].
Qed.

Lemma ascending_first_lt_last (xs : list R) :
  StronglySorted Rlt xs -> (2 <= length xs)%nat ->
  nth 0 xs 0 < nth (length xs - 1) xs 0.
Proof.
  intros Hs Hlen. destruct xs as [|a [|b r]]; cbn [length] in Hlen; try lia.
  inversion Hs as [|? ? _ Hall]; subst.
  rewrite List.Forall_forall in Hall. apply Hall.
  cbn [length]. replace (S (S (length r)) - 1)%nat with (S (length r)) by lia.
  change (nth (S (length r)) (a :: b :: r) 0) with (nth (length r) (b :: r) 0).
  apply nth_In. cbn [length]. lia.
Qed.

(** Beyond the last pillar the curve is the clamped extrapolation (or the
    single pillar's value). *)
Lemma loglinear_df_right (xs ys logys : list R) (t : R) :
  StronglySorted Rlt xs -> xs <> [] ->
  nth (length xs - 1) xs 0 <= t ->
  loglinear_df xs ys logys t =
    if Nat.eqb (length xs) 1 then nth 0 ys 0
    else exp (nth (length xs - 1) logys 0
              + Rmin ((nth (length xs - 1) logys 0 - nth (length xs - 2) logys 0)
                      / (nth (length xs - 1) xs 0 - nth (length xs - 2) xs 0))
                     (-1e-12)
                * (t - nth (length xs - 1) xs 0)).
Proof.
  intros Hs Hne Ht. unfold loglinear_df.
  destruct (Nat.eqb (length xs) 1) eqn:En.
  - destruct (Rle_dec t (nth 0 xs 0)); [reflexivity|].
    destruct (Rge_dec t (nth (length xs - 1) xs 0)); [reflexivity | lra].
  - assert (2 <= length xs)%nat as Hlen.
    { apply Nat.eqb_neq in En. destruct xs; [contradiction|]. cbn [length] in *. lia. }
    pose proof (ascending_first_lt_last xs Hs Hlen) as Hfl.
    destruct (Rle_dec t (nth 0 xs 0)); [lra|].
    destruct (Rge_dec t (nth (length xs - 1) xs 0)); [reflexivity | lra].
Qed.


(** ** Sorting facts *)

Section StableSortFacts.
Context {A : Type} (leb : A -> A -> bool).
Hypothesis leb_total : forall a b, leb a b = true \/ leb b a = true.
Hypothesis leb_trans : forall a b c, leb a b = true -> leb b c = true -> leb a c = true.

Lemma insert_sorted_perm (a : A) (l : list A) :
  Permutation (a :: l) (insert_sorted leb a l).
Proof.
  induction l as [|b l IH]; cbn [insert_sorted]; [reflexivity|].
  destruct (leb b a); [|reflexivity].
  rewrite perm_swap. now apply perm_skip.
Qed.

Lemma stable_sort_perm_acc (l acc : list A) :
  Permutation (acc ++ l) (fold_left (fun acc a => insert_sorted leb a acc) l acc).
Proof.
  revert acc. induction l as [|a l IH]; intros acc; cbn [fold_left].
  - now rewrite app_nil_r.
  - etransitivity; [|apply IH].
    etransitivity; [symmetry; apply Permutation_middle|].
    apply (Permutation_app_tail l (insert_sorted_perm a acc)).
Qed.

Lemma stable_sort_perm (l : list A) : Permutation l (stable_sort leb l).
Proof. apply (stable_sort_perm_acc l []). Qed.

Lemma insert_sorted_sorted (a : A) (l : list A) :
  StronglySorted (fun x y => leb x y = true) l ->
  StronglySorted (fun x y => leb x y = true) (insert_sorted leb a l).
Proof.
  induction 1 as [|b l Hs IH Hall]; cbn [insert_sorted].
  - constructor; constructor.
  - destruct (leb b a) eqn:E.
    + constructor; [assumption|].
      apply (Permutation_Forall (insert_sorted_perm a l)).
      constructor; assumption.
    + assert (leb a b = true) as Hab by (destruct (leb_total a b); congruence).
      constructor; [constructor; assumption|].
      constructor; [assumption|].
      eapply List.Forall_impl; [|exact Hall]. intros c Hc. now apply (leb_trans a b c).
Qed.

Lemma stable_sort_sorted (l : list A) :
  StronglySorted (fun x y => leb x y = true) (stable_sort leb l).
Proof.
  unfold stable_sort.
  assert (StronglySorted (fun x y => leb x y = true) (@nil A)) as H by constructor.
  revert H. generalize (@nil A) as acc. induction l as [|a l IH]; intros acc H; cbn [fold_left].
  - assumption.
  - apply IH. now apply insert_sorted_sorted.
Qed.

(** An element that is not below any element of a list goes to its end. *)
Lemma insert_sorted_last (a : A) (l : list A) :
  Forall (fun b => leb b a = true) l -> insert_sorted leb a l = l ++ [a].
Proof.
  induction 1 as [|b l Hb _ IH]; cbn [insert_sorted app]; [reflexivity|].
  now rewrite Hb, IH.
Qed.

Lemma stable_sort_sorted_id_acc (l acc : list A) :
  StronglySorted (fun x y => leb x y = true) (acc ++ l) ->
  fold_left (fun acc a => insert_sorted leb a acc) l acc = acc ++ l.
Proof.
  revert acc. induction l as [|a l IH]; intros acc Hs; cbn [fold_left].
  - now rewrite app_nil_r.
  - rewrite insert_sorted_last.
    + rewrite IH; rewrite <- app_assoc; [reflexivity | exact Hs].
    + clear IH. induction acc as [|b acc IHacc]; [constructor|].
      cbn [app] in Hs. inversion Hs as [|? ? Hs' Hall]; subst.
      constructor; [|now apply IHacc].
      rewrite List.Forall_forall in Hall. apply Hall.
      apply in_or_app. right. now left.
Qed.

(** A stable sort leaves a sorted list as it is. *)
Lemma stable_sort_sorted_id (l : list A) :
  StronglySorted (fun x y => leb x y = true) l -> stable_sort leb l = l.
Proof. intros H. apply (stable_sort_sorted_id_acc l [] H). Qed.
End StableSortFacts.

(** ** The tenor order and the sort contract *)

Lemma tenor_leb_le (a b : option R) : tenor_leb a b = true <-> tenor_le a b.
Proof.
  destruct a as [x|], b as [y|]; cbn; unfold Rleb;
    try destruct (Rle_dec x y); intuition (try discriminate; try lra).
Qed.

Lemma tenor_le_total (a b : option R) : tenor_le a b \/ tenor_le b a.
Proof. destruct a as [x|], b as [y|]; cbn; try tauto. lra. Qed.

Lemma tenor_le_trans (a b c : option R) : tenor_le a b -> tenor_le b c -> tenor_le a c.
Proof. destruct a as [x|], b as [y|], c as [z|]; cbn; try tauto. lra. Qed.

Lemma tenor_le_antisym (a b : option R) : tenor_le a b -> tenor_le b a -> a = b.
Proof.
  destruct a as [x|], b as [y|]; cbn; try tauto.
  intros H1 H2. f_equal. lra.
Qed.

Lemma sorted_leb_row_le (l : list row) :
  StronglySorted (fun a b => row_leb a b = true) l <-> StronglySorted row_le l.
Proof.
  split; induction 1 as [|a l Hs IH Hall]; constructor; try assumption;
    (eapply List.Forall_impl; [|exact Hall]); intros b Hb; now apply tenor_leb_le.
Qed.

Lemma sort_values_stable_contract : sort_contract sort_values_stable.
Proof.
  split; intros df.
  - apply stable_sort_perm.
  - apply sorted_leb_row_le. apply stable_sort_sorted.
    + intros a b. destruct (tenor_le_total (row_key a) (row_key b)); [left | right];
        now apply tenor_leb_le.
    + intros a b c Hab Hbc. apply tenor_leb_le.
      eapply tenor_le_trans; apply tenor_leb_le; eassumption.
Qed.

Lemma sort_values_stable_sorted_id (df : frame) :
  StronglySorted row_le df -> sort_values_stable df = df.
Proof. intros H. apply stable_sort_sorted_id. now apply sorted_leb_row_le. Qed.

(** Two ascending arrangements of the same rows coincide when no two rows
    share a tenor. *)
Lemma sorted_perm_unique (l1 l2 : list row) :
  List.NoDup (map row_key l1) ->
  Permutation l1 l2 ->
  StronglySorted row_le l1 -> StronglySorted row_le l2 -> l1 = l2.
Proof.
  revert l2. induction l1 as [|a l1 IH]; intros l2 Hnd Hp Hs1 Hs2.
  - apply Permutation_nil in Hp. now subst.
  - destruct l2 as [|b l2]; [now apply Permutation_sym, Permutation_nil in Hp|].
    inversion Hs1 as [|? ? Hs1' Hall1]; inversion Hs2 as [|? ? Hs2' Hall2]; subst.
    rewrite List.Forall_forall in Hall1, Hall2.
    assert (a = b) as ->.
    { assert (In b (a :: l1)) as Hb
        by (eapply Permutation_in; [apply Permutation_sym; exact Hp | now left]).
      assert (In a (b :: l2)) as Ha by (eapply Permutation_in; [exact Hp | now left]).
      destruct Hb as [-> | Hb]; [reflexivity|].
      destruct Ha as [-> | Ha]; [reflexivity|].
      exfalso. cbn [map] in Hnd. apply NoDup_cons_iff in Hnd as [Hnotin _].
      apply Hnotin.
      replace (row_key a) with (row_key b)
        by (apply tenor_le_antisym; [apply Hall2 | apply Hall1]; assumption).
      now apply in_map. }
    f_equal. apply IH; try assumption.
    + cbn [map] in Hnd. now apply NoDup_cons_iff in Hnd as [_ ?].
    + eapply Permutation_cons_inv; exact Hp.
Qed.

Lemma sort_contract_unique (srt : frame -> frame) (l1 l2 : frame) :
  sort_contract srt ->
  List.NoDup (map row_key l1) -> Permutation l1 l2 -> srt l1 = srt l2.
Proof.
  intros [Hperm Hsorted] Hnd Hp.
  apply sorted_perm_unique; try apply Hsorted.
  - eapply Permutation_NoDup; [|exact Hnd]. apply Permutation_map, Hperm.
  - rewrite <- (Hperm l1), <- (Hperm l2). exact Hp.
Qed.

Lemma sort_contract_sorted_id (srt : frame -> frame) (l : frame) :
  sort_contract srt ->
  List.NoDup (map row_key l) -> StronglySorted row_le l -> srt l = l.
Proof.
  intros [Hperm Hsorted] Hnd Hs. symmetry.
  apply sorted_perm_unique; [assumption | apply Hperm | assumption | apply Hsorted].
Qed.

(** ** The store *)

Lemma pillars_get_set (T v t : R) (p : pillars) :
  pillars_get t (pillars_set T v p) = if Req_dec_T t T then Some v else pillars_get t p.
Proof.
  induction p as [|[x y] q IH]; cbn [pillars_set pillars_get].
  - destruct (Req_dec_T t T); reflexivity.
  - destruct (Rlt_dec T x); [|destruct (Req_dec_T T x) as [->|Hne]];
      cbn [pillars_get].
    + destruct (Req_dec_T t T); reflexivity.
    + destruct (Req_dec_T t x); reflexivity.
    + rewrite IH. destruct (Req_dec_T t x) as [->|]; [|reflexivity].
      destruct (Req_dec_T x T); [congruence | reflexivity].
Qed.


Lemma pillars_set_keys_ascending (T v : R) (p : pillars) :
  keys_ascending p -> keys_ascending (pillars_set T v p).
Proof.
  unfold keys_ascending. induction p as [|[x y] q IH]; intros Hs; cbn [pillars_set].
  - repeat constructor.
  - cbn [map fst] in Hs. inversion Hs as [|? ? Hs' Hall]; subst.
    destruct (Rlt_dec T x) as [Hlt|Hnlt]; [|destruct (Req_dec_T T x) as [->|Hne]];
      cbn [map fst].
    + constructor; [assumption|]. constructor; [assumption|].
      eapply List.Forall_impl; [|exact Hall]. cbn. intros; lra.
    + constructor; assumption.
    + constructor; [now apply IH|].
      assert (x < T) as HxT by lra. clear IH Hs Hs' Hnlt Hne.
      induction q as [|[x' y'] q IHq]; cbn [pillars_set map fst].
      * repeat constructor. exact HxT.
      * inversion Hall; subst.
        destruct (Rlt_dec T x'); [|destruct (Req_dec_T T x')]; cbn [map fst];
          repeat (constructor; try assumption).
        now apply IHq.
Qed.

(** In an ascending store the last entry is the one [max_key] names. *)
Lemma max_key_get (p : pillars) (s : R) :
  keys_ascending p -> max_key p = Ok s ->
  exists d, pillars_get s p = Some d /\
            nth (length p - 1) (map snd p) 0 = d /\
            nth (length p - 1) (map fst p) 0 = s /\
            forall t e, pillars_get t p = Some e -> t <= s.
Proof.
  unfold keys_ascending, max_key. induction p as [|[x y] q IH]; [discriminate|].
  intros Hs HS. cbn [map fst] in Hs. inversion Hs as [|? ? Hs' Hall]; subst.
  destruct q as [|[x' y'] q'].
  - cbn in HS. injection HS as <-. exists y. cbn [pillars_get].
    destruct (Req_dec_T x x) as [_|]; [|congruence]. repeat split; try reflexivity.
    intros t e. cbn [pillars_get]. destruct (Req_dec_T t x); [lra | discriminate].
  - assert (match last_opt (map fst ((x', y') :: q')) with
            | Some x0 => Ok x0 | None => Err EmptySequence end = Ok s) as HS'.
    { rewrite <- HS. unfold last_opt. cbn [map fst]. f_equal.
      change (List.last (x :: x' :: map fst q') x) with (List.last (x' :: map fst q') x).
      apply last_cons_default. }
    destruct (IH Hs' HS') as (d & Hget & Hnth & Hkey & Hmax).
    assert (x < s) as Hxs.
    { rewrite List.Forall_forall in Hall. apply Hall. rewrite <- Hkey.
      apply nth_In. rewrite length_map. cbn [length]. lia. }
    exists d. cbn [pillars_get].
    destruct (Req_dec_T s x); [lra|].
    split; [exact Hget|]. cbn [length] in *.
    replace (S (S (length q')) - 1)%nat with (S (S (length q') - 1))%nat by lia.
    split; [exact Hnth|]. split; [exact Hkey|].
    intros t e. destruct (Req_dec_T t x); [lra | apply Hmax].
Qed.

(** ** Equations of the main loop *)

Lemma has_overnight_In (types : list string) :
  existsb (String.eqb "overnight_rate") types = true <-> In "overnight_rate"%string types.
Proof.
  rewrite existsb_exists. split.
  - intros (s & Hin & Heq). apply String.eqb_eq in Heq. now subst.
  - intros Hin. exists "overnight_rate"%string. split; [assumption | apply String.eqb_refl].
Qed.

Lemma has_overnight_not_In (types : list string) :
  existsb (String.eqb "overnight_rate") types = false <-> ~ In "overnight_rate"%string types.
Proof.
  rewrite <- has_overnight_In. destruct (existsb _ _); split; congruence.
Qed.

Section LoopFacts.
Variable brentq : (R -> R) -> R -> R -> R -> nat -> result R.
Variable dcc : R.

Lemma step_skip (types : list string) (r : row) (st : state) :
  ~ In "overnight_rate"%string types -> step brentq dcc types r st = Ok st.
Proof.
  intros H. apply has_overnight_not_In in H. unfold step. now rewrite H.
Qed.

Lemma run_rows_skip (types : list string) (rows : list row) (st : state) :
  ~ In "overnight_rate"%string types -> run_rows brentq dcc types rows st = Ok st.
Proof.
  intros H. induction rows as [|r rows IH]; cbn [run_rows]; [reflexivity|].
  rewrite step_skip by assumption. exact IH.
Qed.

Lemma step_overnight (types : list string) (r : row) (st : state) (rate : R) :
  In "overnight_rate"%string types ->
  inst_type_of r = "overnight_rate"%string ->
  num (dirty_price r) = Some rate ->
  let rate' := if Rlt_dec 1 rate then rate / 100 else rate in
  1 + rate' * (1 / dcc) <> 0 ->
  step brentq dcc types r st
  = Ok (mkState (pillars_set_opt (num (tenor_days r))
                   (1 / (1 + rate' * (1 / dcc))) (st_pillars st))
                (Some (round2 (rate' * 100)))).
Proof.
  intros Hon Hty Hrate rate' Hden. apply has_overnight_In in Hon.
  unfold step. rewrite Hon, Hty, Hrate. cbn [negb].
  rewrite String.eqb_refl. fold rate'.
  destruct (Req_dec_T (1 + rate' * (1 / dcc)) 0); [contradiction | reflexivity].
Qed.

Lemma step_zero_coupon (types : list string) (r : row) (st : state) (price : R) :
  In "overnight_rate"%string types ->
  inst_type_of r = "zero_coupon"%string ->
  _pick_price r = Ok price ->
  step brentq dcc types r st
  = Ok (mkState (pillars_set_opt (num (tenor_days r)) (price / 10) (st_pillars st))
                (on_rate_pct st)).
Proof.
  intros Hon Hty Hprice. apply has_overnight_In in Hon.
  unfold step. rewrite Hon, Hty, Hprice. reflexivity.
Qed.

Lemma step_unknown (types : list string) (r : row) (st : state) :
  In "overnight_rate"%string types ->
  recognized (inst_type_of r) = false ->
  step brentq dcc types r st = Err (UnknownInstrumentType (inst_type_of r)).
Proof.
  intros Hon Hty. apply has_overnight_In in Hon.
  unfold recognized in Hty. repeat (apply orb_false_iff in Hty as [Hty ?]).
  unfold step. rewrite Hon. cbn [negb].
  now repeat match goal with H : _ = false |- _ => rewrite H; clear H end.
Qed.

(** The loop stops at the first row that raises. *)
Lemma run_rows_app (types : list string) (pre post : list row) (st : state) :
  run_rows brentq dcc types (pre ++ post) st
  = let* st' := run_rows brentq dcc types pre st in
    run_rows brentq dcc types post st'.
Proof.
  revert st. induction pre as [|r pre IH]; intros st; cbn [app run_rows]; [reflexivity|].
  destruct (step brentq dcc types r st) as [st'|e]; cbn [bind]; [apply IH | reflexivity].
Qed.

Lemma run_rows_unknown_fails (types : list string) (rows : list row) (u : row)
    (st : state) :
  In "overnight_rate"%string types ->
  In u rows -> recognized (inst_type_of u) = false ->
  exists e, run_rows brentq dcc types rows st = Err e.
Proof.
  intros Hon Hin Hty. revert st. induction rows as [|r rows IH]; intros st;
    [contradiction|].
  cbn [run_rows]. destruct Hin as [-> | Hin].
  - rewrite step_unknown by assumption. eexists. reflexivity.
  - destruct (step brentq dcc types r st) as [st'|e]; cbn [bind].
    + now apply IH.
    + eexists. reflexivity.
Qed.
End LoopFacts.

(** ** Evaluating the model on concrete numbers *)

Ltac decide_R :=
  repeat match goal with
  | |- context [Rle_dec ?a ?b] =>
      destruct (Rle_dec a b); [try (exfalso; lra) | try (exfalso; lra)]
  | |- context [Rlt_dec ?a ?b] =>
      destruct (Rlt_dec a b); [try (exfalso; lra) | try (exfalso; lra)]
  | |- context [Rge_dec ?a ?b] =>
      destruct (Rge_dec a b); [try (exfalso; lra) | try (exfalso; lra)]
  | |- context [Req_dec_T ?a ?b] =>
      destruct (Req_dec_T a b); [try (exfalso; lra) | try (exfalso; lra)]
  end.

Ltac eval_store :=
  repeat (progress (cbn [pillars_set pillars_get pillars_set_opt]; decide_R)).

Lemma astype_int_IZR (z : Z) : astype_int (IZR z) = z.
Proof.
  unfold astype_int. destruct (Rle_dec 0 (IZR z)); [apply ZfloorZ|].
  unfold Zceil. rewrite <- opp_IZR, ZfloorZ. lia.
Qed.


Lemma coerce_frame_map (parse : string -> option R) (df : frame) :
  coerce_frame parse df
  = map (fun r => coerce_coupon parse (coerce_dirty_price parse
                    (coerce_clean_price parse (coerce_tenor_days parse r)))) df.
Proof. unfold coerce_frame. now rewrite !map_map. Qed.

Lemma coerce_frame_types (parse : string -> option R) (df : frame) :
  map type (coerce_frame parse df) = map type df.
Proof. rewrite coerce_frame_map, map_map. reflexivity. Qed.

Lemma coerce_frame_perm (parse : string -> option R) (l1 l2 : frame) :
  Permutation l1 l2 -> Permutation (coerce_frame parse l1) (coerce_frame parse l2).
Proof. rewrite !coerce_frame_map. apply Permutation_map. Qed.


(** A run on a table without the raw tag "overnight_rate" skips every
    row. *)
Lemma bootstrap_without_overnight
    (brentq : (R -> R) -> R -> R -> R -> nat -> result R) (dcc : R)
    (parse_float : string -> option R) (sort_values : frame -> frame)
    (df : frame) :
  sort_contract sort_values ->
  ~ In "overnight_rate"%string (map type df) ->
  ~ In "overnight_rate"%string
      (map type (sort_values (coerce_frame parse_float df))) /\
  bootstrap_pillars brentq dcc parse_float sort_values df = Ok init_state /\
  bootstrap_from_curve_df brentq dcc parse_float sort_values df = Ok [].
Proof.
  intros [Hperm _] Hno.
  assert (~ In "overnight_rate"%string
            (map type (sort_values (coerce_frame parse_float df)))) as Hno'.
  { intros Hin. apply Hno. rewrite <- (coerce_frame_types parse_float).
    eapply Permutation_in; [|exact Hin].
    apply Permutation_map, Permutation_sym, Hperm. }
  assert (bootstrap_pillars brentq dcc parse_float sort_values df = Ok init_state) as Hrun
    by (unfold bootstrap_pillars; now apply run_rows_skip).
  repeat split; try assumption.
  unfold bootstrap_from_curve_df. rewrite Hrun. cbn [bind init_state st_pillars].
  unfold zero_curve. cbn [List.filter fst]. unfold Rltb.
  destruct (Rlt_dec 0 0); [lra | reflexivity].
Qed.

(* ------------------------------------------------------------------ *)
(** ** The curve function and the solver                               *)
(* ------------------------------------------------------------------ *)

(** C3 as stated fails: a valid pillar set need not hold the pillar
    (0, 1.0).  The single pillar (30, 0.99) has a positive discount
    factor, the curve function is built, and its value at 0 is 0.99. *)
Lemma curve_at_zero_counterexample :
  all_positive [(30, 0.99)] /\
  exists df, _build_loglinear_df_func [(30, 0.99)] = Ok df /\ df 0 = 0.99 /\ df 0 <> 1.
Proof.
  split; [repeat constructor; cbn; lra|].
  eexists. split; [apply build_ok; [repeat constructor; cbn; lra | discriminate]|].
  assert (loglinear_df (map fst [(30, 0.99)]) (map snd [(30, 0.99)])
            (map ln (map snd [(30, 0.99)])) 0 = 0.99) as H.
  { unfold loglinear_df. cbn [map fst snd length nth Nat.eqb]. decide_R. reflexivity. }
  rewrite H. split; [reflexivity | lra].
Qed.

(** C3 (amended).  For every valid pillar set (keys of the dict in
    ascending order, every discount factor strictly positive, at least one
    pillar) the curve function is built and is non-increasing in [t] for
    all [t] at or beyond the last pillar; its value at 0 is 1.0 when the
    first pillar is the seeded pillar (0, 1.0). *)
Theorem curve_extrapolation_monotone (p : pillars) :
  keys_ascending p -> all_positive p -> p <> [] ->
  exists df, _build_loglinear_df_func p = Ok df /\
    (hd_error p = Some (0, 1) -> df 0 = 1) /\
    (forall s t1 t2, max_key p = Ok s -> s <= t1 -> t1 <= t2 -> df t2 <= df t1).
Proof.
  intros Hasc Hpos Hne. eexists. split; [now apply build_ok|]. split.
  - intros Hhd. destruct p as [|[x y] q]; [discriminate|].
    injection Hhd as -> ->. unfold loglinear_df. cbn [map fst snd nth length].
    destruct (Rle_dec 0 0) as [_|]; [|lra].
    destruct (Nat.eqb (S (length (map fst q))) 1); [reflexivity|].
    rewrite ln_1. replace (0 - 0) with 0 by lra. rewrite Rmult_0_r, Rplus_0_r.
    apply exp_0.
  - intros s t1 t2 Hs H1 H2. unfold max_key in Hs.
    destruct (last_opt (map fst p)) as [x|] eqn:El; [|discriminate].
    injection Hs as ->. apply (last_opt_nth _ 0) in El.
    assert (map fst p <> []) as Hxs by (destruct p; [contradiction | discriminate]).
    rewrite !loglinear_df_right by (try assumption; rewrite El; lra).
    destruct (Nat.eqb _ 1); [lra|].
    apply exp_le_mono. rewrite El.
    set (m := Rmin _ _). assert (m <= -1e-12) by apply Rmin_r.
    nra.
Qed.

Lemma curve_extrapolation_monotone_witness :
  exists df, _build_loglinear_df_func [(0, 1); (1, 0.9997)] = Ok df /\
    (hd_error [(0, 1); (1, 0.9997)] = Some (0, 1) -> df 0 = 1) /\
    (forall s t1 t2, max_key [(0, 1); (1, 0.9997)] = Ok s ->
       s <= t1 -> t1 <= t2 -> df t2 <= df t1).
Proof.
  apply (curve_extrapolation_monotone [(0, 1); (1, 0.9997)]).
  - unfold keys_ascending. cbn [map fst]. repeat constructor. lra.
  - repeat constructor; cbn [snd]; lra.
  - discriminate.
Defined.

(** C4.  Called with [T <= S + 1e-12] the solver returns [df_S] as it
    was given, whatever the root finder is: no root finding, no error. *)
Theorem solver_degenerate_call
    (brentq : (R -> R) -> R -> R -> R -> nat -> result R)
    (price pre_known_sum df_S S T : R) (future_times future_amounts : list R) :
  T <= S + 1e-12 ->
  _solve_df_T_loglinear_generic brentq price pre_known_sum df_S S T
    future_times future_amounts = Ok df_S.
Proof.
  intros H. unfold _solve_df_T_loglinear_generic.
  destruct (Rle_dec T (S + 1e-12)); [reflexivity | contradiction].
Qed.

Lemma solver_degenerate_call_witness :
  _solve_df_T_loglinear_generic (fun _ _ _ _ _ => Err SolverFailure)
    99.5 0 0.97 182 182 [182] [104] = Ok 0.97.
Proof. apply solver_degenerate_call. lra. Defined.

(* ------------------------------------------------------------------ *)
(** ** The per-date driver                                             *)
(* ------------------------------------------------------------------ *)

(** C5.  A table without a row of type overnight_rate is a no-op: every
    iteration leaves the state as it is, nothing is raised, the store keeps
    only the pillar (0, 1.0) and the output has no row. *)
Theorem no_overnight_row_noop
    (brentq : (R -> R) -> R -> R -> R -> nat -> result R) (dcc : R)
    (parse_float : string -> option R) (sort_values : frame -> frame)
    (df : frame) :
  sort_contract sort_values ->
  ~ In "overnight_rate"%string (map type df) ->
  (forall r st,
     step brentq dcc (map type (sort_values (coerce_frame parse_float df))) r st
     = Ok st) /\
  bootstrap_pillars brentq dcc parse_float sort_values df = Ok init_state /\
  bootstrap_from_curve_df brentq dcc parse_float sort_values df = Ok [].
Proof.
  intros Hsort Hno.
  destruct (bootstrap_without_overnight brentq dcc parse_float sort_values df Hsort Hno)
    as (Hno' & Hrun & Hout).
  repeat split; try assumption.
  intros r st. now apply step_skip.
Qed.

Lemma no_overnight_row_noop_witness :
  bootstrap_pillars brentq_bisect 360 parse_float_digits sort_values_stable
    [zero_coupon_row 0 182 95; zero_coupon_row 0 91 97.5] = Ok init_state /\
  bootstrap_from_curve_df brentq_bisect 360 parse_float_digits sort_values_stable
    [zero_coupon_row 0 182 95; zero_coupon_row 0 91 97.5] = Ok [].
Proof.
  apply (no_overnight_row_noop brentq_bisect 360 parse_float_digits sort_values_stable
           [zero_coupon_row 0 182 95; zero_coupon_row 0 91 97.5]).
  - exact sort_values_stable_contract.
  - cbn. intros [H | [H | []]]; discriminate.
Defined.



(** C2 as stated fails: the table holds no overnight_rate row, so its
    only row is skipped; no pillar is set at tenor 91 and the output has
    no row. *)
Lemma single_zero_coupon_counterexample :
  bootstrap_pillars brentq_bisect 360 parse_float_digits sort_values_stable
    [zero_coupon_row 0 91 97.5] = Ok init_state /\
  pillars_get 91 (st_pillars init_state) = None /\
  bootstrap_from_curve_df brentq_bisect 360 parse_float_digits sort_values_stable
    [zero_coupon_row 0 91 97.5] = Ok [].
Proof.
  destruct (bootstrap_without_overnight brentq_bisect 360 parse_float_digits
              sort_values_stable [zero_coupon_row 0 91 97.5])
    as (_ & Hrun & Hout).
  - exact sort_values_stable_contract.
  - cbn. intros [H | []]. discriminate.
  - repeat split; try assumption.
    cbn [init_state st_pillars pillars_get]. decide_R. reflexivity.
Qed.

(** The store after an overnight row at tenor 1 and a zero-coupon row at
    tenor 91 priced 97.5. *)
Lemma anchor_and_zero_coupon_store
    (brentq : (R -> R) -> R -> R -> R -> nat -> result R)
    (parse_float : string -> option R) (sort_values : frame -> frame)
    (ti ti' : Z) (r : R) (df : frame) :
  sort_contract sort_values ->
  let rate := if Rlt_dec 1 r then r / 100 else r in
  1 + rate * (1 / 360) <> 0 ->
  Permutation df [overnight_row ti 1 r; zero_coupon_row ti' 91 97.5] ->
  bootstrap_pillars brentq 360 parse_float sort_values df
  = Ok (mkState [(0, 1); (1, 1 / (1 + rate * (1 / 360))); (91, 97.5 / 10)]
                (Some (round2 (rate * 100)))).
Proof.
  intros sort_ok rate Hden Hperm.
  set (on := overnight_row ti 1 r). set (zc := zero_coupon_row ti' 91 97.5).
  assert (sort_values (coerce_frame parse_float df) = [on; zc]) as Hsort.
  { assert (List.NoDup (map row_key [on; zc])) as Hnd.
    { cbn. constructor; [|constructor; [|constructor]]; cbn; [|tauto].
      intros [H|[]]. injection H. lra. }
    rewrite <- (sort_contract_unique sort_values [on; zc]); try assumption.
    - apply sort_contract_sorted_id; try assumption.
      repeat constructor. cbn. lra.
    - apply Permutation_sym.
      apply (coerce_frame_perm parse_float) in Hperm. exact Hperm. }
  unfold bootstrap_pillars. rewrite Hsort. cbn [run_rows map].
  rewrite (step_overnight _ _ _ _ _ r);
    [| cbn; tauto | reflexivity | reflexivity | exact Hden].
  cbn [bind]. fold rate.
  rewrite (step_zero_coupon _ _ _ _ _ 97.5); [| cbn; tauto | reflexivity | reflexivity].
  cbn [bind st_pillars on_rate_pct init_state on zc overnight_row zero_coupon_row
       tenor_days num].
  eval_store. reflexivity.
Qed.

(** C2 (amended).  For a single-date table made of an overnight_rate row
    at tenor 1 (rate [r], with 1 + rate/360 non-zero) and one zero_coupon
    row with tenor_days=91 and clean_price=97.5 and no dirty price, in
    either order, the bootstrap sets DF(91) = 9.75 and the output row for
    tenor 91 has zero_rate = ((1/9.75)-1)*(360/91)*100, which is about
    -355.03. *)
Theorem zero_coupon_with_anchor
    (brentq : (R -> R) -> R -> R -> R -> nat -> result R)
    (parse_float : string -> option R) (sort_values : frame -> frame)
    (ti ti' : Z) (r : R) (df : frame) :
  sort_contract sort_values ->
  let rate := if Rlt_dec 1 r then r / 100 else r in
  1 + rate * (1 / 360) <> 0 ->
  Permutation df [overnight_row ti 1 r; zero_coupon_row ti' 91 97.5] ->
  (exists st,
     bootstrap_pillars brentq 360 parse_float sort_values df = Ok st /\
     pillars_get 91 (st_pillars st) = Some 9.75) /\
  bootstrap_from_curve_df brentq 360 parse_float sort_values df
  = Ok [(1%Z, ((1 / (1 / (1 + rate * (1 / 360)))) - 1) * (360 / 1) * 100);
        (91%Z, ((1 / 9.75) - 1) * (360 / 91) * 100)] /\
  -355.03 < ((1 / 9.75) - 1) * (360 / 91) * 100 < -355.02.
Proof.
  intros sort_ok rate Hden Hperm.
  pose proof (anchor_and_zero_coupon_store brentq parse_float sort_values ti ti' r df
                sort_ok Hden Hperm) as Hrun.
  fold rate in Hrun.
  split; [|split].
  - eexists. split; [exact Hrun|]. cbn [st_pillars]. eval_store. f_equal. lra.
  - unfold bootstrap_from_curve_df. rewrite Hrun. cbn [bind st_pillars].
    unfold zero_curve. cbn [List.filter fst snd]. unfold Rltb. decide_R.
    cbn [List.filter map fst snd].
    change 1 with (IZR 1) at 1. change 91 with (IZR 91) at 1.
    rewrite !astype_int_IZR. cbn. repeat f_equal. lra.
  - lra.
Qed.

Lemma zero_coupon_with_anchor_witness :
  (exists st,
     bootstrap_pillars brentq_bisect 360 parse_float_digits sort_values_stable
       [zero_coupon_row 0 91 97.5; overnight_row 0 1 0.105] = Ok st /\
     pillars_get 91 (st_pillars st) = Some 9.75) /\
  exists z1,
    bootstrap_from_curve_df brentq_bisect 360 parse_float_digits sort_values_stable
      [zero_coupon_row 0 91 97.5; overnight_row 0 1 0.105]
    = Ok [(1%Z, z1); (91%Z, ((1 / 9.75) - 1) * (360 / 91) * 100)].
Proof.
  destruct (zero_coupon_with_anchor brentq_bisect parse_float_digits sort_values_stable
              0 0 0.105 [zero_coupon_row 0 91 97.5; overnight_row 0 1 0.105])
    as (Hst & Hout & _).
  - exact sort_values_stable_contract.
  - destruct (Rlt_dec 1 0.105); lra.
  - apply perm_swap.
  - split; [exact Hst|]. eexists. exact Hout.
Defined.

(** C6 as stated fails: a table whose only row has the unrecognized type
    "unknown_family" holds no overnight_rate row, so the row is skipped
    and the call returns an empty output without raising. *)
Lemma unknown_type_counterexample :
  recognized (inst_type_of (unknown_family_row 0 30 99)) = false /\
  bootstrap_from_curve_df brentq_bisect 360 parse_float_digits sort_values_stable
    [unknown_family_row 0 30 99] = Ok [].
Proof.
  split; [reflexivity|].
  apply (bootstrap_without_overnight brentq_bisect 360 parse_float_digits
           sort_values_stable [unknown_family_row 0 30 99]).
  - exact sort_values_stable_contract.
  - cbn. intros [H | []]. discriminate.
Qed.

Lemma coerce_row_type (parse : string -> option R) (r : row) :
  inst_type_of (coerce_coupon parse (coerce_dirty_price parse
                  (coerce_clean_price parse (coerce_tenor_days parse r))))
  = inst_type_of r.
Proof. reflexivity. Qed.

(** C6 (amended).  For every single-date table that holds a row tagged
    "overnight_rate" and a row whose normalized type is not one of the six
    recognized values, the bootstrap raises and returns no output; the
    error is UnknownInstrumentType whenever the rows sorted before that row
    are processed without raising. *)
Theorem unknown_type_aborts
    (brentq : (R -> R) -> R -> R -> R -> nat -> result R) (dcc : R)
    (parse_float : string -> option R) (sort_values : frame -> frame)
    (df : frame) (u : row) :
  sort_contract sort_values ->
  In "overnight_rate"%string (map type df) ->
  In u df -> recognized (inst_type_of u) = false ->
  (exists e, bootstrap_from_curve_df brentq dcc parse_float sort_values df = Err e) /\
  (forall pre u' post st,
     sort_values (coerce_frame parse_float df) = pre ++ u' :: post ->
     inst_type_of u' = inst_type_of u ->
     run_rows brentq dcc (map type (sort_values (coerce_frame parse_float df)))
       pre init_state = Ok st ->
     bootstrap_from_curve_df brentq dcc parse_float sort_values df
     = Err (UnknownInstrumentType (inst_type_of u))).
Proof.
  intros [Hperm _] Hon Hu Hty.
  set (sorted := sort_values (coerce_frame parse_float df)).
  assert (In "overnight_rate"%string (map type sorted)) as Hon'.
  { eapply Permutation_in; [apply Permutation_map, Hperm|].
    now rewrite coerce_frame_types. }
  split.
  - assert (exists u', In u' sorted /\ recognized (inst_type_of u') = false)
      as (u' & Hu' & Hty').
    { eexists. split.
      - eapply Permutation_in; [apply Hperm|]. rewrite coerce_frame_map.
        apply in_map. exact Hu.
      - now rewrite coerce_row_type. }
    destruct (run_rows_unknown_fails brentq dcc (map type sorted) sorted u' init_state
                Hon' Hu' Hty') as (e & He).
    exists e. unfold bootstrap_from_curve_df, bootstrap_pillars. fold sorted.
    now rewrite He.
  - intros pre u' post st Hsplit Hty' Hpre.
    unfold bootstrap_from_curve_df, bootstrap_pillars. fold sorted. fold sorted in Hpre.
    rewrite Hsplit at 2. rewrite run_rows_app, Hpre. cbn [bind run_rows].
    rewrite step_unknown; [now rewrite Hty' | assumption | now rewrite Hty'].
Qed.

Lemma unknown_type_aborts_witness :
  bootstrap_from_curve_df brentq_bisect 360 parse_float_digits sort_values_stable
    [unknown_family_row 0 30 99; overnight_row 0 1 0.105]
  = Err (UnknownInstrumentType "unknown_family").
Proof.
  destruct (unknown_type_aborts brentq_bisect 360 parse_float_digits sort_values_stable
              [unknown_family_row 0 30 99; overnight_row 0 1 0.105]
              (unknown_family_row 0 30 99)) as (_ & Hfirst).
  - exact sort_values_stable_contract.
  - cbn. tauto.
  - now left.
  - reflexivity.
  - assert (sort_values_stable
              (coerce_frame parse_float_digits
                 [unknown_family_row 0 30 99; overnight_row 0 1 0.105])
            = [overnight_row 0 1 0.105; unknown_family_row 0 30 99]) as Hsort.
    { rewrite <- (sort_contract_unique sort_values_stable
                    [overnight_row 0 1 0.105; unknown_family_row 0 30 99]).
      - apply sort_values_stable_sorted_id. repeat constructor. cbn. lra.
      - exact sort_values_stable_contract.
      - cbn. constructor; [|constructor; [|constructor]]; cbn; [|tauto].
        intros [H|[]]. injection H. lra.
      - apply perm_swap. }
    apply (Hfirst [overnight_row 0 1 0.105] (unknown_family_row 0 30 99) []
             (mkState (pillars_set 1 (1 / (1 + 0.105 * (1 / 360))) [(0, 1)])
                      (Some (round2 (0.105 * 100))))).
    + exact Hsort.
    + reflexivity.
    + rewrite Hsort. cbn [run_rows map].
      rewrite (step_overnight _ _ _ _ _ 0.105);
        [| cbn; tauto | reflexivity | reflexivity | destruct (Rlt_dec 1 0.105); lra].
      destruct (Rlt_dec 1 0.105); [lra | reflexivity].
Defined.

(** ** Capping against the previous last pillar *)

Lemma cap_df_bounds (x y : R) :
  1e-12 <= cap_df x y /\ (1e-12 <= y -> cap_df x y <= y).
Proof.
  unfold cap_df. split; [apply Rmax_l|].
  intros Hy. apply Rmax_lub; [exact Hy | apply Rmin_r].
Qed.

(** At the last pillar the curve function returns the stored value. *)
Lemma curve_at_max_key (p : pillars) (df : R -> R) (s d : R) :
  keys_ascending p -> _build_loglinear_df_func p = Ok df ->
  max_key p = Ok s -> pillars_get s p = Some d -> df s = d.
Proof.
  intros Hasc Hb Hs Hd.
  destruct (build_ok_inv p df Hb) as (Hpos & Hne & ->).
  destruct (max_key_get p s Hasc Hs) as (d' & Hd' & Hnth & Hkey & _).
  assert (d' = d) as -> by congruence.
  assert (map fst p <> []) as Hxs by (destruct p; [contradiction | discriminate]).
  rewrite loglinear_df_right; [| exact Hasc | exact Hxs | rewrite length_map, Hkey; lra].
  rewrite !length_map.
  destruct (Nat.eqb (length p) 1) eqn:En.
  - apply Nat.eqb_eq in En. rewrite En in Hnth. exact Hnth.
  - rewrite Hkey. replace (s - s) with 0 by lra. rewrite Rmult_0_r, Rplus_0_r.
    assert (length p - 1 < length (map snd p))%nat as Hlt.
    { rewrite length_map. destruct p; [contradiction | cbn [length]; lia]. }
    rewrite (nth_indep _ 0 (ln 0)) by (now rewrite length_map).
    rewrite map_nth, Hnth. apply exp_ln.
    unfold all_positive in Hpos. rewrite List.Forall_forall in Hpos.
    assert (In d (map snd p)) as Hin by (rewrite <- Hnth; now apply nth_In).
    apply in_map_iff in Hin as (td & <- & Hin). now apply Hpos.
Qed.

Section CapFacts.
Variable brentq : (R -> R) -> R -> R -> R -> nat -> result R.
Variable dcc : R.

Lemma fixed_bond_df_capped (r : row) (T v : R) (p : pillars) :
  fixed_bond_df brentq dcc r T p = Ok v ->
  exists df_func s x,
    _build_loglinear_df_func p = Ok df_func /\ max_key p = Ok s /\
    v = cap_df x (df_func s).
Proof.
  unfold fixed_bond_df.
  destruct (_pick_price r) as [price|]; cbn [bind]; [|discriminate].
  destruct (_build_loglinear_df_func p) as [df_func|]; cbn [bind]; [|discriminate].
  destruct (max_key p) as [s|]; cbn [bind]; [|discriminate].
  match goal with |- bind ?m _ = _ -> _ => destruct m as [x|] end;
    cbn [bind]; [|discriminate].
  intros [= <-]. now exists df_func, s, x.
Qed.

Lemma frn_df_capped (r : row) (T r_pct : R) (k : Z) (d rem C1 C v : R)
    (p : pillars) :
  frn_df brentq r T r_pct k d rem C1 C p = Ok v ->
  exists df_func s x,
    _build_loglinear_df_func p = Ok df_func /\ max_key p = Ok s /\
    v = cap_df x (df_func s).
Proof.
  unfold frn_df.
  match goal with |- bind ?m _ = _ -> _ => destruct m as [price|] end;
    cbn [bind]; [|discriminate].
  destruct (_build_loglinear_df_func p) as [df_func|]; cbn [bind]; [|discriminate].
  destruct (max_key p) as [s|]; cbn [bind]; [|discriminate].
  destruct (partition_flows _ _ _) as [pre_known_sum future].
  match goal with |- bind ?m _ = _ -> _ => destruct m as [x|] end;
    cbn [bind]; [|discriminate].
  intros [= <-]. now exists df_func, s, x.
Qed.
End CapFacts.

(** Writing, at a tenor not below any stored one, a value not above the
    last stored discount factor keeps the store non-increasing. *)
Lemma pillars_set_monotone (p : pillars) (T v s d : R) :
  keys_ascending p -> df_monotone p ->
  max_key p = Ok s -> pillars_get s p = Some d -> v <= d ->
  (forall t e, pillars_get t p = Some e -> t <= T) ->
  df_monotone (pillars_set T v p).
Proof.
  intros Hasc Hmono Hs Hd Hv Hkeys t1 t2 d1 d2.
  destruct (max_key_get p s Hasc Hs) as (_ & _ & _ & _ & Hmax).
  rewrite !pillars_get_set.
  destruct (Req_dec_T t2 T) as [-> | Hne2]; destruct (Req_dec_T t1 T) as [-> | Hne1];
    intros H1 H2 Hlt; try lra.
  - injection H2 as <-.
    destruct (Rle_lt_or_eq_dec t1 s (Hmax _ _ H1)) as [Hlt' | ->].
    + pose proof (Hmono t1 s d1 d H1 Hd Hlt'). lra.
    + assert (d1 = d) by congruence. lra.
  - pose proof (Hkeys _ _ H2). lra.
  - now apply (Hmono t1 t2).
Qed.

Lemma store_inv_capped_write (p : pillars) (T v s d : R) :
  store_inv T p -> max_key p = Ok s -> pillars_get s p = Some d ->
  1e-12 <= v <= d -> store_inv T (pillars_set T v p).
Proof.
  intros (Hasc & Hmono & Hfloor) Hs Hd [Hv1 Hv2]. repeat split.
  - now apply pillars_set_keys_ascending.
  - apply (pillars_set_monotone p T v s d); try assumption.
    intros t e H. now apply (Hfloor t e).
  - rewrite pillars_get_set in H. destruct (Req_dec_T t T); [lra|].
    now apply (Hfloor t d0).
  - rewrite pillars_get_set in H. destruct (Req_dec_T t T) as [->|].
    + injection H as <-. exact Hv1.
    + now apply (Hfloor t d0).
Qed.

Lemma is_frn_cases (s : string) :
  is_frn s = true ->
  s = "floating_bondes_d"%string \/ s = "floating_bondes_f"%string
  \/ s = "floating_bondes_g"%string.
Proof.
  unfold is_frn. rewrite !orb_true_iff, !String.eqb_eq. tauto.
Qed.

(** C1 as stated fails: zero_coupon (and overnight_rate) rows write their
    pillar without a cap.  After the overnight row at tenor 1 (rate 0.105)
    and the zero-coupon row at tenor 91 priced 97.5, DF(91) = 9.75 exceeds
    DF(1). *)
Lemma store_monotone_counterexample :
  exists st,
    bootstrap_pillars brentq_bisect 360 parse_float_digits sort_values_stable
      [overnight_row 0 1 0.105; zero_coupon_row 0 91 97.5] = Ok st /\
    ~ df_monotone (st_pillars st).
Proof.
  eexists. split.
  - apply (anchor_and_zero_coupon_store brentq_bisect parse_float_digits
             sort_values_stable 0 0 0.105).
    + exact sort_values_stable_contract.
    + destruct (Rlt_dec 1 0.105); lra.
    + reflexivity.
  - cbn [st_pillars]. intros Hmono.
    specialize (Hmono 1 91 (1 / (1 + 0.105 * (1 / 360))) (97.5 / 10)).
    destruct (Rlt_dec 1 0.105) as [|_]; [lra|].
    assert (97.5 / 10 <= 1 / (1 + 0.105 * (1 / 360))) as H.
    { apply Hmono; [| | lra]; eval_store; reflexivity. }
    lra.
Qed.

(** C1 (amended).  When a fixed_bond or floating_bondes row of tenor [T]
    is processed on a store whose keys are at most [T], whose discount
    factors are non-increasing in tenor and at least 1e-12, the store it
    leaves has the same three properties: the value written at [T] is
    capped at the discount factor of the previous last pillar.
    (overnight_rate and zero_coupon rows write 1/(1+rate/360) and price/10
    without a cap.) *)
Theorem capped_rows_keep_store_monotone
    (brentq : (R -> R) -> R -> R -> R -> nat -> result R) (dcc : R)
    (types : list string) (r : row) (st st' : state) (T : R) :
  inst_type_of r = "fixed_bond"%string \/ is_frn (inst_type_of r) = true ->
  tenor_days r = CNum T ->
  store_inv T (st_pillars st) ->
  step brentq dcc types r st = Ok st' ->
  store_inv T (st_pillars st').
Proof.
  intros Hty HT Hinv. unfold step. rewrite HT. cbn [num].
  destruct (negb _); [now intros [= <-]|].
  assert (forall v df_func s x,
            _build_loglinear_df_func (st_pillars st) = Ok df_func ->
            max_key (st_pillars st) = Ok s -> v = cap_df x (df_func s) ->
            store_inv T (pillars_set T v (st_pillars st))) as Hcap.
  { intros v df_func s x Hb Hs ->. destruct Hinv as (Hasc & Hmono & Hfloor).
    destruct (max_key_get _ s Hasc Hs) as (d & Hd & _).
    rewrite (curve_at_max_key _ df_func s d Hasc Hb Hs Hd).
    apply (store_inv_capped_write _ T _ s d); try assumption; [exact (conj Hasc (conj Hmono Hfloor))|].
    destruct (Hfloor s d Hd) as [_ Hd12].
    destruct (cap_df_bounds x d) as [H1 H2]. split; [exact H1 | now apply H2]. }
  destruct Hty as [Hty | Hty].
  - rewrite Hty. cbn [String.eqb Ascii.eqb Bool.eqb andb].
    destruct (fixed_bond_df brentq dcc r T (st_pillars st)) as [v|] eqn:Ev;
      cbn [bind]; [|discriminate].
    intros [= <-]. cbn [st_pillars].
    destruct (fixed_bond_df_capped brentq dcc r T v _ Ev) as (df_func & s & x & Hb & Hs & Hv).
    now apply (Hcap v df_func s x).
  - rewrite Hty.
    assert (String.eqb (inst_type_of r) "overnight_rate" = false
            /\ String.eqb (inst_type_of r) "zero_coupon" = false
            /\ String.eqb (inst_type_of r) "fixed_bond" = false) as (E1 & E2 & E3)
      by (destruct (is_frn_cases _ Hty) as [-> | [-> | ->]]; repeat split; reflexivity).
    rewrite E1, E2, E3.
    destruct (_ensure_on_rate_pct dcc st) as [[r_pct st1]|] eqn:Een; cbn [bind];
      [|discriminate].
    assert (st_pillars st1 = st_pillars st) as Hsame.
    { unfold _ensure_on_rate_pct in Een. destruct (on_rate_pct st).
      - now injection Een as _ <-.
      - destruct (pillars_get 1 (st_pillars st)); [|discriminate].
        destruct (Req_dec_T _ 0); [discriminate|]. now injection Een as _ <-. }
    destruct (_frn_28day_coupon_params T r_pct _) as [[[[k d] rem] C1] C].
    destruct (k <=? 0)%Z.
    + destruct (max_key (st_pillars st)) as [s|] eqn:Es; cbn [bind]; [|discriminate].
      destruct (pillars_get s (st_pillars st)) as [v|] eqn:Ev; [|discriminate].
      intros [= <-]. cbn [st_pillars].
      apply (store_inv_capped_write _ T v s v); try assumption.
      destruct Hinv as (_ & _ & Hfloor). destruct (Hfloor s v Ev). lra.
    + destruct (frn_df brentq r T r_pct k d rem C1 C (st_pillars st)) as [v|] eqn:Ev;
        cbn [bind]; [|discriminate].
      intros [= <-]. cbn [st_pillars].
      destruct (frn_df_capped brentq r T r_pct k d rem C1 C v _ Ev)
        as (df_func & s & x & Hb & Hs & Hv).
      now apply (Hcap v df_func s x).
Qed.

Lemma last_opt_snoc {A : Type} (l : list A) (a : A) : last_opt (l ++ [a]) = Some a.
Proof.
  unfold last_opt. destruct (l ++ [a]) as [|b l'] eqn:E.
  - now destruct l.
  - rewrite <- E. f_equal. apply last_last.
Qed.

(** With a root finder that returns whenever the bracket has a sign
    change, the solver returns on every schedule that ends with a cash
    flow. *)
Lemma solver_returns (price pre_known_sum df_S S T : R) (future : list (R * R))
    (ta : R * R) :
  exists v,
    _solve_df_T_loglinear_generic brentq_bisect price pre_known_sum df_S S T
      (map fst (future ++ [ta])) (map snd (future ++ [ta])) = Ok v.
Proof.
  unfold _solve_df_T_loglinear_generic, brentq_bisect.
  destruct (Rle_dec T (S + 1e-12)); [eexists; reflexivity|].
  destruct (Rlt_dec 0 _).
  - rewrite !map_app. cbn [map]. rewrite last_opt_snoc. eexists. reflexivity.
  - eexists. reflexivity.
Qed.

(** The fixed-bond branch returns on a priced row with a numeric coupon
    and a valid, non-empty store. *)
Lemma fixed_bond_df_returns (dcc : R) (r : row) (T price cpn : R) (p : pillars) :
  _pick_price r = Ok price -> num (coupon r) = Some cpn ->
  all_positive p -> p <> [] ->
  exists v, fixed_bond_df brentq_bisect dcc r T p = Ok v.
Proof.
  intros Hprice Hcpn Hpos Hne. unfold fixed_bond_df.
  rewrite Hprice, Hcpn, build_ok by assumption. cbn [bind].
  assert (exists s, max_key p = Ok s) as [s ->].
  { unfold max_key, last_opt. destruct p; [contradiction|]. eexists. reflexivity. }
  cbn [bind].
  destruct (Rle_dec T (s + 1e-12)); cbn [bind]; [eexists; reflexivity|].
  destruct (partition_flows _ _ _) as [pre_known_sum future].
  match goal with
  | |- context [_solve_df_T_loglinear_generic _ ?a ?b ?c ?d ?e (map fst (?f ++ [?ta])) _] =>
      destruct (solver_returns a b c d e f ta) as [v ->]
  end.
  cbn [bind]. eexists. reflexivity.
Qed.

Ltac solve_store_inv :=
  unfold store_inv, keys_ascending, df_monotone;
  split; [cbn [map fst]; repeat constructor; lra|];
  split; [intros t1 t2 d1 d2 | intros t d];
  cbn [pillars_get]; decide_R; intros; subst;
  repeat match goal with
         | H : None = Some _ |- _ => discriminate H
         | H : Some _ = Some _ |- _ => injection H as <-
         end;
  try lra.

Lemma capped_rows_keep_store_monotone_witness :
  exists st',
    step brentq_bisect 360 ["overnight_rate"%string] (fixed_bond_row 0 364 100 8)
      (mkState [(0, 1); (1, 0.9997)] (Some 10.5)) = Ok st' /\
    store_inv 364 (st_pillars st').
Proof.
  destruct (fixed_bond_df_returns 360 (fixed_bond_row 0 364 100 8) 364 100 8
              [(0, 1); (1, 0.9997)]) as [v Hv].
  - reflexivity.
  - reflexivity.
  - repeat constructor; cbn [snd]; lra.
  - discriminate.
  - assert (step brentq_bisect 360 ["overnight_rate"%string] (fixed_bond_row 0 364 100 8)
              (mkState [(0, 1); (1, 0.9997)] (Some 10.5))
            = Ok (mkState (pillars_set 364 v [(0, 1); (1, 0.9997)]) (Some 10.5))) as Hstep.
    { unfold step.
      change (inst_type_of (fixed_bond_row 0 364 100 8)) with "fixed_bond"%string.
      cbn [existsb String.eqb Ascii.eqb Bool.eqb andb orb negb fixed_bond_row tenor_days
           num st_pillars on_rate_pct].
      rewrite Hv. reflexivity. }
    eexists. split; [exact Hstep|].
    apply (capped_rows_keep_store_monotone brentq_bisect 360 ["overnight_rate"%string]
             (fixed_bond_row 0 364 100 8) (mkState [(0, 1); (1, 0.9997)] (Some 10.5))
             _ 364).
    + left. reflexivity.
    + reflexivity.
    + cbn [st_pillars]. solve_store_inv.
    + exact Hstep.
Defined.

(* ------------------------------------------------------------------ *)
(** ** Input order                                                     *)
(* ------------------------------------------------------------------ *)

(** The run on an overnight row at tenor 1 followed by two zero-coupon
    rows that share the tenor 91: the second one overwrites the pillar. *)
Lemma anchor_and_tied_zero_coupons (a b : R) :
  bootstrap_from_curve_df brentq_bisect 360 parse_float_digits sort_values_stable
    [overnight_row 0 1 0.105; zero_coupon_row 0 91 a; zero_coupon_row 0 91 b]
  = Ok [(1%Z, ((1 / (1 / (1 + 0.105 * (1 / 360)))) - 1) * (360 / 1) * 100);
        (91%Z, ((1 / (b / 10)) - 1) * (360 / 91) * 100)].
Proof.
  unfold bootstrap_from_curve_df, bootstrap_pillars.
  change (coerce_frame parse_float_digits
            [overnight_row 0 1 0.105; zero_coupon_row 0 91 a; zero_coupon_row 0 91 b])
    with [overnight_row 0 1 0.105; zero_coupon_row 0 91 a; zero_coupon_row 0 91 b].
  rewrite sort_values_stable_sorted_id by (repeat constructor; cbn; lra).
  cbn [run_rows map].
  rewrite (step_overnight _ _ _ _ _ 0.105);
    [| cbn; tauto | reflexivity | reflexivity | destruct (Rlt_dec 1 0.105); lra].
  destruct (Rlt_dec 1 0.105) as [|_]; [lra|]. cbn [bind].
  rewrite (step_zero_coupon _ _ _ _ _ a); [| cbn; tauto | reflexivity | reflexivity].
  cbn [bind].
  rewrite (step_zero_coupon _ _ _ _ _ b); [| cbn; tauto | reflexivity | reflexivity].
  cbn [bind st_pillars on_rate_pct init_state overnight_row zero_coupon_row
       tenor_days num].
  eval_store.
  unfold zero_curve. cbn [List.filter fst snd]. unfold Rltb. decide_R.
  cbn [List.filter map fst snd].
  change 1 with (IZR 1) at 1. change 91 with (IZR 91) at 1.
  rewrite !astype_int_IZR. reflexivity.
Qed.

(** C9 as stated fails when two rows share a tenor: both tables below hold
    the same rows and both are sorted by tenor, yet with a sort that keeps
    tied rows in input order the later of the two tenor-91 rows overwrites
    the pillar, so the outputs differ. *)
Lemma input_order_counterexample :
  Permutation
    [overnight_row 0 1 0.105; zero_coupon_row 0 91 97.5; zero_coupon_row 0 91 98]
    [overnight_row 0 1 0.105; zero_coupon_row 0 91 98; zero_coupon_row 0 91 97.5] /\
  StronglySorted row_le
    [overnight_row 0 1 0.105; zero_coupon_row 0 91 97.5; zero_coupon_row 0 91 98] /\
  StronglySorted row_le
    [overnight_row 0 1 0.105; zero_coupon_row 0 91 98; zero_coupon_row 0 91 97.5] /\
  bootstrap_from_curve_df brentq_bisect 360 parse_float_digits sort_values_stable
    [overnight_row 0 1 0.105; zero_coupon_row 0 91 97.5; zero_coupon_row 0 91 98]
  <>
  bootstrap_from_curve_df brentq_bisect 360 parse_float_digits sort_values_stable
    [overnight_row 0 1 0.105; zero_coupon_row 0 91 98; zero_coupon_row 0 91 97.5].
Proof.
  split; [apply perm_skip, perm_swap|].
  split; [repeat constructor; cbn; lra|].
  split; [repeat constructor; cbn; lra|].
  rewrite !anchor_and_tied_zero_coupons. intros H.
  injection H as H. lra.
Qed.

(** C9 (amended).  For every single-date table in which no two rows share
    a tenor (after numeric coercion), feeding the rows in any order yields
    the same result, whatever sort meeting the contract the driver uses:
    the sorted table the loop iterates over is the same. *)
Theorem input_order_irrelevant
    (brentq : (R -> R) -> R -> R -> R -> nat -> result R) (dcc : R)
    (parse_float : string -> option R) (sort_values : frame -> frame)
    (l1 l2 : frame) :
  sort_contract sort_values ->
  Permutation l1 l2 ->
  List.NoDup (map row_key (coerce_frame parse_float l1)) ->
  sort_values (coerce_frame parse_float l1) = sort_values (coerce_frame parse_float l2) /\
  bootstrap_from_curve_df brentq dcc parse_float sort_values l1
  = bootstrap_from_curve_df brentq dcc parse_float sort_values l2.
Proof.
  intros Hsort Hperm Hnd.
  assert (sort_values (coerce_frame parse_float l1)
          = sort_values (coerce_frame parse_float l2)) as Heq
    by (apply sort_contract_unique; [assumption | assumption | now apply coerce_frame_perm]).
  split; [exact Heq|].
  unfold bootstrap_from_curve_df, bootstrap_pillars. now rewrite Heq.
Qed.

Lemma input_order_irrelevant_witness :
  bootstrap_from_curve_df brentq_bisect 360 parse_float_digits sort_values_stable
    [zero_coupon_row 0 91 9.75; overnight_row 0 1 0.105]
  = bootstrap_from_curve_df brentq_bisect 360 parse_float_digits sort_values_stable
      [overnight_row 0 1 0.105; zero_coupon_row 0 91 9.75].
Proof.
  apply (input_order_irrelevant brentq_bisect 360 parse_float_digits sort_values_stable
           [zero_coupon_row 0 91 9.75; overnight_row 0 1 0.105]
           [overnight_row 0 1 0.105; zero_coupon_row 0 91 9.75]).
  - exact sort_values_stable_contract.
  - apply perm_swap.
  - cbn. constructor; [|constructor; [|constructor]]; cbn; [|tauto].
    intros [H|[]]. injection H. lra.
Defined.

(* ------------------------------------------------------------------ *)
(** ** Frame effect                                                    *)
(* ------------------------------------------------------------------ *)

Lemma new_object_fresh (h : gmap nat frame) (f : frame) (l : nat) (g : frame) :
  h !! l = Some g -> (new_object h f).2 !! l = Some g /\ (new_object h f).1 <> l.
Proof.
  intros Hl. unfold new_object. cbn [fst snd].
  assert (fresh (dom h) <> l) as Hne.
  { intros Heq. apply (is_fresh (dom h)). rewrite Heq. now apply elem_of_dom_2 in Hl. }
  split; [|exact Hne]. now rewrite lookup_insert_ne.
Qed.

Lemma assign_column_other (upd : row -> row) (l l' : nat) (h : gmap nat frame) :
  l <> l' -> assign_column upd l h !! l' = h !! l'.
Proof. intros Hne. unfold assign_column. now rewrite lookup_insert_ne. Qed.

Lemma assign_column_same (upd : row -> row) (l : nat) (h : gmap nat frame) :
  frame_of (assign_column upd l h) l = map upd (frame_of h l).
Proof. unfold assign_column, frame_of at 1. now rewrite lookup_insert_eq. Qed.

(** C10.  The call leaves the caller's DataFrame, and every other object
    that existed before the call, with the rows it had: the coercions are
    assigned to the copy and the sort makes a new object.  The value
    returned is the one [bootstrap_from_curve_df] gives for the rows of
    the argument. *)
Theorem caller_frame_unchanged
    (brentq : (R -> R) -> R -> R -> R -> nat -> result R) (dcc : R)
    (parse_float : string -> option R) (sort_values : frame -> frame)
    (h : gmap nat frame) (curve_df : nat) (f : frame) :
  h !! curve_df = Some f ->
  let out := call_bootstrap_from_curve_df brentq dcc parse_float sort_values curve_df h in
  out.1 !! curve_df = Some f /\
  (forall l g, h !! l = Some g -> out.1 !! l = Some g) /\
  out.2 = bootstrap_from_curve_df brentq dcc parse_float sort_values f.
Proof.
  intros Hf. unfold call_bootstrap_from_curve_df.
  destruct (new_object h (frame_of h curve_df)) as [df h1] eqn:E1.
  set (h2 := assign_column (coerce_tenor_days parse_float) df h1).
  set (h3 := assign_column (coerce_clean_price parse_float) df h2).
  set (h4 := assign_column (coerce_dirty_price parse_float) df h3).
  set (h5 := assign_column (coerce_coupon parse_float) df h4).
  destruct (new_object h5 (sort_values (frame_of h5 df))) as [df' h6] eqn:E2.
  cbn [fst snd].
  assert (forall l g, h !! l = Some g -> h6 !! l = Some g) as Hkeep.
  { intros l g Hl.
    destruct (new_object_fresh h (frame_of h curve_df) l g Hl) as [H1 Hne].
    rewrite E1 in H1, Hne. cbn [fst snd] in H1, Hne.
    assert (h5 !! l = Some g) as H5.
    { unfold h5, h4, h3, h2. now rewrite !assign_column_other. }
    destruct (new_object_fresh h5 (sort_values (frame_of h5 df)) l g H5) as [H6 _].
    now rewrite E2 in H6. }
  split; [now apply Hkeep|]. split; [exact Hkeep|].
  assert (frame_of h1 df = f) as Hcopy.
  { unfold new_object in E1. injection E1 as <- <-.
    unfold frame_of. now rewrite lookup_insert_eq, Hf. }
  assert (frame_of h5 df = coerce_frame parse_float f) as Hco.
  { unfold h5, h4, h3, h2. rewrite !assign_column_same, Hcopy. reflexivity. }
  assert (frame_of h6 df' = sort_values (coerce_frame parse_float f)) as Hsorted.
  { unfold new_object in E2. injection E2 as <- <-.
    unfold frame_of at 1. now rewrite lookup_insert_eq, Hco. }
  rewrite Hsorted. reflexivity.
Qed.

Lemma caller_frame_unchanged_witness :
  (call_bootstrap_from_curve_df brentq_bisect 360 parse_float_digits sort_values_stable
     0%nat
     {[ 0%nat := [mkRow 0 "zero_coupon" (CText "91") (CNum 97.5) CNaN CNaN] ]}).1
    !! 0%nat
  = Some [mkRow 0 "zero_coupon" (CText "91") (CNum 97.5) CNaN CNaN].
Proof.
  apply (caller_frame_unchanged brentq_bisect 360 parse_float_digits sort_values_stable
           {[ 0%nat := [mkRow 0 "zero_coupon" (CText "91") (CNum 97.5) CNaN CNaN] ]}
           0%nat).
  apply lookup_singleton_eq.
Defined.

(** The copy the driver works on does change: the text cell "91" of the
    argument is a number in the table the loop iterates over. *)
Lemma coerced_copy_differs :
  coerce_frame parse_float_digits
    [mkRow 0 "zero_coupon" (CText "91") (CNum 97.5) CNaN CNaN]
  = [mkRow 0 "zero_coupon" (CNum 91) (CNum 97.5) CNaN CNaN].
Proof. reflexivity. Qed.

(* ------------------------------------------------------------------ *)
(** ** Time-series wrappers                                            *)
(* ------------------------------------------------------------------ *)

(** The guard of [rates_to_curves.py]: a date group with fewer than five
    rows is passed over before anything is computed for it. *)
Lemma rates_to_curves_guard
    (brentq : (R -> R) -> R -> R -> R -> nat -> result R)
    (parse_float : string -> option R) (sort_values : frame -> frame)
    (ti : Z) (g : list rates_to_curves.node_row)
    (rest : list (Z * list rates_to_curves.node_row)) :
  (length g < 5)%nat ->
  rates_to_curves.per_date brentq parse_float sort_values ((ti, g) :: rest)
  = rates_to_curves.per_date brentq parse_float sort_values rest.
Proof.
  intros Hlen. cbn [rates_to_curves.per_date].
  apply Nat.ltb_lt in Hlen. now rewrite Hlen.
Qed.

Lemma rates_to_curves_four_rows_skipped :
  rates_to_curves.boostrap_mbono_curve brentq_bisect parse_float_digits
    sort_values_stable "MBONOS_OTR" four_node_group = Ok [].
Proof.
  unfold rates_to_curves.boostrap_mbono_curve.
  change (groupby rates_to_curves.node_time_index four_node_group)
    with [(1%Z, four_node_group)].
  rewrite rates_to_curves_guard by (cbn; lia). reflexivity.
Qed.

Lemma four_row_group_curve :
  bootstrap_from_curve_df brentq_bisect 360 parse_float_digits sort_values_stable
    four_row_group
  = Ok [(1%Z, ((1 / (1 / (1 + 0.105 * (1 / 360)))) - 1) * (360 / 1) * 100);
        (28%Z, ((1 / (9.92 / 10)) - 1) * (360 / 28) * 100);
        (91%Z, ((1 / (9.75 / 10)) - 1) * (360 / 91) * 100);
        (182%Z, ((1 / (9.5 / 10)) - 1) * (360 / 182) * 100)].
Proof.
  unfold bootstrap_from_curve_df, bootstrap_pillars.
  change (coerce_frame parse_float_digits four_row_group) with four_row_group.
  rewrite sort_values_stable_sorted_id by (repeat constructor; cbn; lra).
  unfold four_row_group. cbn [run_rows map].
  rewrite (step_overnight _ _ _ _ _ 0.105);
    [| cbn; tauto | reflexivity | reflexivity | destruct (Rlt_dec 1 0.105); lra].
  destruct (Rlt_dec 1 0.105) as [|_]; [lra|]. cbn [bind].
  rewrite (step_zero_coupon _ _ _ _ _ 9.92); [| cbn; tauto | reflexivity | reflexivity].
  cbn [bind].
  rewrite (step_zero_coupon _ _ _ _ _ 9.75); [| cbn; tauto | reflexivity | reflexivity].
  cbn [bind].
  rewrite (step_zero_coupon _ _ _ _ _ 9.5); [| cbn; tauto | reflexivity | reflexivity].
  cbn [bind st_pillars on_rate_pct init_state overnight_row zero_coupon_row
       tenor_days num].
  eval_store.
  unfold zero_curve. cbn [List.filter fst snd]. unfold Rltb. decide_R.
  cbn [List.filter map fst snd].
  change 1 with (IZR 1) at 1. change 28 with (IZR 28) at 1.
  change 91 with (IZR 91) at 1. change 182 with (IZR 182) at 1.
  rewrite !astype_int_IZR. reflexivity.
Qed.


(* ------------------------------------------------------------------ *)
(** ** What one row may change                                         *)
(* ------------------------------------------------------------------ *)

Section RowEffects.
Variable brentq : (R -> R) -> R -> R -> R -> nat -> result R.
Variable dcc : R.

Lemma ensure_on_rate_pct_keeps_pillars (st st1 : state) (r_pct : R) :
  _ensure_on_rate_pct dcc st = Ok (r_pct, st1) ->
  st_pillars st1 = st_pillars st /\ on_rate_pct st1 = Some r_pct.
Proof.
  unfold _ensure_on_rate_pct. destruct (on_rate_pct st) as [c|] eqn:Ec.
  - intros [= <- <-]. now split.
  - destruct (pillars_get 1 (st_pillars st)); [|discriminate].
    destruct (Req_dec_T _ 0); [discriminate|]. intros [= <- <-]. now split.
Qed.

(** A row that is processed either leaves the store as it is or writes
    one value, at its own tenor. *)
Lemma step_writes_own_tenor (types : list string) (r : row) (st st' : state) :
  step brentq dcc types r st = Ok st' ->
  st_pillars st' = st_pillars st \/
  exists T v, row_key r = Some T /\ st_pillars st' = pillars_set T v (st_pillars st).
Proof.
  unfold step, row_key.
  destruct (negb _); [intros [= <-]; now left|].
  destruct (String.eqb (inst_type_of r) "overnight_rate").
  { destruct (num (dirty_price r)) as [rate|]; [|discriminate].
    destruct (Req_dec_T _ 0); [discriminate|]. intros [= <-]. cbn [st_pillars].
    destruct (num (tenor_days r)) as [T|]; cbn [pillars_set_opt]; [right | now left].
    eexists _, _. now split. }
  destruct (String.eqb (inst_type_of r) "zero_coupon").
  { destruct (_pick_price r) as [price|]; cbn [bind]; [|discriminate].
    intros [= <-]. cbn [st_pillars].
    destruct (num (tenor_days r)) as [T|]; cbn [pillars_set_opt]; [right | now left].
    eexists _, _. now split. }
  destruct (String.eqb (inst_type_of r) "fixed_bond").
  { destruct (num (tenor_days r)) as [T|].
    - destruct (fixed_bond_df brentq dcc r T (st_pillars st)) as [v|]; cbn [bind];
        [|discriminate].
      intros [= <-]. right. eexists _, _. now split.
    - destruct (_pick_price r); discriminate. }
  destruct (is_frn (inst_type_of r)); [|discriminate].
  destruct (_ensure_on_rate_pct dcc st) as [[r_pct st1]|] eqn:Een; cbn [bind];
    [|discriminate].
  destruct (ensure_on_rate_pct_keeps_pillars st st1 r_pct Een) as [Hsame _].
  destruct (num (tenor_days r)) as [T|]; [|intros [= <-]; now left].
  destruct (_frn_28day_coupon_params T r_pct _) as [[[[k d] rem] C1] C].
  destruct (k <=? 0)%Z.
  - destruct (max_key (st_pillars st)) as [s|]; cbn [bind]; [|discriminate].
    destruct (pillars_get s (st_pillars st)) as [v|]; [|discriminate].
    intros [= <-]. right. eexists _, _. now split.
  - destruct (frn_df brentq r T r_pct k d rem C1 C (st_pillars st)) as [v|]; cbn [bind];
      [|discriminate].
    intros [= <-]. right. eexists _, _. now split.
Qed.

(** The cached overnight rate is never cleared. *)
Lemma step_keeps_cache (types : list string) (r : row) (st st' : state) :
  step brentq dcc types r st = Ok st' ->
  on_rate_pct st <> None -> on_rate_pct st' <> None.
Proof.
  unfold step.
  destruct (negb _); [now intros [= <-]|].
  destruct (String.eqb (inst_type_of r) "overnight_rate").
  { destruct (num (dirty_price r)) as [rate|]; [|discriminate].
    destruct (Req_dec_T _ 0); [discriminate|]. intros [= <-]. discriminate. }
  destruct (String.eqb (inst_type_of r) "zero_coupon").
  { destruct (_pick_price r) as [price|]; cbn [bind]; [|discriminate].
    now intros [= <-]. }
  destruct (String.eqb (inst_type_of r) "fixed_bond").
  { destruct (num (tenor_days r)) as [T|].
    - destruct (fixed_bond_df brentq dcc r T (st_pillars st)) as [v|]; cbn [bind];
        [|discriminate].
      now intros [= <-].
    - destruct (_pick_price r); discriminate. }
  destruct (is_frn (inst_type_of r)); [|discriminate].
  destruct (_ensure_on_rate_pct dcc st) as [[r_pct st1]|] eqn:Een; cbn [bind];
    [|discriminate].
  destruct (ensure_on_rate_pct_keeps_pillars st st1 r_pct Een) as [_ Hc].
  intros H _. revert H.
  destruct (num (tenor_days r)) as [T|]; [|intros [= <-]; congruence].
  destruct (_frn_28day_coupon_params T r_pct _) as [[[[k d] rem] C1] C].
  destruct (k <=? 0)%Z.
  - destruct (max_key (st_pillars st)) as [s|]; cbn [bind]; [|discriminate].
    destruct (pillars_get s (st_pillars st)) as [v|]; [|discriminate].
    intros [= <-]. cbn [on_rate_pct]. congruence.
  - destruct (frn_df brentq r T r_pct k d rem C1 C (st_pillars st)) as [v|]; cbn [bind];
      [|discriminate].
    intros [= <-]. cbn [on_rate_pct]. congruence.
Qed.

(** What a run does to the store, row by row. *)
Lemma run_rows_store_facts (types : list string) (rows : list row)
    (st st' : state) :
  run_rows brentq dcc types rows st = Ok st' ->
  (keys_ascending (st_pillars st) -> keys_ascending (st_pillars st')) /\
  (forall t, pillars_get t (st_pillars st) <> None ->
             pillars_get t (st_pillars st') <> None) /\
  (forall t, ~ In (Some t) (map row_key rows) ->
             pillars_get t (st_pillars st') = pillars_get t (st_pillars st)) /\
  (forall t, pillars_get t (st_pillars st') <> None ->
             pillars_get t (st_pillars st) <> None \/ In (Some t) (map row_key rows)).
Proof.
  revert st. induction rows as [|r rows IH]; intros st; cbn [run_rows].
  - intros [= <-]. repeat split; auto.
  - destruct (step brentq dcc types r st) as [st1|] eqn:Es; cbn [bind]; [|discriminate].
    intros Hrun. destruct (IH st1 Hrun) as (Ha & Hk & Hf & Ho).
    destruct (step_writes_own_tenor types r st st1 Es) as [Hsame | (T & v & HT & Hset)].
    + rewrite Hsame in *. repeat split.
      * exact Ha.
      * exact Hk.
      * intros t Ht. apply Hf. intros Hin. apply Ht. now right.
      * intros t Ht. destruct (Ho t Ht); [now left | right; now right].
    + rewrite Hset in *. repeat split.
      * intros H. apply Ha. now apply pillars_set_keys_ascending.
      * intros t Ht. apply Hk. rewrite pillars_get_set.
        destruct (Req_dec_T t T); [discriminate | exact Ht].
      * intros t Ht. rewrite Hf by (intros Hin; apply Ht; now right).
        rewrite pillars_get_set. destruct (Req_dec_T t T) as [->|]; [|reflexivity].
        exfalso. apply Ht. left. exact HT.
      * intros t Ht. destruct (Ho t Ht) as [H | H]; [|right; now right].
        rewrite pillars_get_set in H. destruct (Req_dec_T t T) as [->|].
        -- right. left. exact HT.
        -- now left.
Qed.

(** X1.  Over a whole run of the main loop the store only grows, and only
    at the tenors of the rows: its keys stay in ascending order, a tenor
    that had a pillar keeps one, a pillar whose tenor is the tenor of no
    row keeps its value, and every tenor with a pillar at the end had one
    at the start or is the tenor of a row. *)
Theorem run_rows_store_growth (types : list string) (rows : list row)
    (st st' : state) :
  run_rows brentq dcc types rows st = Ok st' ->
  (keys_ascending (st_pillars st) -> keys_ascending (st_pillars st')) /\
  (forall t, pillars_get t (st_pillars st) <> None ->
             pillars_get t (st_pillars st') <> None) /\
  (forall t, ~ In (Some t) (map row_key rows) ->
             pillars_get t (st_pillars st') = pillars_get t (st_pillars st)) /\
  (forall t, pillars_get t (st_pillars st') <> None ->
             pillars_get t (st_pillars st) <> None \/ In (Some t) (map row_key rows)).
Proof. apply run_rows_store_facts. Qed.

(** Once set, the cached overnight rate stays set to the end of the run. *)
Lemma run_rows_keeps_cache (types : list string) (rows : list row) (st st' : state) :
  run_rows brentq dcc types rows st = Ok st' ->
  on_rate_pct st <> None -> on_rate_pct st' <> None.
Proof.
  revert st. induction rows as [|r rows IH]; intros st; cbn [run_rows].
  - now intros [= <-].
  - destruct (step brentq dcc types r st) as [st1|] eqn:Es; cbn [bind]; [|discriminate].
    intros Hrun Hc. apply (IH st1 Hrun). now apply (step_keeps_cache types r st st1).
Qed.
End RowEffects.

Lemma run_rows_store_growth_witness :
  pillars_get 0
    (st_pillars (mkState [(0, 1); (1, 1 / (1 + 0.105 * (1 / 360))); (91, 97.5 / 10)]
                   (Some (round2 (0.105 * 100)))))
  = pillars_get 0 (st_pillars init_state).
Proof.
  assert (run_rows brentq_bisect 360 ["overnight_rate"; "zero_coupon"]%string
            [overnight_row 0 1 0.105; zero_coupon_row 0 91 97.5] init_state
          = Ok (mkState [(0, 1); (1, 1 / (1 + 0.105 * (1 / 360))); (91, 97.5 / 10)]
                        (Some (round2 (0.105 * 100))))) as Hrun.
  { cbn [run_rows].
    rewrite (step_overnight _ _ _ _ _ 0.105);
      [| cbn; tauto | reflexivity | reflexivity | destruct (Rlt_dec 1 0.105); lra].
    destruct (Rlt_dec 1 0.105) as [|_]; [lra|]. cbn [bind].
    rewrite (step_zero_coupon _ _ _ _ _ 97.5); [| cbn; tauto | reflexivity | reflexivity].
    cbn [bind st_pillars on_rate_pct init_state overnight_row zero_coupon_row
         tenor_days num].
    eval_store. reflexivity. }
  destruct (run_rows_store_growth brentq_bisect 360 _ _ _ _ Hrun) as (_ & _ & Hf & _).
  apply Hf. cbn. intros [H | [H | []]]; injection H; lra.
Defined.

Section RunInvariants.
Variable brentq : (R -> R) -> R -> R -> R -> nat -> result R.
Variable dcc : R.
Variable parse_float : string -> option R.
Variable sort_values : frame -> frame.
Hypothesis sort_ok : sort_contract sort_values.

Lemma sorted_rows_keys (df : frame) (k : option R) :
  In k (map row_key (sort_values (coerce_frame parse_float df))) <->
  In k (map row_key (coerce_frame parse_float df)).
Proof.
  destruct sort_ok as [Hperm _].
  split; apply Permutation_in, Permutation_map;
    [apply Permutation_sym|]; apply Hperm.
Qed.

(** X2.  A successful per-date run ends with a store whose keys are in
    ascending order and that still holds a pillar at tenor 0; that pillar
    is 1.0 unless some row has tenor 0; and every pillar sits at tenor 0 or
    at the (coerced) tenor of a row of the table. *)
Theorem bootstrap_pillars_shape (df : frame) (st : state) :
  bootstrap_pillars brentq dcc parse_float sort_values df = Ok st ->
  keys_ascending (st_pillars st) /\
  pillars_get 0 (st_pillars st) <> None /\
  (~ In (Some 0) (map row_key (coerce_frame parse_float df)) ->
   pillars_get 0 (st_pillars st) = Some 1) /\
  (forall t, pillars_get t (st_pillars st) <> None ->
             t = 0 \/ In (Some t) (map row_key (coerce_frame parse_float df))).
Proof.
  unfold bootstrap_pillars. intros Hrun.
  destruct (run_rows_store_facts brentq dcc _ _ _ _ Hrun) as (Ha & Hk & Hf & Ho).
  assert (pillars_get 0 (st_pillars init_state) = Some 1) as H0.
  { cbn [init_state st_pillars pillars_get]. destruct (Req_dec_T 0 0); congruence. }
  repeat split.
  - apply Ha. unfold keys_ascending. cbn. repeat constructor.
  - apply Hk. now rewrite H0.
  - intros Hno. rewrite Hf; [exact H0|]. now rewrite sorted_rows_keys.
  - intros t Ht. destruct (Ho t Ht) as [H | H].
    + left. cbn [init_state st_pillars pillars_get] in H.
      destruct (Req_dec_T t 0); [assumption | contradiction].
    + right. now apply sorted_rows_keys.
Qed.

Lemma step_overnight_sets_cache (types : list string) (r : row) (st st' : state) :
  In "overnight_rate"%string types ->
  inst_type_of r = "overnight_rate"%string ->
  step brentq dcc types r st = Ok st' -> on_rate_pct st' <> None.
Proof.
  intros Hon Hty. apply has_overnight_In in Hon. unfold step.
  rewrite Hon, Hty. cbn [negb]. rewrite String.eqb_refl.
  destruct (num (dirty_price r)); [|discriminate].
  destruct (Req_dec_T _ 0); [discriminate|]. intros [= <-]. discriminate.
Qed.

(** X3.  When the table holds a row tagged "overnight_rate", a successful
    run ends with the overnight rate cached. *)
Theorem bootstrap_caches_overnight_rate (df : frame) (st : state) :
  In "overnight_rate"%string (map type df) ->
  bootstrap_pillars brentq dcc parse_float sort_values df = Ok st ->
  on_rate_pct st <> None.
Proof.
  intros Hon. unfold bootstrap_pillars.
  set (sorted := sort_values (coerce_frame parse_float df)).
  destruct sort_ok as [Hperm _].
  assert (In "overnight_rate"%string (map type sorted)) as Hon'.
  { eapply Permutation_in; [apply Permutation_map, Hperm|].
    now rewrite coerce_frame_types. }
  apply in_map_iff in Hon' as Hu. destruct Hu as (u & Hty & Hu).
  destruct (in_split u sorted Hu) as (pre & post & Hsplit).
  assert (inst_type_of u = "overnight_rate"%string) as Hinst
    by (unfold inst_type_of; now rewrite Hty).
  generalize (map type sorted) Hon'. intros types Htypes.
  rewrite Hsplit, run_rows_app.
  destruct (run_rows brentq dcc types pre init_state) as [st1|]; cbn [bind run_rows];
    [|discriminate].
  destruct (step brentq dcc types u st1) as [st2|] eqn:Es; cbn [bind]; [|discriminate].
  intros Hpost. apply (run_rows_keeps_cache brentq dcc types post st2 st Hpost).
  now apply (step_overnight_sets_cache types u st1 st2).
Qed.
End RunInvariants.

Lemma anchor_and_zero_coupon_run :
  bootstrap_pillars brentq_bisect 360 parse_float_digits sort_values_stable
    [zero_coupon_row 0 91 97.5; overnight_row 0 1 0.105]
  = Ok (mkState [(0, 1); (1, 1 / (1 + 0.105 * (1 / 360))); (91, 97.5 / 10)]
                (Some (round2 (0.105 * 100)))).
Proof.
  pose proof (anchor_and_zero_coupon_store brentq_bisect parse_float_digits
                sort_values_stable 0 0 0.105
                [zero_coupon_row 0 91 97.5; overnight_row 0 1 0.105]
                sort_values_stable_contract) as H.
  cbn zeta in H. destruct (Rlt_dec 1 0.105) as [|_]; [lra|].
  apply H; [lra | apply perm_swap].
Qed.

Lemma bootstrap_pillars_shape_witness :
  keys_ascending [(0, 1); (1, 1 / (1 + 0.105 * (1 / 360))); (91, 97.5 / 10)] /\
  pillars_get 0 [(0, 1); (1, 1 / (1 + 0.105 * (1 / 360))); (91, 97.5 / 10)] <> None.
Proof.
  destruct (bootstrap_pillars_shape brentq_bisect 360 parse_float_digits
              sort_values_stable sort_values_stable_contract _ _
              anchor_and_zero_coupon_run) as (Ha & Hz & _).
  split; [exact Ha | exact Hz].
Defined.

Lemma bootstrap_caches_overnight_rate_witness :
  on_rate_pct (mkState [(0, 1); (1, 1 / (1 + 0.105 * (1 / 360))); (91, 97.5 / 10)]
                 (Some (round2 (0.105 * 100)))) <> None.
Proof.
  apply (bootstrap_caches_overnight_rate brentq_bisect 360 parse_float_digits
           sort_values_stable sort_values_stable_contract
           [zero_coupon_row 0 91 97.5; overnight_row 0 1 0.105]).
  - cbn. tauto.
  - exact anchor_and_zero_coupon_run.
Defined.

(* ------------------------------------------------------------------ *)
(** ** The curve function between the pillars                          *)
(* ------------------------------------------------------------------ *)

Lemma ascending_nth_lt (xs : list R) (i j : nat) :
  StronglySorted Rlt xs -> (i < j)%nat -> (j < length xs)%nat ->
  nth i xs 0 < nth j xs 0.
Proof.
  intros Hs. revert i j. induction Hs as [|a xs Hs IH Hall]; intros i j Hij Hj.
  - cbn in Hj. lia.
  - destruct j as [|j]; [lia|]. cbn [length] in Hj.
    destruct i as [|i]; cbn [nth].
    + rewrite List.Forall_forall in Hall. apply Hall, nth_In. lia.
    + apply IH; lia.
Qed.

Lemma searchsorted_spec (xs : list R) (t : R) :
  StronglySorted Rlt xs ->
  (searchsorted xs t <= length xs)%nat /\
  (forall i, (i < searchsorted xs t)%nat -> nth i xs 0 < t) /\
  ((searchsorted xs t < length xs)%nat -> t <= nth (searchsorted xs t) xs 0).
Proof.
  induction 1 as [|a xs Hs IH Hall]; cbn [searchsorted length].
  - split; [lia|]. split; intros; lia.
  - destruct IH as (Hle & Hlt & Hge).
    destruct (Rlt_dec a t) as [Hat | Hat].
    + split; [lia|]. split.
      * intros [|i] Hi; cbn [nth]; [exact Hat | apply Hlt; lia].
      * intros Hc. cbn [nth]. apply Hge. lia.
    + split; [lia|]. split; [intros i Hi; lia|].
      intros _. cbn [nth]. lra.
Qed.

(** A key of an ascending store sits at some index of the sorted arrays. *)
Lemma pillars_get_index (p : pillars) (t d : R) :
  pillars_get t p = Some d ->
  exists i, (i < length p)%nat /\ nth i (map fst p) 0 = t /\ nth i (map snd p) 0 = d.
Proof.
  induction p as [|[x y] q IH]; cbn [pillars_get]; [discriminate|].
  destruct (Req_dec_T t x) as [-> | Hne].
  - intros [= <-]. exists 0%nat. cbn. repeat split. lia.
  - intros H. destruct (IH H) as (i & Hi & Hx & Hy).
    exists (S i). cbn [length map nth fst snd]. repeat split; [lia | exact Hx | exact Hy].
Qed.

Lemma nth_ln_positive (p : pillars) (i : nat) :
  all_positive p -> (i < length p)%nat ->
  nth i (map ln (map snd p)) 0 = ln (nth i (map snd p) 0) /\
  0 < nth i (map snd p) 0.
Proof.
  intros Hpos Hi. split.
  - rewrite (nth_indep _ 0 (ln 0)) by (now rewrite !length_map).
    apply map_nth.
  - unfold all_positive in Hpos. rewrite List.Forall_forall in Hpos.
    assert (In (nth i (map snd p) 0) (map snd p)) as Hin
      by (apply nth_In; now rewrite length_map).
    apply in_map_iff in Hin as (td & <- & Hin). now apply Hpos.
Qed.

(** Between the first and the last pillar the curve is the log-linear
    interpolation on a segment that brackets [t]. *)
Lemma loglinear_df_segment (p : pillars) (t : R) :
  keys_ascending p -> all_positive p -> (2 <= length p)%nat ->
  nth 0 (map fst p) 0 <= t <= nth (length p - 1) (map fst p) 0 ->
  exists j, (j + 1 < length p)%nat /\
    nth j (map fst p) 0 <= t <= nth (j + 1) (map fst p) 0 /\
    loglinear_df (map fst p) (map snd p) (map ln (map snd p)) t
    = exp (ln (nth j (map snd p) 0)
           + (ln (nth (j + 1) (map snd p) 0) - ln (nth j (map snd p) 0))
             * ((t - nth j (map fst p) 0)
                / (nth (j + 1) (map fst p) 0 - nth j (map fst p) 0))).
Proof.
  intros Hasc Hpos Hlen [Hlo Hhi].
  set (xs := map fst p) in *. set (n := length p) in *.
  assert (length xs = n) as Hn by (unfold xs; apply length_map).
  assert (nth 0 xs 0 < nth (n - 1) xs 0) as Hfl
    by (apply ascending_nth_lt; [exact Hasc | lia | lia]).
  assert (forall i, (i < n)%nat ->
            nth i (map ln (map snd p)) 0 = ln (nth i (map snd p) 0)) as Hln
    by (intros i Hi; now apply nth_ln_positive).
  unfold loglinear_df. fold xs. rewrite Hn.
  destruct (Nat.eqb n 1) eqn:En; [apply Nat.eqb_eq in En; lia|].
  destruct (Rle_dec t (nth 0 xs 0)) as [Hle | Hgt].
  { (* t is the first pillar *)
    exists 0%nat. assert (t = nth 0 xs 0) as -> by lra.
    split; [lia|]. split.
    - split; [lra|]. left. apply ascending_nth_lt; [exact Hasc | lia | lia].
    - rewrite !Hln by lia. f_equal. unfold Rdiv. cbn [Nat.add]. lra. }
  destruct (Rge_dec t (nth (n - 1) xs 0)) as [Hge | Hlt].
  { (* t is the last pillar *)
    exists (n - 2)%nat. assert (t = nth (n - 1) xs 0) as -> by lra.
    replace (n - 2 + 1)%nat with (n - 1)%nat by lia.
    assert (nth (n - 2) xs 0 < nth (n - 1) xs 0) as Hseg
      by (apply ascending_nth_lt; [exact Hasc | lia | lia]).
    split; [lia|]. split; [lra|].
    rewrite !Hln by lia. f_equal.
    replace (nth (n - 1) xs 0 - nth (n - 1) xs 0) with 0 by lra.
    rewrite Rmult_0_r. field. lra. }
  (* strictly inside *)
  destruct (searchsorted_spec xs t Hasc) as (Hc1 & Hc2 & Hc3).
  set (c := searchsorted xs t) in *.
  assert (1 <= c)%nat as Hc_lo.
  { destruct c as [|c']; [|lia]. exfalso. apply Hgt. apply Hc3. lia. }
  assert (c <= n - 1)%nat as Hc_hi.
  { destruct (Nat.le_gt_cases c (n - 1)) as [|Hbig]; [assumption|].
    exfalso. apply Hlt. left. apply Hc2. lia. }
  replace (Z.to_nat (Z.max 0 (Z.min (Z.of_nat c - 1) (Z.of_nat n - 2))))
    with (c - 1)%nat by lia.
  exists (c - 1)%nat. replace (c - 1 + 1)%nat with c by lia.
  assert (nth (c - 1) xs 0 < t) as Hleft by (apply Hc2; lia).
  assert (t <= nth c xs 0) as Hright by (apply Hc3; lia).
  split; [lia|]. split; [lra|].
  rewrite !Hln by lia. f_equal.
  set (w := (t - nth (c - 1) xs 0) / (nth c xs 0 - nth (c - 1) xs 0)). lra.
Qed.

Lemma ln_le_mono (x y : R) : 0 < x -> x <= y -> ln x <= ln y.
Proof.
  intros Hx [Hlt | ->]; [left; now apply ln_increasing | right; reflexivity].
Qed.

Lemma ascending_index_get (p : pillars) (i : nat) :
  keys_ascending p -> (i < length p)%nat ->
  pillars_get (nth i (map fst p) 0) p = Some (nth i (map snd p) 0).
Proof.
  unfold keys_ascending. revert i. induction p as [|[x y] q IH]; intros i Hs Hi.
  - cbn in Hi. lia.
  - cbn [map fst snd] in *. inversion Hs as [|? ? Hs' Hall]; subst.
    destruct i as [|i]; cbn [nth pillars_get].
    + destruct (Req_dec_T x x); congruence.
    + cbn [length] in Hi.
      destruct (Req_dec_T (nth i (map fst q) 0) x) as [Heq | _].
      * exfalso. rewrite List.Forall_forall in Hall.
        assert (x < nth i (map fst q) 0)
          by (apply Hall, nth_In; rewrite length_map; lia).
        lra.
      * apply IH; [assumption | lia].
Qed.

(** On one segment with a non-increasing pair of discount factors the
    interpolation stays between them and does not increase. *)
Lemma segment_monotone (x0 x1 y0 y1 t1 t2 : R) :
  x0 < x1 -> 0 < y1 -> y1 <= y0 -> x0 <= t1 -> t1 <= t2 -> t2 <= x1 ->
  let seg t := exp (ln y0 + (ln y1 - ln y0) * ((t - x0) / (x1 - x0))) in
  y1 <= seg t2 /\ seg t2 <= seg t1 /\ seg t1 <= y0.
Proof.
  intros Hx Hy1 Hy Ht0 Ht Ht1 seg.
  assert (0 < y0) as Hy0 by lra.
  assert (ln y1 <= ln y0) as Hln by now apply ln_le_mono.
  assert (forall t, x0 <= t -> t <= x1 -> 0 <= (t - x0) / (x1 - x0) <= 1) as Hw.
  { intros t Ha Hb. split.
    - apply Rmult_le_pos; [lra | left; apply Rinv_0_lt_compat; lra].
    - apply Rmult_le_reg_r with (x1 - x0); [lra|]. unfold Rdiv.
      rewrite Rmult_assoc, Rinv_l by lra. lra. }
  assert ((t1 - x0) / (x1 - x0) <= (t2 - x0) / (x1 - x0)) as Hw12.
  { unfold Rdiv. apply Rmult_le_compat_r; [left; apply Rinv_0_lt_compat; lra | lra]. }
  pose proof (Hw t1 ltac:(lra) ltac:(lra)) as Hw1.
  pose proof (Hw t2 ltac:(lra) ltac:(lra)) as Hw2.
  set (w1 := (t1 - x0) / (x1 - x0)) in *. set (w2 := (t2 - x0) / (x1 - x0)) in *.
  unfold seg. fold w1 w2. repeat split.
  - apply Rle_trans with (exp (ln y1)); [right; symmetry; now apply exp_ln|].
    apply exp_le_mono. nra.
  - apply exp_le_mono. nra.
  - apply Rle_trans with (exp (ln y0)); [|right; now apply exp_ln].
    apply exp_le_mono. nra.
Qed.

Section CurveShape.
Variable p : pillars.
Variable df : R -> R.
Hypothesis Hasc : keys_ascending p.
Hypothesis Hbuild : _build_loglinear_df_func p = Ok df.

(** X4.  The curve function returns, at the tenor of every pillar, the
    discount factor stored there. *)
Theorem curve_reproduces_pillars (t d : R) :
  pillars_get t p = Some d -> df t = d.
Proof.
  intros Hget. destruct (build_ok_inv p df Hbuild) as (Hpos & Hne & Hdf).
  destruct (pillars_get_index p t d Hget) as (i & Hi & Hx & Hy).
  destruct (Nat.le_gt_cases 2%nat (length p)) as [Hlen | Hone].
  - assert (nth 0 (map fst p) 0 <= t <= nth (length p - 1) (map fst p) 0) as Hrange.
    { rewrite <- Hx. split.
      - destruct i; [lra|]. left. apply ascending_nth_lt; [exact Hasc | lia |].
        now rewrite length_map.
      - destruct (Nat.eq_dec i (length p - 1)%nat) as [-> | Hne']; [lra|].
        left. apply ascending_nth_lt; [exact Hasc | lia | rewrite length_map; lia]. }
    destruct (loglinear_df_segment p t Hasc Hpos Hlen Hrange)
      as (j & Hj & [Hlo Hhi] & Heq).
    rewrite Hdf, Heq.
    assert (nth j (map fst p) 0 < nth (j + 1) (map fst p) 0) as Hseg
      by (apply ascending_nth_lt; [exact Hasc | lia | rewrite length_map; lia]).
    assert (i = j \/ i = (j + 1)%nat) as [-> | ->].
    { destruct (Nat.lt_trichotomy i j) as [Hlt | [-> | Hgt]]; [exfalso | now left |].
      - assert (nth i (map fst p) 0 < nth j (map fst p) 0)
          by (apply ascending_nth_lt; [exact Hasc | lia | rewrite length_map; lia]).
        lra.
      - destruct (Nat.eq_dec i (j + 1)%nat) as [-> | Hne']; [now right | exfalso].
        assert (nth (j + 1) (map fst p) 0 < nth i (map fst p) 0)
          by (apply ascending_nth_lt; [exact Hasc | lia | now rewrite length_map]).
        lra. }
    + rewrite <- Hx. replace (nth j (map fst p) 0 - nth j (map fst p) 0) with 0 by lra.
      unfold Rdiv. rewrite Rmult_0_l, Rmult_0_r, Rplus_0_r, Hy.
      apply exp_ln. rewrite <- Hy. now apply nth_ln_positive.
    + rewrite <- Hx. unfold Rdiv. rewrite Rinv_r by lra.
      rewrite Rmult_1_r, Hy. replace (ln (nth j (map snd p) 0) + (ln d - ln (nth j (map snd p) 0)))
        with (ln d) by lra.
      apply exp_ln. rewrite <- Hy. now apply nth_ln_positive.
  - assert (length p = 1)%nat as Hlen1 by (destruct p; [contradiction | cbn in *; lia]).
    assert (i = 0)%nat as -> by lia.
    rewrite Hdf. unfold loglinear_df. rewrite length_map, Hlen1. cbn [Nat.eqb].
    destruct (Rle_dec t (nth 0 (map fst p) 0)); [exact Hy|].
    destruct (Rge_dec t _); [exact Hy | lra].
Qed.

(** X6.  When the stored discount factors are non-increasing in tenor,
    the curve function is non-increasing from the first pillar on:
    through every interpolated segment and through the extrapolation. *)
Theorem curve_monotone (t1 t2 : R) :
  df_monotone p ->
  nth 0 (map fst p) 0 <= t1 -> t1 <= t2 -> df t2 <= df t1.
Proof.
  intros Hmono H1 H12.
  destruct (build_ok_inv p df Hbuild) as (Hpos & Hne & Hdf).
  assert (map fst p <> []) as Hxs by (destruct p; [contradiction | discriminate]).
  set (n := length p). set (xs := map fst p) in *. set (ys := map snd p) in *.
  assert (length xs = n) as Hn by (unfold xs; apply length_map).
  assert (forall i j, (i <= j)%nat -> (j < n)%nat -> nth j ys 0 <= nth i ys 0) as Hys.
  { intros i j Hij Hj. destruct (Nat.eq_dec i j) as [-> | Hne']; [lra|].
    apply (Hmono (nth i xs 0) (nth j xs 0)).
    - apply ascending_index_get; [exact Hasc | fold n; lia].
    - apply ascending_index_get; [exact Hasc | exact Hj].
    - apply ascending_nth_lt; [exact Hasc | lia | now rewrite Hn]. }
  assert (forall i, (i < n)%nat -> 0 < nth i ys 0) as Hypos
    by (intros i Hi; now apply nth_ln_positive).
  destruct (Nat.le_gt_cases 2%nat n) as [Hlen | Hone].
  2:{ (* a single pillar: the curve is constant *)
    assert (n = 1)%nat as Hlen1 by (unfold n in *; destruct p; [contradiction | cbn in *; lia]).
    rewrite Hdf. unfold loglinear_df. fold xs ys. rewrite Hn, Hlen1.
    cbn [Nat.eqb Nat.sub].
    repeat match goal with
           | |- context [if ?c then _ else _] => destruct c
           end; lra. }
  (* the value in a segment, and the value beyond the last pillar *)
  assert (forall t, nth 0 xs 0 <= t <= nth (n - 1) xs 0 ->
            exists j, (j + 1 < n)%nat /\ nth j xs 0 <= t <= nth (j + 1) xs 0 /\
              df t = exp (ln (nth j ys 0) + (ln (nth (j + 1) ys 0) - ln (nth j ys 0))
                          * ((t - nth j xs 0) / (nth (j + 1) xs 0 - nth j xs 0))))
    as Hin.
  { intros t Ht. rewrite Hdf. now apply loglinear_df_segment. }
  assert (forall t, nth (n - 1) xs 0 <= t ->
            df t <= nth (n - 1) ys 0 /\
            forall t', t <= t' -> df t' <= df t) as Hout.
  { intros t Ht.
    assert (forall u, nth (n - 1) xs 0 <= u ->
              df u = exp (ln (nth (n - 1) ys 0)
                          + Rmin ((nth (n - 1) (map ln ys) 0 - nth (n - 2) (map ln ys) 0)
                                  / (nth (n - 1) xs 0 - nth (n - 2) xs 0)) (-1e-12)
                            * (u - nth (n - 1) xs 0))) as Hright.
    { intros u Hu. rewrite Hdf, loglinear_df_right; [| exact Hasc | exact Hxs | now rewrite Hn].
      rewrite Hn. destruct (Nat.eqb n 1) eqn:En; [apply Nat.eqb_eq in En; lia|].
      f_equal. f_equal. unfold ys. apply nth_ln_positive; [assumption | fold n; lia]. }
    set (m := Rmin _ _) in Hright. assert (m <= -1e-12) as Hm by apply Rmin_r.
    split.
    - rewrite Hright by assumption.
      apply Rle_trans with (exp (ln (nth (n - 1) ys 0)));
        [|right; apply exp_ln, Hypos; lia].
      apply exp_le_mono. nra.
    - intros t' Ht'. rewrite !Hright by lra. apply exp_le_mono. nra. }
  destruct (Rle_dec t1 (nth (n - 1) xs 0)) as [Ht1 | Ht1].
  2:{ apply Hout; lra. }
  destruct (Hin t1 ltac:(lra)) as (j1 & Hj1 & [Hlo1 Hhi1] & Heq1).
  assert (nth j1 xs 0 < nth (j1 + 1) xs 0) as Hseg1
    by (apply ascending_nth_lt; [exact Hasc | lia | rewrite Hn; lia]).
  destruct (Rle_dec t2 (nth (n - 1) xs 0)) as [Ht2 | Ht2].
  2:{ (* t1 inside, t2 beyond the last pillar *)
    destruct (Hout t2 ltac:(lra)) as [Hle _].
    destruct (segment_monotone _ _ (nth j1 ys 0) (nth (j1 + 1) ys 0) t1 t1 Hseg1
                ltac:(apply Hypos; lia) ltac:(apply Hys; lia) Hlo1 ltac:(lra) Hhi1)
      as (Hb & _ & _).
    rewrite Heq1. pose proof (Hys (j1 + 1)%nat (n - 1)%nat ltac:(lia) ltac:(lia)). lra. }
  destruct (Hin t2 ltac:(lra)) as (j2 & Hj2 & [Hlo2 Hhi2] & Heq2).
  assert (nth j2 xs 0 < nth (j2 + 1) xs 0) as Hseg2
    by (apply ascending_nth_lt; [exact Hasc | lia | rewrite Hn; lia]).
  destruct (Nat.lt_trichotomy j1 j2) as [Hlt | [Heq | Hgt]].
  - (* t1 in an earlier segment than t2 *)
    destruct (segment_monotone _ _ (nth j1 ys 0) (nth (j1 + 1) ys 0) t1 t1 Hseg1
                ltac:(apply Hypos; lia) ltac:(apply Hys; lia) Hlo1 ltac:(lra) Hhi1)
      as (Hb1 & _ & _).
    destruct (segment_monotone _ _ (nth j2 ys 0) (nth (j2 + 1) ys 0) t2 t2 Hseg2
                ltac:(apply Hypos; lia) ltac:(apply Hys; lia) Hlo2 ltac:(lra) Hhi2)
      as (_ & _ & Hb2).
    rewrite Heq1, Heq2.
    pose proof (Hys (j1 + 1)%nat j2 ltac:(lia) ltac:(lia)). lra.
  - subst j2. rewrite Heq1, Heq2.
    now apply (segment_monotone _ _ (nth j1 ys 0) (nth (j1 + 1) ys 0) t1 t2 Hseg1
                 ltac:(apply Hypos; lia) ltac:(apply Hys; lia) Hlo1 H12 Hhi2).
  - (* segments in the other order force t1 = t2 *)
    assert (nth (j2 + 1) xs 0 <= nth j1 xs 0) as Hord.
    { destruct (Nat.eq_dec (j2 + 1)%nat j1) as [-> | Hne']; [lra|].
      left. apply ascending_nth_lt; [exact Hasc | lia | rewrite Hn; lia]. }
    assert (t1 = t2) as -> by lra. lra.
Qed.
End CurveShape.


Lemma two_pillar_build :
  _build_loglinear_df_func [(0, 1); (1, 0.9997)]
  = Ok (loglinear_df [0; 1] [1; 0.9997] [ln 1; ln 0.9997]).
Proof.
  apply (build_ok [(0, 1); (1, 0.9997)]); [|discriminate].
  repeat constructor; cbn [snd]; lra.
Qed.

Lemma two_pillar_ascending : keys_ascending [(0, 1); (1, 0.9997)].
Proof. unfold keys_ascending. cbn [map fst]. repeat constructor. lra. Qed.

Lemma curve_reproduces_pillars_witness :
  loglinear_df [0; 1] [1; 0.9997] [ln 1; ln 0.9997] 1 = 0.9997.
Proof.
  apply (curve_reproduces_pillars [(0, 1); (1, 0.9997)] _ two_pillar_ascending
           two_pillar_build).
  cbn [pillars_get]. decide_R. reflexivity.
Defined.


Lemma curve_monotone_witness :
  loglinear_df [0; 1] [1; 0.9997] [ln 1; ln 0.9997] 30
  <= loglinear_df [0; 1] [1; 0.9997] [ln 1; ln 0.9997] 0.5.
Proof.
  apply (curve_monotone [(0, 1); (1, 0.9997)] _ two_pillar_ascending two_pillar_build).
  - intros t1 t2 d1 d2. cbn [pillars_get]. decide_R; intros H1 H2 Hlt;
      try discriminate; injection H1 as <-; injection H2 as <-; lra.
  - cbn. lra.
  - lra.
Defined.

(** X7.  Building the curve function fails with "Non-positive DF in
    pillars" exactly when some stored discount factor is zero or
    negative; on a non-empty store without one it succeeds. *)
Theorem build_rejects_nonpositive (p : pillars) :
  (_build_loglinear_df_func p = Err InvalidPillars <->
   exists t d, In (t, d) p /\ d <= 0) /\
  (p <> [] -> all_positive p -> exists df, _build_loglinear_df_func p = Ok df).
Proof.
  split.
  - unfold _build_loglinear_df_func.
    destruct (existsb (fun y => Rleb y 0) (map snd p)) eqn:E.
    + split; [intros _ | reflexivity].
      apply existsb_exists in E as (d & Hin & Hd).
      apply in_map_iff in Hin as ([t d'] & Hd' & Hin). cbn [snd] in Hd'. subst d'.
      exists t, d. split; [exact Hin|].
      unfold Rleb in Hd. destruct (Rle_dec d 0); [assumption | discriminate].
    + split.
      * destruct (map fst p); discriminate.
      * intros (t & d & Hin & Hd). exfalso.
        apply existsb_nonpositive_inv in E. unfold all_positive in E.
        rewrite List.Forall_forall in E. specialize (E (t, d) Hin). cbn [snd] in E. lra.
  - intros Hne Hpos. eexists. now apply build_ok.
Qed.

(* ------------------------------------------------------------------ *)
(** ** The solver                                                      *)
(* ------------------------------------------------------------------ *)

Lemma bisect_in_bracket (n : nat) (f : R -> R) (lo hi : R) :
  lo <= hi -> lo <= bisect n f lo hi <= hi.
Proof.
  revert lo hi. induction n as [|n IH]; intros lo hi Hle; cbn [bisect].
  - lra.
  - destruct (Rle_dec _ 0).
    + destruct (IH lo ((lo + hi) / 2) ltac:(lra)). lra.
    + destruct (IH ((lo + hi) / 2) hi ltac:(lra)). lra.
Qed.

Lemma brentq_bisect_in_bracket : brentq_in_bracket brentq_bisect.
Proof.
  intros f lo hi xtol maxiter x Hle. unfold brentq_bisect.
  destruct (Rlt_dec 0 _); [discriminate|]. intros [= <-].
  now apply bisect_in_bracket.
Qed.

(** X8.  Whatever path the solver takes (the degenerate call, the
    forward-flat fallback or the root finder), a value it returns for a
    last discount factor [df_S >= 1e-14] lies in [1e-14, df_S]. *)
Theorem solver_result_in_bracket
    (brentq : (R -> R) -> R -> R -> R -> nat -> result R)
    (price pre_known_sum df_S S T : R) (future_times future_amounts : list R)
    (v : R) :
  brentq_in_bracket brentq ->
  1e-14 <= df_S ->
  _solve_df_T_loglinear_generic brentq price pre_known_sum df_S S T
    future_times future_amounts = Ok v ->
  1e-14 <= v <= df_S.
Proof.
  intros Hbr Hdf. unfold _solve_df_T_loglinear_generic.
  destruct (Rle_dec T (S + 1e-12)); [intros [= <-]; lra|].
  destruct (Rlt_dec 0 _).
  - destruct (last_opt future_amounts) as [a_last|]; [|discriminate].
    intros [= <-]. split; [apply Rmax_l|].
    apply Rmax_lub; [exact Hdf | apply Rmin_r].
  - intros Hroot. now apply (Hbr _ _ _ _ _ _ Hdf Hroot).
Qed.

Lemma solver_result_in_bracket_witness : 1e-14 <= 0.97 <= 0.97.
Proof.
  apply (solver_result_in_bracket brentq_bisect 99.5 0 0.97 182 182 [182] [104] 0.97).
  - exact brentq_bisect_in_bracket.
  - lra.
  - unfold _solve_df_T_loglinear_generic. destruct (Rle_dec 182 (182 + 1e-12)); [reflexivity | lra].
Defined.

(** X9.  When the bracket shows no sign change the solver does not consult
    the root finder: with at least one unknown cash flow it returns the
    clamped forward-flat value, the same for every root finder. *)
Theorem solver_fallback_ignores_root_finder
    (price pre_known_sum df_S S T : R) (future_times future_amounts : list R) :
  S + 1e-12 < T ->
  future_amounts <> [] ->
  let pv := pv_given_dfT pre_known_sum df_S S T future_times future_amounts in
  0 < (pv 1e-14 - price) * (pv df_S - price) ->
  exists v, 1e-14 <= v /\
    forall brentq,
      _solve_df_T_loglinear_generic brentq price pre_known_sum df_S S T
        future_times future_amounts = Ok v.
Proof.
  intros HT Hne pv Hsign.
  destruct (last_opt future_amounts) as [a_last|] eqn:El;
    [|destruct future_amounts; [contradiction | discriminate]].
  eexists. split; [|intros brentq; unfold _solve_df_T_loglinear_generic].
  2:{ destruct (Rle_dec T (S + 1e-12)); [exfalso; lra|].
      fold pv. destruct (Rlt_dec 0 _); [|contradiction].
      rewrite El. reflexivity. }
  apply Rmax_l.
Qed.

Lemma solver_fallback_ignores_root_finder_witness :
  exists v, 1e-14 <= v /\
    forall brentq,
      _solve_df_T_loglinear_generic brentq 200 3.9 0.97 182 364 [364] [104] = Ok v.
Proof.
  apply solver_fallback_ignores_root_finder; [lra | discriminate |].
  unfold pv_given_dfT. cbn [combine fold_left]. decide_R. nra.
Defined.

(** The present value of one cash flow as a function of the unknown
    discount factor. *)
Lemma pv_term_monotone (df_S S T t a x y : R) :
  S < T -> S <= t -> 0 <= a -> 0 < x -> x <= y ->
  a * (if Rlt_dec t (T - 1e-12)
       then exp ((1 - (t - S) / (T - S)) * ln df_S + (t - S) / (T - S) * ln x)
       else x)
  <= a * (if Rlt_dec t (T - 1e-12)
          then exp ((1 - (t - S) / (T - S)) * ln df_S + (t - S) / (T - S) * ln y)
          else y).
Proof.
  intros HST Ht Ha Hx Hxy. apply Rmult_le_compat_l; [exact Ha|].
  destruct (Rlt_dec t (T - 1e-12)); [|exact Hxy].
  apply exp_le_mono.
  assert (0 <= (t - S) / (T - S)) as Hw
    by (apply Rmult_le_pos; [lra | left; apply Rinv_0_lt_compat; lra]).
  pose proof (ln_le_mono x y Hx Hxy). nra.
Qed.

Lemma pv_fold_monotone (df_S S T x y : R) (flows : list (R * R)) (acc1 acc2 : R) :
  S < T -> 0 < x -> x <= y -> acc1 <= acc2 ->
  Forall (fun ta => S <= fst ta /\ 0 <= snd ta) flows ->
  fold_left
    (fun pv ta =>
       let '(t, a) := ta in
       pv + a * (if Rlt_dec t (T - 1e-12)
                 then exp ((1 - (t - S) / (T - S)) * ln df_S + (t - S) / (T - S) * ln x)
                 else x))
    flows acc1
  <= fold_left
       (fun pv ta =>
          let '(t, a) := ta in
          pv + a * (if Rlt_dec t (T - 1e-12)
                    then exp ((1 - (t - S) / (T - S)) * ln df_S + (t - S) / (T - S) * ln y)
                    else y))
       flows acc2.
Proof.
  intros HST Hx Hxy Hacc Hall. revert acc1 acc2 Hacc.
  induction Hall as [|[t a] flows [Ht Ha] _ IH]; intros acc1 acc2 Hacc; cbn [fold_left].
  - exact Hacc.
  - apply IH. cbn [fst snd] in *.
    pose proof (pv_term_monotone df_S S T t a x y HST Ht Ha Hx Hxy). lra.
Qed.

Lemma pv_fold_lower (df_S S T x : R) (flows : list (R * R)) (acc : R) :
  0 < x ->
  Forall (fun ta => S <= fst ta /\ 0 <= snd ta) flows ->
  acc <= fold_left
           (fun pv ta =>
              let '(t, a) := ta in
              pv + a * (if Rlt_dec t (T - 1e-12)
                        then exp ((1 - (t - S) / (T - S)) * ln df_S
                                  + (t - S) / (T - S) * ln x)
                        else x))
           flows acc.
Proof.
  intros Hx Hall. revert acc.
  induction Hall as [|[t a] flows [Ht Ha] _ IH]; intros acc; cbn [fold_left]; [lra|].
  eapply Rle_trans; [|apply IH]. cbn [snd] in Ha.
  assert (0 <= a * (if Rlt_dec t (T - 1e-12)
                    then exp ((1 - (t - S) / (T - S)) * ln df_S + (t - S) / (T - S) * ln x)
                    else x)).
  { apply Rmult_le_pos; [exact Ha|]. destruct (Rlt_dec _ _); [left; apply exp_pos | lra]. }
  lra.
Qed.

(** X10.  With non-negative cash flows that fall at or after the last
    pillar, the present value the solver prices with never decreases when
    the candidate discount factor grows: the bracketed search is over a
    monotone function. *)
Theorem pv_given_dfT_monotone (pre_known_sum df_S S T : R)
    (future_times future_amounts : list R) (x y : R) :
  S < T ->
  Forall (fun ta => S <= fst ta /\ 0 <= snd ta) (combine future_times future_amounts) ->
  x <= y ->
  pv_given_dfT pre_known_sum df_S S T future_times future_amounts x
  <= pv_given_dfT pre_known_sum df_S S T future_times future_amounts y.
Proof.
  intros HST Hall Hxy. unfold pv_given_dfT.
  destruct (Rle_dec x 0) as [Hx0 | Hx0]; destruct (Rle_dec y 0) as [Hy0 | Hy0]; try lra.
  - apply pv_fold_lower; [lra | exact Hall].
  - apply pv_fold_monotone; try assumption; lra.
Qed.

Lemma pv_given_dfT_monotone_witness :
  pv_given_dfT 3.9 0.97 182 364 [364] [104] 0.9
  <= pv_given_dfT 3.9 0.97 182 364 [364] [104] 0.95.
Proof.
  apply pv_given_dfT_monotone; [lra | | lra].
  cbn [combine]. repeat constructor; cbn [fst snd]; lra.
Defined.

(* ------------------------------------------------------------------ *)
(** ** Coupon schedules                                                *)
(* ------------------------------------------------------------------ *)

(** [fixed_bond_df] computes with the schedule named above. *)
Lemma fixed_bond_df_schedule
    (brentq : (R -> R) -> R -> R -> R -> nat -> result R) (dcc : R)
    (r : row) (T : R) (p : pillars) :
  fixed_bond_df brentq dcc r T p =
  let* price := _pick_price r in
  let* df_func := _build_loglinear_df_func p in
  let* S_ := max_key p in
  let* df_T :=
    if Rle_dec T (S_ + 1e-12) then Ok (df_func T)
    else
      match num (coupon r) with
      | None => Err SolverFailure
      | Some cpn =>
          let c_amt := cpn / 100 * (182 / dcc) * 100 in
          let final_cf := 100 + cpn / 100 * ((T - fixed_bond_last_cpn_time T) / dcc) * 100 in
          let '(pre_known_sum, future) :=
            partition_flows df_func S_
              (map (fun t => (t, c_amt)) (fixed_bond_pre_T_dates T)) in
          let future := future ++ [(T, final_cf)] in
          _solve_df_T_loglinear_generic brentq price pre_known_sum (df_func S_) S_ T
            (map fst future) (map snd future)
      end in
  Ok (cap_df df_T (df_func S_)).
Proof. reflexivity. Qed.

Lemma zrange_succ (lo : Z) (n : nat) :
  zrange lo (S n) = zrange lo n ++ [(lo + Z.of_nat n)%Z].
Proof.
  revert lo. induction n as [|n IH]; intros lo.
  - cbn. now rewrite Z.add_0_r.
  - change (zrange lo (S (S n))) with (lo :: zrange (lo + 1) (S n)).
    rewrite IH. cbn [zrange app]. do 3 f_equal. lia.
Qed.

Lemma zrange_In (lo : Z) (n : nat) (i : Z) :
  In i (zrange lo n) <-> (lo <= i < lo + Z.of_nat n)%Z.
Proof.
  revert lo. induction n as [|n IH]; intros lo; cbn [zrange In].
  - lia.
  - rewrite IH. lia.
Qed.

Lemma zrange_ascending (lo : Z) (n : nat) :
  StronglySorted Rlt (map (fun i => 182 * IZR i) (zrange lo n)).
Proof.
  revert lo. induction n as [|n IH]; intros lo; cbn [zrange map]; constructor.
  - apply IH.
  - apply List.Forall_forall. intros t Hin. apply in_map_iff in Hin as (i & <- & Hi).
    apply zrange_In in Hi. assert (IZR lo < IZR i) by (apply IZR_lt; lia). lra.
Qed.

Lemma isclose_refl (a : R) : isclose a a = true.
Proof.
  unfold isclose, Rleb. replace (a - a) with 0 by lra. rewrite Rabs_R0.
  pose proof (Rabs_pos a). destruct (Rle_dec 0 _); [reflexivity | lra].
Qed.

(** The schedule is the list 182, 364, ..., 182*m for an [m] whose last
    date lies strictly before [T]. *)
Lemma fixed_bond_pre_T_dates_shape (T : R) :
  exists m : nat,
    fixed_bond_pre_T_dates T = map (fun i => 182 * IZR i) (zrange 1 m) /\
    (m = 0%nat \/ 182 * IZR (Z.of_nat m) < T).
Proof.
  unfold fixed_bond_pre_T_dates. cbv zeta.
  set (n := Z.to_nat (Zfloor (T / 182))).
  assert (n = 0%nat \/ 182 * IZR (Z.of_nat n) <= T) as Hn.
  { destruct n as [|n'] eqn:En; [now left | right].
    assert (0 < Zfloor (T / 182))%Z as Hpos by lia.
    rewrite <- En. unfold n. rewrite Z2Nat.id by lia.
    pose proof (Zfloor_bound (T / 182)) as [Hb _]. lra. }
  destruct n as [|n'] eqn:En.
  - exists 0%nat. cbn. split; [reflexivity | now left].
  - rewrite zrange_succ, map_app. cbn [map]. rewrite last_opt_snoc.
    destruct Hn as [Hn | Hn]; [discriminate|].
    replace (1 + Z.of_nat n')%Z with (Z.of_nat (S n')) by lia.
    destruct (isclose (182 * IZR (Z.of_nat (S n'))) T) eqn:Ec.
    + exists n'. rewrite removelast_last. split; [reflexivity|].
      destruct n' as [|n'']; [now left | right].
      assert (IZR (Z.of_nat (S n'')) < IZR (Z.of_nat (S (S n'')))) by (apply IZR_lt; lia).
      lra.
    + exists (S n'). rewrite zrange_succ, map_app. cbn [map].
      replace (1 + Z.of_nat n')%Z with (Z.of_nat (S n')) by lia.
      split; [reflexivity | right].
      destruct Hn as [Hlt | Heq]; [exact Hlt|].
      rewrite Heq, isclose_refl in Ec. discriminate.
Qed.

(** X11.  For a fixed bond of positive tenor [T] the pre-final coupon
    dates are multiples of 182 days in ascending order, all strictly
    between 0 and [T], so the final cash flow accrues over a positive
    period [T - last_cpn_time]. *)
Theorem fixed_bond_schedule_inside (T : R) :
  0 < T ->
  StronglySorted Rlt (fixed_bond_pre_T_dates T) /\
  Forall (fun t => 0 < t < T /\ exists i : Z, (1 <= i)%Z /\ t = 182 * IZR i)
         (fixed_bond_pre_T_dates T) /\
  0 <= fixed_bond_last_cpn_time T < T.
Proof.
  intros HT. unfold fixed_bond_last_cpn_time.
  destruct (fixed_bond_pre_T_dates_shape T) as (m & -> & Hm).
  assert (Forall (fun t => 0 < t < T /\ exists i : Z, (1 <= i)%Z /\ t = 182 * IZR i)
            (map (fun i => 182 * IZR i) (zrange 1 m))) as Hall.
  { apply List.Forall_forall. intros t Hin. apply in_map_iff in Hin as (i & <- & Hi).
    apply zrange_In in Hi. destruct Hm as [-> | Hm]; [lia|].
    assert (IZR 1 <= IZR i) by (apply IZR_le; lia).
    assert (IZR i <= IZR (Z.of_nat m)) by (apply IZR_le; lia).
    split; [lra|]. exists i. split; [lia | reflexivity]. }
  split; [apply zrange_ascending|]. split; [exact Hall|].
  destruct (last_opt _) as [l|] eqn:El; [|lra].
  rewrite List.Forall_forall in Hall.
  assert (In l (map (fun i => 182 * IZR i) (zrange 1 m))) as Hin.
  { destruct (map (fun i => 182 * IZR i) (zrange 1 m)) as [|a rest] eqn:E;
      [discriminate|].
    unfold last_opt in El. injection El as <-.
    pose proof (@app_removelast_last _ (a :: rest) a ltac:(discriminate)) as Hsplit.
    rewrite Hsplit. apply in_or_app. right. now left. }
  destruct (Hall l Hin) as [? _]. lra.
Qed.

Lemma fixed_bond_schedule_inside_witness :
  0 <= fixed_bond_last_cpn_time 400 < 400.
Proof. apply (fixed_bond_schedule_inside 400). lra. Defined.

(** X12.  The 28-day schedule of a floating-rate note of positive tenor
    [T]: there is at least one coupon, the next payment is [rem] days away
    with 0 < rem <= 28, [d = 28 - rem] days of the current coupon have
    accrued, and the [k] payment dates rem, rem+28, ... end exactly at
    [T].  For [T <= 0] there is no coupon. *)
Theorem frn_schedule (T r_pct s_pct : R) :
  (0 < T ->
   exists k d rem C1 C,
     _frn_28day_coupon_params T r_pct s_pct = (k, d, rem, C1, C) /\
     (1 <= k)%Z /\ 0 < rem <= 28 /\ d = 28 - rem /\ 0 <= d < 28 /\
     rem + 28 * IZR (k - 1) = T) /\
  (T <= 0 -> _frn_28day_coupon_params T r_pct s_pct = (0%Z, 0, 0, 0, 0)).
Proof.
  unfold _frn_28day_coupon_params. cbv zeta. split.
  - intros HT. destruct (Rlt_dec 0 T) as [_|]; [|contradiction].
    pose proof (Zceil_bound (T / 28)) as [Hlo Hhi].
    set (k := Zceil (T / 28)) in *.
    assert (0 < IZR k) as Hk by (assert (0 < T / 28) by lra; lra).
    apply lt_IZR in Hk.
    destruct (Z.eqb k 0) eqn:Ek; [apply Z.eqb_eq in Ek; lia|].
    rewrite minus_IZR.
    assert (0 < T - 28 * (IZR k - 1) <= 28) as Hrem by lra.
    destruct (Rlt_dec 0 (T - 28 * (IZR k - 1))) as [_|]; [|lra].
    eexists _, _, _, _, _. split; [reflexivity|].
    repeat split; try lia; rewrite ?minus_IZR; lra.
  - intros HT. destruct (Rlt_dec 0 T); [lra|]. reflexivity.
Qed.

(** On a coupon date ([T] a positive multiple of 28 days) nothing has
    accrued: [d = 0], [rem = 28], and the first coupon equals the regular
    coupon. *)
Theorem frn_coupon_date (m : Z) (r_pct s_pct : R) :
  (1 <= m)%Z ->
  exists C,
    _frn_28day_coupon_params (28 * IZR m) r_pct s_pct = (m, 0, 28, C, C).
Proof.
  intros Hm. unfold _frn_28day_coupon_params. cbv zeta.
  assert (0 < IZR m) as Hpos by (apply IZR_lt; lia).
  destruct (Rlt_dec 0 (28 * IZR m)) as [_|]; [|lra].
  replace (28 * IZR m / 28) with (IZR m) by (field).
  assert (Zceil (IZR m) = m) as -> by (unfold Zceil; rewrite <- opp_IZR, ZfloorZ; lia).
  destruct (Z.eqb m 0) eqn:Em; [apply Z.eqb_eq in Em; lia|].
  rewrite minus_IZR.
  replace (28 * IZR m - 28 * (IZR m - 1)) with 28 by lra.
  destruct (Rlt_dec 0 28) as [_|]; [|lra].
  replace (28 - 28) with 0 by lra.
  unfold tc_dev. destruct (Rle_dec 0 0) as [_|]; [|lra].
  eexists. repeat f_equal.
  replace (0 / 36000) with 0 by lra. replace (28 - 0) with 28 by lra. lra.
Qed.

Lemma frn_schedule_witness :
  exists k d rem C1 C,
    _frn_28day_coupon_params 100 10.5 0.1 = (k, d, rem, C1, C) /\
    (1 <= k)%Z /\ 0 < rem <= 28 /\ d = 28 - rem /\ 0 <= d < 28 /\
    rem + 28 * IZR (k - 1) = 100.
Proof. apply (frn_schedule 100 10.5 0.1). lra. Defined.

Lemma frn_coupon_date_witness :
  exists C, _frn_28day_coupon_params (28 * IZR 13) 10.5 0.1 = (13%Z, 0, 28, C, C).
Proof. apply frn_coupon_date. lia. Defined.

(* ------------------------------------------------------------------ *)
(** ** The overnight anchor                                            *)
(* ------------------------------------------------------------------ *)



(** X14.  On an overnight row a dirty_price [x] with 1 < x <= 100 is read
    as a percentage: the row has the same effect as the row that carries
    the decimal rate [x/100]. *)
Theorem overnight_percent_same_as_decimal
    (brentq : (R -> R) -> R -> R -> R -> nat -> result R) (dcc : R)
    (types : list string) (st : state)
    (ti : Z) (ty : string) (tenor clean cpn : cell) (x : R) :
  lower (strip ty) = "overnight_rate"%string ->
  1 < x -> x <= 100 ->
  step brentq dcc types (mkRow ti ty tenor clean (CNum x) cpn) st
  = step brentq dcc types (mkRow ti ty tenor clean (CNum (x / 100)) cpn) st.
Proof.
  intros Hty H1 H100. unfold step, inst_type_of. cbn [type tenor_days dirty_price num].
  rewrite Hty. destruct (negb _); [reflexivity|]. cbn [String.eqb Ascii.eqb Bool.eqb andb].
  destruct (Rlt_dec 1 x) as [_|]; [|lra].
  destruct (Rlt_dec 1 (x / 100)); [lra | reflexivity].
Qed.

Lemma overnight_percent_same_as_decimal_witness :
  step brentq_bisect 360 ["overnight_rate"%string]
    (mkRow 0 "overnight_rate" (CNum 1) CNaN (CNum 10.5) CNaN) init_state
  = step brentq_bisect 360 ["overnight_rate"%string]
      (mkRow 0 "overnight_rate" (CNum 1) CNaN (CNum (10.5 / 100)) CNaN) init_state.
Proof. apply overnight_percent_same_as_decimal; [reflexivity | lra | lra]. Defined.

(* ------------------------------------------------------------------ *)
(** ** Rows that abort the run                                         *)
(* ------------------------------------------------------------------ *)

Section Aborts.
Variable brentq : (R -> R) -> R -> R -> R -> nat -> result R.
Variable dcc : R.
Variable parse_float : string -> option R.
Variable sort_values : frame -> frame.

(** The run raises what the first failing row raises. *)
Lemma bootstrap_fails_at (df pre post : frame) (u : row) (st : state) (e : error) :
  sort_values (coerce_frame parse_float df) = pre ++ u :: post ->
  run_rows brentq dcc (map type (sort_values (coerce_frame parse_float df)))
    pre init_state = Ok st ->
  step brentq dcc (map type (sort_values (coerce_frame parse_float df))) u st = Err e ->
  bootstrap_from_curve_df brentq dcc parse_float sort_values df = Err e.
Proof.
  intros Hsplit Hpre Hstep. unfold bootstrap_from_curve_df, bootstrap_pillars.
  rewrite Hsplit at 2. rewrite run_rows_app, Hpre. cbn [bind run_rows].
  now rewrite Hstep.
Qed.

(** X15.  Missing market data aborts the date: when the loop reaches a
    zero_coupon or fixed_bond row with neither dirty nor clean price the
    call fails with "neither dirty_price nor clean_price", and when it
    reaches an overnight row without a rate it fails with "Overnight row
    must carry the rate". *)
Theorem missing_data_aborts (df pre post : frame) (u : row) (st : state) :
  In "overnight_rate"%string (map type df) ->
  (forall l, Permutation l (sort_values l)) ->
  sort_values (coerce_frame parse_float df) = pre ++ u :: post ->
  run_rows brentq dcc (map type (sort_values (coerce_frame parse_float df)))
    pre init_state = Ok st ->
  num (dirty_price u) = None ->
  ((inst_type_of u = "zero_coupon"%string \/ inst_type_of u = "fixed_bond"%string) ->
   num (clean_price u) = None ->
   bootstrap_from_curve_df brentq dcc parse_float sort_values df = Err MissingPrice) /\
  (inst_type_of u = "overnight_rate"%string ->
   bootstrap_from_curve_df brentq dcc parse_float sort_values df
   = Err MissingOvernightRate).
Proof.
  intros Hon Hperm Hsplit Hpre Hdirty.
  assert (existsb (String.eqb "overnight_rate")
            (map type (sort_values (coerce_frame parse_float df))) = true) as Hon'.
  { apply has_overnight_In. eapply Permutation_in; [apply Permutation_map, Hperm|].
    now rewrite coerce_frame_types. }
  split.
  - intros Hty Hclean. apply (bootstrap_fails_at df pre post u st _ Hsplit Hpre).
    unfold step. rewrite Hon'. cbn [negb].
    assert (_pick_price u = Err MissingPrice) as Hpp
      by (unfold _pick_price; now rewrite Hdirty, Hclean).
    destruct Hty as [-> | ->]; cbn [String.eqb Ascii.eqb Bool.eqb andb].
    + now rewrite Hpp.
    + destruct (num (tenor_days u)) as [T|].
      * unfold fixed_bond_df. now rewrite Hpp.
      * now rewrite Hpp.
  - intros Hty. apply (bootstrap_fails_at df pre post u st _ Hsplit Hpre).
    unfold step. rewrite Hon', Hty, Hdirty. reflexivity.
Qed.

(** Without an overnight row or a 1-day instrument before it, a run that
    has not raised has neither a cached rate nor a 1-day pillar. *)
Lemma run_without_anchor (types : list string) (rows : list row) (st st' : state) :
  Forall (fun r => inst_type_of r <> "overnight_rate"%string /\ row_key r <> Some 1) rows ->
  on_rate_pct st = None -> pillars_get 1 (st_pillars st) = None ->
  run_rows brentq dcc types rows st = Ok st' ->
  on_rate_pct st' = None /\ pillars_get 1 (st_pillars st') = None.
Proof.
  intros Hall. revert st. induction Hall as [|r rows [Hty Hkey] _ IH]; intros st Hc Hp;
    cbn [run_rows].
  - now intros [= <-].
  - destruct (step brentq dcc types r st) as [st1|] eqn:Es; cbn [bind]; [|discriminate].
    apply IH.
    + revert Es. unfold step. destruct (negb _); [now intros [= <-]|].
      apply String.eqb_neq in Hty. rewrite Hty.
      destruct (String.eqb (inst_type_of r) "zero_coupon").
      { destruct (_pick_price r); cbn [bind]; [|discriminate]. now intros [= <-]. }
      destruct (String.eqb (inst_type_of r) "fixed_bond").
      { destruct (num (tenor_days r)).
        - destruct (fixed_bond_df _ _ _ _ _); cbn [bind]; [|discriminate]. now intros [= <-].
        - destruct (_pick_price r); discriminate. }
      destruct (is_frn (inst_type_of r)); [|discriminate].
      unfold _ensure_on_rate_pct. rewrite Hc, Hp. discriminate.
    + destruct (step_writes_own_tenor brentq dcc types r st st1 Es)
        as [-> | (T & v & HT & ->)]; [exact Hp|].
      rewrite pillars_get_set. destruct (Req_dec_T 1 T) as [<- |]; [contradiction | exact Hp].
Qed.

(** X16.  A floating-rate row needs the anchor before it: when the loop
    reaches a floating_bondes row and none of the rows processed before it
    is an overnight row or sits at tenor 1, the call fails with "Need an
    'overnight_rate' row (or a 1-day pillar)". *)
Theorem frn_before_anchor_aborts (df pre post : frame) (u : row) (st : state) :
  In "overnight_rate"%string (map type df) ->
  (forall l, Permutation l (sort_values l)) ->
  sort_values (coerce_frame parse_float df) = pre ++ u :: post ->
  Forall (fun r => inst_type_of r <> "overnight_rate"%string /\ row_key r <> Some 1) pre ->
  run_rows brentq dcc (map type (sort_values (coerce_frame parse_float df)))
    pre init_state = Ok st ->
  is_frn (inst_type_of u) = true ->
  bootstrap_from_curve_df brentq dcc parse_float sort_values df = Err MissingAnchorRate.
Proof.
  intros Hon Hperm Hsplit Hall Hpre Hty.
  assert (existsb (String.eqb "overnight_rate")
            (map type (sort_values (coerce_frame parse_float df))) = true) as Hon'.
  { apply has_overnight_In. eapply Permutation_in; [apply Permutation_map, Hperm|].
    now rewrite coerce_frame_types. }
  destruct (run_without_anchor
              (map type (sort_values (coerce_frame parse_float df)))
              pre init_state st Hall) as [Hc Hp];
    [reflexivity | cbn; decide_R; reflexivity | exact Hpre |].
  apply (bootstrap_fails_at df pre post u st _ Hsplit Hpre).
  unfold step. rewrite Hon'. cbn [negb].
  assert (String.eqb (inst_type_of u) "overnight_rate" = false
          /\ String.eqb (inst_type_of u) "zero_coupon" = false
          /\ String.eqb (inst_type_of u) "fixed_bond" = false) as (E1 & E2 & E3)
    by (destruct (is_frn_cases _ Hty) as [-> | [-> | ->]]; repeat split; reflexivity).
  rewrite E1, E2, E3, Hty. unfold _ensure_on_rate_pct. now rewrite Hc, Hp.
Qed.
End Aborts.

Lemma overnight_first_step (rest : list string) :
  step brentq_bisect 360 ("overnight_rate"%string :: rest) (overnight_row 0 1 0.105)
    init_state
  = Ok (mkState (pillars_set 1 (1 / (1 + 0.105 * (1 / 360))) [(0, 1)])
                (Some (round2 (0.105 * 100)))).
Proof.
  rewrite (step_overnight _ _ _ _ _ 0.105);
    [| now left | reflexivity | reflexivity | destruct (Rlt_dec 1 0.105); lra].
  destruct (Rlt_dec 1 0.105); [lra | reflexivity].
Qed.

Lemma missing_data_aborts_witness :
  bootstrap_from_curve_df brentq_bisect 360 parse_float_digits sort_values_stable
    [overnight_row 0 1 0.105; mkRow 0 "zero_coupon" (CNum 91) CNaN CNaN CNaN]
  = Err MissingPrice.
Proof.
  assert (sort_values_stable
            (coerce_frame parse_float_digits
               [overnight_row 0 1 0.105; mkRow 0 "zero_coupon" (CNum 91) CNaN CNaN CNaN])
          = [overnight_row 0 1 0.105] ++
            mkRow 0 "zero_coupon" (CNum 91) CNaN CNaN CNaN :: []) as Hsplit.
  { change (coerce_frame parse_float_digits
              [overnight_row 0 1 0.105; mkRow 0 "zero_coupon" (CNum 91) CNaN CNaN CNaN])
      with [overnight_row 0 1 0.105; mkRow 0 "zero_coupon" (CNum 91) CNaN CNaN CNaN].
    apply sort_values_stable_sorted_id. repeat constructor. cbn. lra. }
  refine (proj1 (missing_data_aborts brentq_bisect 360 parse_float_digits
                   sort_values_stable
                   [overnight_row 0 1 0.105; mkRow 0 "zero_coupon" (CNum 91) CNaN CNaN CNaN]
                   _ _ _ (mkState (pillars_set 1 (1 / (1 + 0.105 * (1 / 360))) [(0, 1)])
                                  (Some (round2 (0.105 * 100))))
                   _ (proj1 sort_values_stable_contract) Hsplit _ _) _ _).
  - cbn. tauto.
  - rewrite Hsplit. cbn [run_rows map app type overnight_row].
    rewrite (overnight_first_step ["zero_coupon"%string]). reflexivity.
  - reflexivity.
  - left. reflexivity.
  - reflexivity.
Defined.

Lemma frn_before_anchor_aborts_witness :
  bootstrap_from_curve_df brentq_bisect 360 parse_float_digits sort_values_stable
    [mkRow 0 "floating_bondes_f" (CNum 0.5) CNaN (CNum 100) (CNum 0);
     overnight_row 0 1 0.105]
  = Err MissingAnchorRate.
Proof.
  assert (sort_values_stable
            (coerce_frame parse_float_digits
               [mkRow 0 "floating_bondes_f" (CNum 0.5) CNaN (CNum 100) (CNum 0);
                overnight_row 0 1 0.105])
          = [] ++ mkRow 0 "floating_bondes_f" (CNum 0.5) CNaN (CNum 100) (CNum 0)
               :: [overnight_row 0 1 0.105]) as Hsplit.
  { change (coerce_frame parse_float_digits
              [mkRow 0 "floating_bondes_f" (CNum 0.5) CNaN (CNum 100) (CNum 0);
               overnight_row 0 1 0.105])
      with [mkRow 0 "floating_bondes_f" (CNum 0.5) CNaN (CNum 100) (CNum 0);
            overnight_row 0 1 0.105].
    apply sort_values_stable_sorted_id. repeat constructor. cbn. lra. }
  refine (frn_before_anchor_aborts brentq_bisect 360 parse_float_digits
            sort_values_stable
            [mkRow 0 "floating_bondes_f" (CNum 0.5) CNaN (CNum 100) (CNum 0);
             overnight_row 0 1 0.105]
            _ _ _ init_state _ (proj1 sort_values_stable_contract) Hsplit _ _ _).
  - cbn. tauto.
  - constructor.
  - reflexivity.
  - reflexivity.
Defined.

(* ------------------------------------------------------------------ *)
(** ** The output table                                                *)
(* ------------------------------------------------------------------ *)

Lemma zero_curve_rows (dcc : R) (p : pillars) (days : Z) (z : R) :
  In (days, z) (zero_curve dcc p) <->
  exists T d, In (T, d) p /\ 0 < T /\ days = astype_int T /\
              z = ((1 / d) - 1) * (dcc / T) * 100.
Proof.
  unfold zero_curve. split.
  - intros Hin.
    apply (Permutation_in _ (Permutation_sym (stable_sort_perm _ _))) in Hin.
    apply in_map_iff in Hin as ([T d] & Heq & Hin). cbn [fst snd] in Heq.
    injection Heq as <- <-. apply filter_In in Hin as [Hin Hpos].
    unfold Rltb in Hpos. cbn [fst] in Hpos.
    destruct (Rlt_dec 0 T); [|discriminate]. exists T, d. now repeat split.
  - intros (T & d & Hin & Hpos & -> & ->).
    apply (Permutation_in _ (stable_sort_perm _ _)).
    apply in_map_iff. exists (T, d). split; [reflexivity|].
    apply filter_In. split; [exact Hin|]. unfold Rltb. cbn [fst].
    destruct (Rlt_dec 0 T); [reflexivity | contradiction].
Qed.

Lemma zero_rate_inverts (dcc T d : R) :
  dcc <> 0 -> T <> 0 -> d <> 0 ->
  1 / (1 + ((1 / d) - 1) * (dcc / T) * 100 / 100 * (T / dcc)) = d.
Proof.
  intros Hdcc HT Hd.
  replace (1 + ((1 / d) - 1) * (dcc / T) * 100 / 100 * (T / dcc)) with (1 / d)
    by (field; repeat split; assumption).
  field. exact Hd.
Qed.

(** X17.  Every output row stands for a pillar of positive tenor: it carries
    that tenor truncated to whole days, and its zero rate [z] gives the
    pillar's discount factor back as 1 / (1 + z/100 * T/dcc).  The pillar at
    tenor 0 gives no row, and every pillar of positive tenor gives one. *)
Theorem zero_curve_round_trip (dcc : R) (p : pillars) :
  dcc <> 0 ->
  (forall days z, In (days, z) (zero_curve dcc p) ->
     exists T d, In (T, d) p /\ 0 < T /\ days = astype_int T /\
                 (d <> 0 -> 1 / (1 + z / 100 * (T / dcc)) = d)) /\
  (forall T d, In (T, d) p -> 0 < T ->
     exists z, In (astype_int T, z) (zero_curve dcc p)).
Proof.
  intros Hdcc. split.
  - intros days z Hin. apply zero_curve_rows in Hin as (T & d & Hin & HT & -> & ->).
    exists T, d. repeat split; try assumption.
    intros Hd. apply zero_rate_inverts; [assumption | lra | assumption].
  - intros T d Hin HT. eexists. apply zero_curve_rows. exists T, d.
    repeat split; try assumption.
Qed.

Lemma zero_curve_round_trip_witness :
  exists T d, In (T, d) [(0, 1); (91, 0.975)] /\ 0 < T /\
              91%Z = astype_int T /\
              (d <> 0 -> 1 / (1 + ((1 / 0.975) - 1) * (360 / 91) * 100 / 100 * (T / 360)) = d).
Proof.
  refine (proj1 (zero_curve_round_trip 360 [(0, 1); (91, 0.975)] _) 91%Z _ _).
  - lra.
  - apply zero_curve_rows. exists 91, 0.975. repeat split; [|lra|].
    + right. now left.
    + symmetry. change 91 with (IZR 91). apply astype_int_IZR.
Defined.

Lemma astype_int_mono (a b : R) : 0 <= a -> a <= b -> (astype_int a <= astype_int b)%Z.
Proof.
  intros Ha Hab. unfold astype_int.
  destruct (Rle_dec 0 a); [|lra]. destruct (Rle_dec 0 b); [|lra].
  now apply Zfloor_le.
Qed.

(** X18.  On a store whose keys are in ascending order (every store the
    driver builds) the closing sort changes nothing: the output rows are
    the positive-tenor pillars in tenor order, with non-negative,
    non-decreasing days_to_maturity. *)
Theorem zero_curve_in_tenor_order (dcc : R) (p : pillars) :
  keys_ascending p ->
  zero_curve dcc p
  = map (fun td => (astype_int (fst td), ((1 / snd td) - 1) * (dcc / fst td) * 100))
        (List.filter (fun td => Rltb 0 (fst td)) p) /\
  StronglySorted Z.le (map fst (zero_curve dcc p)) /\
  Forall (fun dz => (0 <= fst dz)%Z) (zero_curve dcc p).
Proof.
  intros Hasc.
  set (f := fun td : R * R =>
              (astype_int (fst td), ((1 / snd td) - 1) * (dcc / fst td) * 100)).
  assert (StronglySorted (fun a b => fst a < fst b /\ 0 < fst a)
            (List.filter (fun td => Rltb 0 (fst td)) p)) as Hs.
  { unfold keys_ascending in Hasc. induction p as [|[x y] q IH]; [constructor|].
    cbn [map fst] in Hasc. inversion Hasc as [|? ? Hs' Hall]; subst.
    cbn [List.filter fst]. unfold Rltb at 1. destruct (Rlt_dec 0 x) as [Hx|];
      [|now apply IH].
    constructor; [now apply IH|].
    apply List.Forall_forall. intros [x' y'] Hin. apply filter_In in Hin as [Hin _].
    rewrite List.Forall_forall in Hall. cbn [fst]. split; [|exact Hx].
    apply Hall. now apply (in_map fst) in Hin. }
  assert (StronglySorted (fun a b => (fst a <=? fst b)%Z = true)
            (map f (List.filter (fun td => Rltb 0 (fst td)) p))) as Hsz.
  { induction Hs as [|a l Hs IH Hall]; cbn [map]; constructor; [exact IH|].
    apply List.Forall_forall. intros b Hin. apply in_map_iff in Hin as (b' & <- & Hin).
    rewrite List.Forall_forall in Hall. destruct (Hall b' Hin) as [Hlt Hpos].
    cbn [f fst]. apply Z.leb_le. apply astype_int_mono; lra. }
  assert (zero_curve dcc p = map f (List.filter (fun td => Rltb 0 (fst td)) p)) as Heq
    by (unfold zero_curve; now apply stable_sort_sorted_id).
  split; [exact Heq|]. rewrite Heq. split.
  - clear Heq. induction Hsz as [|a l Hs' IH Hall]; cbn [map]; constructor; [exact IH|].
    apply List.Forall_forall. intros k Hin. apply in_map_iff in Hin as (b & <- & Hin).
    rewrite List.Forall_forall in Hall. apply Z.leb_le. now apply Hall.
  - apply List.Forall_forall. intros dz Hin. apply in_map_iff in Hin as (td & <- & Hin).
    apply filter_In in Hin as [_ Hpos]. unfold Rltb in Hpos.
    destruct (Rlt_dec 0 (fst td)); [|discriminate]. cbn [f fst].
    replace 0%Z with (astype_int 0) by (change 0 with (IZR 0); apply astype_int_IZR).
    apply astype_int_mono; lra.
Qed.

Lemma zero_curve_in_tenor_order_witness :
  StronglySorted Z.le
    (map fst (zero_curve 360 [(0, 1); (1, 0.9997); (91, 0.975)])).
Proof.
  apply (zero_curve_in_tenor_order 360 [(0, 1); (1, 0.9997); (91, 0.975)]).
  unfold keys_ascending. cbn [map fst]. repeat constructor; lra.
Defined.

(* ------------------------------------------------------------------ *)
(** ** Grouping by date                                                *)
(* ------------------------------------------------------------------ *)

Lemma Zleb_total (a b : Z) : (a <=? b)%Z = true \/ (b <=? a)%Z = true.
Proof. rewrite !Z.leb_le. lia. Qed.

Lemma Zleb_trans (a b c : Z) :
  (a <=? b)%Z = true -> (b <=? c)%Z = true -> (a <=? c)%Z = true.
Proof. rewrite !Z.leb_le. lia. Qed.

Lemma sorted_nodup_strict (l : list Z) :
  StronglySorted (fun x y => (x <=? y)%Z = true) l -> List.NoDup l ->
  StronglySorted Z.lt l.
Proof.
  induction 1 as [|a l Hs IH Hall]; intros Hnd; [constructor|].
  inversion Hnd as [|? ? Hnotin Hnd']; subst.
  constructor; [now apply IH|].
  rewrite List.Forall_forall in *. intros x Hin.
  specialize (Hall x Hin). apply Z.leb_le in Hall.
  assert (x <> a) by (intros ->; contradiction). lia.
Qed.

Lemma groupby_keys {A : Type} (key : A -> Z) (l : list A) :
  StronglySorted Z.lt (map fst (groupby key l)).
Proof.
  unfold groupby. rewrite map_map. cbn [fst]. rewrite map_id.
  apply sorted_nodup_strict.
  - apply stable_sort_sorted; [apply Zleb_total | apply Zleb_trans].
  - apply (Permutation_NoDup (stable_sort_perm _ _)). apply NoDup_nodup.
Qed.

Lemma groupby_In {A : Type} (key : A -> Z) (l : list A) (k : Z) (g : list A) :
  In (k, g) (groupby key l) <->
  In k (map key l) /\ g = List.filter (fun a => Z.eqb (key a) k) l.
Proof.
  unfold groupby. rewrite in_map_iff. split.
  - intros (k' & Heq & Hin). injection Heq as -> <-. split; [|reflexivity].
    apply (Permutation_in _ (Permutation_sym (stable_sort_perm _ _))) in Hin.
    now apply nodup_In in Hin.
  - intros [Hin ->]. exists k. split; [reflexivity|].
    apply (Permutation_in _ (stable_sort_perm _ _)). now apply nodup_In.
Qed.


Lemma key_filter_nonempty {A : Type} (key : A -> Z) (l : list A) (k : Z) :
  In k (map key l) -> List.filter (fun a => Z.eqb (key a) k) l <> [].
Proof.
  intros Hin Hnil. apply in_map_iff in Hin as (a & <- & Hin).
  assert (In a (List.filter (fun a' => Z.eqb (key a') (key a)) l)) as Hin'
    by (apply filter_In; split; [exact Hin | apply Z.eqb_refl]).
  now rewrite Hnil in Hin'.
Qed.

Lemma Forall2_In_left {A B : Type} (P : A -> B -> Prop) (l1 : list A) (l2 : list B)
    (a : A) :
  Forall2 P l1 l2 -> In a l1 -> exists b, In b l2 /\ P a b.
Proof.
  induction 1 as [|x y l1 l2 Hxy _ IH]; intros Hin; [destruct Hin|].
  destruct Hin as [<-|Hin]; [exists y; split; [now left | exact Hxy]|].
  destruct (IH Hin) as (b & ? & ?). exists b. split; [now right | assumption].
Qed.

Lemma Forall2_In_right {A B : Type} (P : A -> B -> Prop) (l1 : list A) (l2 : list B)
    (b : B) :
  Forall2 P l1 l2 -> In b l2 -> exists a, In a l1 /\ P a b.
Proof.
  induction 1 as [|x y l1 l2 Hxy _ IH]; intros Hin; [destruct Hin|].
  destruct Hin as [<-|Hin]; [exists x; split; [now left | exact Hxy]|].
  destruct (IH Hin) as (a & ? & ?). exists a. split; [now right | assumption].
Qed.

Lemma sorted_filter {A : Type} (R : A -> A -> Prop) (f : A -> bool) (l : list A) :
  StronglySorted R l -> StronglySorted R (List.filter f l).
Proof.
  induction 1 as [|a l Hs IH Hall]; cbn [List.filter]; [constructor|].
  destruct (f a); [|exact IH]. constructor; [exact IH|].
  rewrite List.Forall_forall in *. intros x Hin. apply filter_In in Hin as [Hin _].
  now apply Hall.
Qed.

Lemma sorted_map_fst {A : Type} (l : list (Z * A)) :
  StronglySorted Z.lt (map fst l) <-> StronglySorted (fun a b => (fst a < fst b)%Z) l.
Proof.
  induction l as [|a l IH]; cbn [map]; split; intros H; try constructor;
    inversion H as [|? ? Hs Hall]; subst.
  - now apply IH.
  - rewrite List.Forall_forall in *. intros x Hin. apply Hall. now apply in_map.
  - now apply IH.
  - rewrite List.Forall_forall in *. intros x Hin.
    apply in_map_iff in Hin as (b & <- & Hin). now apply Hall.
Qed.

(* ------------------------------------------------------------------ *)
(** ** The wrapper of [rates_to_curves.py]                             *)
(* ------------------------------------------------------------------ *)

Section RatesWrapperFacts.
Variable brentq : (R -> R) -> R -> R -> R -> nat -> result R.
Variable parse_float : string -> option R.
Variable sort_values : frame -> frame.

Lemma rates_per_date_ok (groups : list (Z * list rates_to_curves.node_row))
    (results : list (Z * list (Z * R))) :
  rates_to_curves.per_date brentq parse_float sort_values groups = Ok results ->
  map fst results
  = map fst (List.filter (fun g => negb (length (snd g) <? 5)%nat) groups) /\
  forall ti z, In (ti, z) results ->
    exists g, In (ti, g) groups /\ (5 <= length g)%nat /\
      bootstrap_from_curve_df brentq 360 parse_float sort_values
        (map (rates_to_curves.cast_row parse_float) g) = Ok z.
Proof.
  revert results. induction groups as [|[ti g] rest IH]; intros results Hrun.
  - cbn in Hrun. injection Hrun as <-. split; [reflexivity | intros ? ? []].
  - cbn [rates_to_curves.per_date] in Hrun. cbn [List.filter snd].
    destruct (length g <? 5)%nat eqn:Hlen; cbn [negb].
    + destruct (IH _ Hrun) as [Hk Hin]. split; [exact Hk|].
      intros ti' z Hz. destruct (Hin ti' z Hz) as (g' & ? & ? & ?).
      exists g'. split; [now right | now split].
    + apply Nat.ltb_ge in Hlen.
      destruct (bootstrap_from_curve_df _ _ _ _ _) as [zdf|e] eqn:Hb;
        cbn [bind] in Hrun; [|discriminate].
      destruct (rates_to_curves.per_date _ _ _ rest) as [more|e] eqn:Hrest;
        cbn [bind] in Hrun; [|discriminate].
      injection Hrun as <-. destruct (IH _ eq_refl) as [Hk Hin].
      split; [cbn [map fst]; now rewrite Hk|].
      intros ti' z [Heq|Hz].
      * injection Heq as <- <-. exists g. split; [now left | now split].
      * destruct (Hin ti' z Hz) as (g' & ? & ? & ?).
        exists g'. split; [now right | now split].
Qed.


(** X19.  Every entry of the result of [rates_to_curves.boostrap_mbono_curve]
    carries the curve identifier it was called with, belongs to a date with
    at least five input rows, and holds the dict of the zero curve
    bootstrapped from exactly that date's rows; the entries come in strictly
    increasing date order, so no date appears twice. *)
Theorem rates_to_curves_entries (curve_unique_identifier : string)
    (nodes : list rates_to_curves.node_row)
    (out : list (Z * string * list (Z * R))) :
  rates_to_curves.boostrap_mbono_curve brentq parse_float sort_values
    curve_unique_identifier nodes = Ok out ->
  StronglySorted Z.lt (map (fun e => fst (fst e)) out) /\
  forall ti id d, In (ti, id, d) out ->
    id = curve_unique_identifier /\
    (5 <= length (List.filter (fun n => Z.eqb (rates_to_curves.node_time_index n) ti) nodes))%nat /\
    exists zero_df,
      bootstrap_from_curve_df brentq 360 parse_float sort_values
        (map (rates_to_curves.cast_row parse_float)
           (List.filter (fun n => Z.eqb (rates_to_curves.node_time_index n) ti) nodes))
      = Ok zero_df /\
      zero_df <> [] /\ d = rates_to_curves.to_dict zero_df.
Proof.
  unfold rates_to_curves.boostrap_mbono_curve. intros Hrun.
  destruct (rates_to_curves.per_date _ _ _ _) as [results|e] eqn:Hpd;
    cbn [bind] in Hrun; [|discriminate].
  injection Hrun as <-. destruct (rates_per_date_ok _ _ Hpd) as [Hkeys Hin]. split.
  - rewrite map_map. cbn [fst].
    change (fun x : Z * list (Z * R) => fst x) with (@fst Z (list (Z * R))).
    apply sorted_map_fst. apply sorted_filter. apply sorted_map_fst.
    rewrite Hkeys. apply sorted_map_fst. apply sorted_filter. apply sorted_map_fst.
    apply groupby_keys.
  - intros ti id d Hd. apply in_map_iff in Hd as ([ti' z] & Heq & Hz).
    cbn [fst snd] in Heq. injection Heq as -> <- <-.
    apply filter_In in Hz as [Hz Hne]. cbn [snd] in Hne.
    destruct (Hin _ _ Hz) as (g & Hg & Hlen & Hcurve).
    apply groupby_In in Hg as [_ ->]. split; [reflexivity|].
    split; [exact Hlen|]. exists z. split; [exact Hcurve|]. split; [|reflexivity].
    intros ->. discriminate.
Qed.


End RatesWrapperFacts.

(* ------------------------------------------------------------------ *)
(** ** The wrapper of [bootstrap.py]                                   *)
(* ------------------------------------------------------------------ *)

Section BootstrapWrapperFacts.
Variable brentq : (R -> R) -> R -> R -> R -> nat -> result R.
Variable parse_float : string -> option R.
Variable sort_values : frame -> frame.

Lemma bootstrap_per_date_ok (groups : list (Z * frame))
    (results : list (Z * list (Z * R))) :
  bootstrap.per_date brentq parse_float sort_values groups = Ok results ->
  Forall2 (fun g r => fst r = fst g /\
             bootstrap_from_curve_df brentq 360 parse_float sort_values (snd g)
             = Ok (snd r)) groups results.
Proof.
  revert results. induction groups as [|[ti g] rest IH]; intros results Hrun.
  - cbn in Hrun. injection Hrun as <-. constructor.
  - cbn [bootstrap.per_date] in Hrun.
    destruct (bootstrap_from_curve_df _ _ _ _ _) as [zdf|e] eqn:Hb;
      cbn [bind] in Hrun; [|discriminate].
    destruct (bootstrap.per_date _ _ _ rest) as [more|e] eqn:Hrest;
      cbn [bind] in Hrun; [|discriminate].
    injection Hrun as <-. constructor; [now split | now apply IH].
Qed.

Lemma bootstrap_per_date_succeeds (groups : list (Z * frame)) :
  (exists results,
     bootstrap.per_date brentq parse_float sort_values groups = Ok results) <->
  (forall ti g, In (ti, g) groups ->
     exists z, bootstrap_from_curve_df brentq 360 parse_float sort_values g = Ok z).
Proof.
  induction groups as [|[ti g] rest IH].
  - split; [intros _ ? ? [] | intros _; now exists []].
  - cbn [bootstrap.per_date]. split.
    + intros [results Hrun].
      destruct (bootstrap_from_curve_df _ _ _ _ _) as [zdf|e] eqn:Hb;
        cbn [bind] in Hrun; [|discriminate].
      destruct (bootstrap.per_date _ _ _ rest) as [more|e] eqn:Hrest;
        cbn [bind] in Hrun; [|discriminate].
      intros ti' g' [Heq|Hin].
      * injection Heq as <- <-. now exists zdf.
      * apply (proj1 IH (ex_intro _ more eq_refl) ti' g' Hin).
    + intros H. destruct (H ti g (or_introl eq_refl)) as [z ->]. cbn [bind].
      destruct (proj2 IH (fun ti' g' Hin => H ti' g' (or_intror Hin))) as [more ->].
      cbn [bind]. now eexists.
Qed.

(** X21.  [bootstrap.boostrap_mbono_curve] has no row-count guard: it
    returns a result exactly when the bootstrap succeeds on the rows of
    every date present in the input, however few rows that date has. *)
Theorem bootstrap_wrapper_all_or_nothing (nodes : frame) :
  (exists out,
     bootstrap.boostrap_mbono_curve brentq parse_float sort_values nodes = Ok out) <->
  (forall r, In r nodes ->
     exists zdf,
       bootstrap_from_curve_df brentq 360 parse_float sort_values
         (List.filter (fun n => Z.eqb (time_index n) (time_index r)) nodes) = Ok zdf).
Proof.
  unfold bootstrap.boostrap_mbono_curve. split.
  - intros [out Hrun] r Hr.
    destruct (bootstrap.per_date _ _ _ _) as [results|e] eqn:Hpd;
      cbn [bind] in Hrun; [|discriminate].
    apply (proj1 (bootstrap_per_date_succeeds _) (ex_intro _ results Hpd)
             (time_index r)).
    apply groupby_In. split; [now apply in_map | reflexivity].
  - intros H.
    destruct (proj2 (bootstrap_per_date_succeeds (groupby time_index nodes)))
      as [results ->].
    + intros ti g Hg. apply groupby_In in Hg as [Hti ->].
      apply in_map_iff in Hti as (r & <- & Hr). now apply H.
    + cbn [bind]. now eexists.
Qed.

(** X22.  Every row of the long table [bootstrap.boostrap_mbono_curve]
    returns is a row of the zero curve bootstrapped from the input rows of
    its own date, and every row of each such curve is in the table. *)
Theorem bootstrap_wrapper_rows (nodes : frame) (out : list (Z * Z * R)) :
  bootstrap.boostrap_mbono_curve brentq parse_float sort_values nodes = Ok out ->
  forall ti days z,
    In (ti, days, z) out <->
    In ti (map time_index nodes) /\
    exists zdf,
      bootstrap_from_curve_df brentq 360 parse_float sort_values
        (List.filter (fun n => Z.eqb (time_index n) ti) nodes) = Ok zdf /\
      In (days, z) zdf.
Proof.
  unfold bootstrap.boostrap_mbono_curve. intros Hrun ti days z.
  destruct (bootstrap.per_date _ _ _ _) as [results|e] eqn:Hpd;
    cbn [bind] in Hrun; [|discriminate].
  injection Hrun as <-. apply bootstrap_per_date_ok in Hpd.
  rewrite in_concat. split.
  - intros (rows & Hrows & Hin). apply in_map_iff in Hrows as ([ti' zdf] & <- & Hres).
    cbn [fst snd] in Hin. apply in_map_iff in Hin as ([days' z'] & Heq & Hin).
    cbn [fst snd] in Heq. injection Heq as -> -> ->.
    destruct (Forall2_In_right _ _ _ _ Hpd Hres) as ([ti' g] & Hg & Hti & Hb).
    cbn [fst snd] in Hti, Hb. subst ti'. apply groupby_In in Hg as [Hti ->].
    split; [exact Hti|]. now exists zdf.
  - intros (Hti & zdf & Hb & Hin).
    assert (In (ti, List.filter (fun n => Z.eqb (time_index n) ti) nodes)
              (groupby time_index nodes)) as Hg
      by (apply groupby_In; now split).
    destruct (Forall2_In_left _ _ _ _ Hpd Hg) as ([ti' zdf'] & Hres & Heq & Hb').
    cbn [fst snd] in Heq, Hb'. subst ti'. rewrite Hb in Hb'. injection Hb' as <-.
    eexists. split.
    + apply in_map_iff. exists (ti, zdf). split; [reflexivity | exact Hres].
    + cbn [fst snd]. apply in_map_iff. exists (days, z). now split.
Qed.

End BootstrapWrapperFacts.

Lemma five_row_group_curve :
  bootstrap_from_curve_df brentq_bisect 360 parse_float_digits sort_values_stable
    (four_row_group ++ [zero_coupon_row 1 364 9.1])
  = Ok [(1%Z, ((1 / (1 / (1 + 0.105 * (1 / 360)))) - 1) * (360 / 1) * 100);
        (28%Z, ((1 / (9.92 / 10)) - 1) * (360 / 28) * 100);
        (91%Z, ((1 / (9.75 / 10)) - 1) * (360 / 91) * 100);
        (182%Z, ((1 / (9.5 / 10)) - 1) * (360 / 182) * 100);
        (364%Z, ((1 / (9.1 / 10)) - 1) * (360 / 364) * 100)].
Proof.
  unfold bootstrap_from_curve_df, bootstrap_pillars.
  change (coerce_frame parse_float_digits (four_row_group ++ [zero_coupon_row 1 364 9.1]))
    with (four_row_group ++ [zero_coupon_row 1 364 9.1]).
  rewrite sort_values_stable_sorted_id by (repeat constructor; cbn; lra).
  unfold four_row_group. cbn [run_rows map app].
  rewrite (step_overnight _ _ _ _ _ 0.105);
    [| cbn; tauto | reflexivity | reflexivity | destruct (Rlt_dec 1 0.105); lra].
  destruct (Rlt_dec 1 0.105) as [|_]; [lra|]. cbn [bind].
  rewrite (step_zero_coupon _ _ _ _ _ 9.92); [| cbn; tauto | reflexivity | reflexivity].
  cbn [bind].
  rewrite (step_zero_coupon _ _ _ _ _ 9.75); [| cbn; tauto | reflexivity | reflexivity].
  cbn [bind].
  rewrite (step_zero_coupon _ _ _ _ _ 9.5); [| cbn; tauto | reflexivity | reflexivity].
  cbn [bind].
  rewrite (step_zero_coupon _ _ _ _ _ 9.1); [| cbn; tauto | reflexivity | reflexivity].
  cbn [bind st_pillars on_rate_pct init_state overnight_row zero_coupon_row
       tenor_days num].
  eval_store.
  unfold zero_curve. cbn [List.filter fst snd]. unfold Rltb. decide_R.
  cbn [List.filter map fst snd].
  change 1 with (IZR 1) at 1. change 28 with (IZR 28) at 1.
  change 91 with (IZR 91) at 1. change 182 with (IZR 182) at 1.
  change 364 with (IZR 364) at 1.
  rewrite !astype_int_IZR. reflexivity.
Qed.

Lemma five_node_group_curves :
  rates_to_curves.boostrap_mbono_curve brentq_bisect parse_float_digits
    sort_values_stable "MBONOS_OTR"
    (four_node_group
     ++ [rates_to_curves.mkNode 1 "zero_coupon" (CNum 364) (CNum 9.1) CNaN CNaN])
  = Ok [(1%Z, "MBONOS_OTR"%string,
         [(1%Z, ((1 / (1 / (1 + 0.105 * (1 / 360)))) - 1) * (360 / 1) * 100);
          (28%Z, ((1 / (9.92 / 10)) - 1) * (360 / 28) * 100);
          (91%Z, ((1 / (9.75 / 10)) - 1) * (360 / 91) * 100);
          (182%Z, ((1 / (9.5 / 10)) - 1) * (360 / 182) * 100);
          (364%Z, ((1 / (9.1 / 10)) - 1) * (360 / 364) * 100)])].
Proof.
  unfold rates_to_curves.boostrap_mbono_curve.
  change (groupby rates_to_curves.node_time_index _)
    with [(1%Z, four_node_group
                ++ [rates_to_curves.mkNode 1 "zero_coupon" (CNum 364) (CNum 9.1)
                      CNaN CNaN])].
  cbn [rates_to_curves.per_date].
  change (length _ <? 5)%nat with false. cbn iota.
  change (map (rates_to_curves.cast_row parse_float_digits) _)
    with (four_row_group ++ [zero_coupon_row 1 364 9.1]).
  rewrite five_row_group_curve. reflexivity.
Qed.

Lemma rates_to_curves_entries_witness :
  StronglySorted Z.lt [1%Z] /\
  forall ti id d,
    In (ti, id, d)
       [(1%Z, "MBONOS_OTR"%string,
         [(1%Z, ((1 / (1 / (1 + 0.105 * (1 / 360)))) - 1) * (360 / 1) * 100);
          (28%Z, ((1 / (9.92 / 10)) - 1) * (360 / 28) * 100);
          (91%Z, ((1 / (9.75 / 10)) - 1) * (360 / 91) * 100);
          (182%Z, ((1 / (9.5 / 10)) - 1) * (360 / 182) * 100);
          (364%Z, ((1 / (9.1 / 10)) - 1) * (360 / 364) * 100)])] ->
    id = "MBONOS_OTR"%string.
Proof.
  pose proof (rates_to_curves_entries brentq_bisect parse_float_digits
                sort_values_stable "MBONOS_OTR" _ _ five_node_group_curves)
    as [Hs Hin].
  split; [exact Hs|]. intros ti id d H. exact (proj1 (Hin ti id d H)).
Defined.

Lemma bootstrap_wrapper_rows_witness :
  In (1%Z, 91%Z, ((1 / (9.75 / 10)) - 1) * (360 / 91) * 100)
     [(1%Z, 1%Z, ((1 / (1 / (1 + 0.105 * (1 / 360)))) - 1) * (360 / 1) * 100);
      (1%Z, 28%Z, ((1 / (9.92 / 10)) - 1) * (360 / 28) * 100);
      (1%Z, 91%Z, ((1 / (9.75 / 10)) - 1) * (360 / 91) * 100);
      (1%Z, 182%Z, ((1 / (9.5 / 10)) - 1) * (360 / 182) * 100)] <->
  In 1%Z (map time_index four_row_group) /\
  exists zdf,
    bootstrap_from_curve_df brentq_bisect 360 parse_float_digits sort_values_stable
      (List.filter (fun n => Z.eqb (time_index n) 1) four_row_group) = Ok zdf /\
    In (91%Z, ((1 / (9.75 / 10)) - 1) * (360 / 91) * 100) zdf.
Proof.
  refine (bootstrap_wrapper_rows brentq_bisect parse_float_digits sort_values_stable
            four_row_group _ _ 1%Z 91%Z _).
  unfold bootstrap.boostrap_mbono_curve.
  change (groupby time_index four_row_group) with [(1%Z, four_row_group)].
  cbn [bootstrap.per_date]. rewrite four_row_group_curve. reflexivity.
Defined.

(* ------------------------------------------------------------------ *)
(** ** The dict of a curve                                             *)
(* ------------------------------------------------------------------ *)

Lemma to_dict_snoc (rows : list (Z * R)) (k : Z) (v : R) :
  rates_to_curves.to_dict (rows ++ [(k, v)])
  = rates_to_curves.dict_set k v (rates_to_curves.to_dict rows).
Proof. unfold rates_to_curves.to_dict. now rewrite fold_left_app. Qed.

Lemma dict_set_keys (k : Z) (v : R) (d : list (Z * R)) :
  (In k (map fst d) -> map fst (rates_to_curves.dict_set k v d) = map fst d) /\
  (~ In k (map fst d) -> map fst (rates_to_curves.dict_set k v d) = map fst d ++ [k]).
Proof.
  induction d as [|[k' v'] d [IH1 IH2]]; cbn [rates_to_curves.dict_set map fst].
  - split; [intros [] | reflexivity].
  - destruct (Z.eqb_spec k k') as [->|Hne]; cbn [map fst app].
    + split; [reflexivity | intros H; exfalso; apply H; now left].
    + split.
      * intros [Heq|Hin]; [congruence | now rewrite IH1].
      * intros Hnin. rewrite IH2; [reflexivity | intros Hin; apply Hnin; now right].
Qed.

Lemma dict_set_nodup (k : Z) (v : R) (d : list (Z * R)) :
  List.NoDup (map fst d) -> List.NoDup (map fst (rates_to_curves.dict_set k v d)).
Proof.
  intros Hnd. destruct (in_dec Z.eq_dec k (map fst d)) as [Hin|Hnin].
  - now rewrite (proj1 (dict_set_keys k v d) Hin).
  - rewrite (proj2 (dict_set_keys k v d) Hnin).
    apply (Permutation_NoDup (Permutation_cons_append _ _)).
    now constructor.
Qed.

Lemma dict_set_In (k : Z) (v : R) (d : list (Z * R)) (k' : Z) (v' : R) :
  List.NoDup (map fst d) ->
  In (k', v') (rates_to_curves.dict_set k v d) <->
  (k' = k /\ v' = v) \/ (k' <> k /\ In (k', v') d).
Proof.
  induction d as [|[k0 v0] d IH]; intros Hnd; cbn [rates_to_curves.dict_set].
  - cbn [In]. split.
    + intros [Heq|[]]. injection Heq as <- <-. now left.
    + intros [[-> ->]|[_ []]]. now left.
  - inversion Hnd as [|? ? Hnotin Hnd']; subst.
    destruct (Z.eqb_spec k k0) as [->|Hne]; cbn [In].
    + split.
      * intros [Heq|Hin]; [injection Heq as <- <-; now left|].
        right. split; [|now right]. intros ->. apply Hnotin.
        now apply (in_map fst) in Hin.
      * intros [[-> ->]|[Hne [Heq|Hin]]]; [now left | | now right].
        injection Heq as <- <-. contradiction.
    + rewrite (IH Hnd'). split.
      * intros [Heq|[[-> ->]|[Hk Hin]]].
        -- injection Heq as <- <-. right. split; [congruence | now left].
        -- now left.
        -- right. split; [exact Hk | now right].
      * intros [[-> ->]|[Hk [Heq|Hin]]].
        -- right. now left.
        -- now left.
        -- right. right. now split.
Qed.

Lemma to_dict_nodup (rows : list (Z * R)) :
  List.NoDup (map fst (rates_to_curves.to_dict rows)).
Proof.
  induction rows as [|[k v] rows IH] using rev_ind; [constructor|].
  rewrite to_dict_snoc. now apply dict_set_nodup.
Qed.

(** X23.  The dict made of a curve has every day count once, and its value
    is the zero rate of the last row with that day count: rows whose tenors
    truncate to the same whole day overwrite one another. *)
Theorem to_dict_last_wins (rows : list (Z * R)) :
  List.NoDup (map fst (rates_to_curves.to_dict rows)) /\
  forall k v,
    In (k, v) (rates_to_curves.to_dict rows) <->
    exists before after,
      rows = before ++ (k, v) :: after /\ ~ In k (map fst after).
Proof.
  split; [apply to_dict_nodup|].
  induction rows as [|[k0 v0] rows IH] using rev_ind; intros k v.
  - cbn. split; [intros [] | intros (b & a & Heq & _); now destruct b].
  - rewrite to_dict_snoc, dict_set_In by apply to_dict_nodup. rewrite IH. split.
    + intros [[-> ->]|[Hne (b & a & -> & Hnin)]].
      * exists rows, []. split; [reflexivity | intros []].
      * exists b, (a ++ [(k0, v0)]). split; [now rewrite <- app_assoc|].
        rewrite map_app, in_app_iff. cbn [map fst In].
        intros [Hin|[Heq|[]]]; [now apply Hnin | now apply Hne].
    + intros (b & a & Heq & Hnin).
      destruct a as [|x a _] using rev_ind.
      * apply app_inj_tail in Heq as [-> Heq]. injection Heq as <- <-. now left.
      * rewrite app_comm_cons, app_assoc in Heq.
        apply app_inj_tail in Heq as [-> <-].
        rewrite map_app, in_app_iff in Hnin. cbn [map fst In] in Hnin. right. split.
        -- intros ->. apply Hnin. right. now left.
        -- exists b, a. split; [reflexivity|]. intros Hin. apply Hnin. now left.
Qed.

(* ------------------------------------------------------------------ *)
(** ** Coercion                                                        *)
(* ------------------------------------------------------------------ *)

Lemma to_numeric_idem (parse : string -> option R) (c : cell) :
  to_numeric parse (to_numeric parse c) = to_numeric parse c.
Proof. destruct c as [x| |s]; cbn; try reflexivity. now destruct (parse s). Qed.

Lemma coerce_frame_idem (parse : string -> option R) (df : frame) :
  coerce_frame parse (coerce_frame parse df) = coerce_frame parse df.
Proof.
  rewrite !coerce_frame_map, map_map. apply map_ext. intros [ti ty T c d cp].
  unfold coerce_coupon, coerce_dirty_price, coerce_clean_price, coerce_tenor_days.
  cbn. now rewrite !to_numeric_idem.
Qed.

(** X24.  Numeric coercion is idempotent, so casting a table before the call
    changes nothing: the driver gives the same result on a table and on its
    coerced version, and its own coercion leaves the tables the
    [rates_to_curves] wrapper casts as they are. *)
Theorem precast_is_harmless
    (brentq : (R -> R) -> R -> R -> R -> nat -> result R) (dcc : R)
    (parse_float : string -> option R) (sort_values : frame -> frame) :
  (forall curve_df,
     bootstrap_from_curve_df brentq dcc parse_float sort_values
       (coerce_frame parse_float curve_df)
     = bootstrap_from_curve_df brentq dcc parse_float sort_values curve_df) /\
  (forall g,
     coerce_frame parse_float (map (rates_to_curves.cast_row parse_float) g)
     = map (rates_to_curves.cast_row parse_float) g).
Proof.
  split.
  - intros curve_df. unfold bootstrap_from_curve_df, bootstrap_pillars.
    now rewrite coerce_frame_idem.
  - intros g. rewrite coerce_frame_map, map_map. apply map_ext. intros [ti ty T c d cp].
    unfold rates_to_curves.cast_row, coerce_coupon, coerce_dirty_price,
      coerce_clean_price, coerce_tenor_days.
    cbn. now rewrite !to_numeric_idem.
Qed.

(* ------------------------------------------------------------------ *)
(** ** Fetching series in batches                                      *)
(* ------------------------------------------------------------------ *)

Lemma existsb_eqb_In (k : string) (d : list string) :
  existsb (String.eqb k) d = true <-> In k d.
Proof.
  rewrite existsb_exists. split.
  - intros (x & Hin & Heq). apply String.eqb_eq in Heq. now subst.
  - intros Hin. exists k. split; [exact Hin | apply String.eqb_refl].
Qed.

Lemma fromkeys_acc (l acc : list string) :
  List.NoDup acc ->
  let d := fold_left (fun d k => if existsb (String.eqb k) d then d else d ++ [k])
             l acc in
  List.NoDup d /\ (forall x, In x d <-> In x acc \/ In x l) /\
  (List.NoDup l -> (forall x, In x l -> ~ In x acc) -> d = acc ++ l).
Proof.
  revert acc. induction l as [|k l IH]; intros acc Hnd; cbn [fold_left].
  - split; [exact Hnd|]. split; [intros x; cbn; tauto|].
    intros _ _. now rewrite app_nil_r.
  - destruct (existsb (String.eqb k) acc) eqn:Hex.
    + apply existsb_eqb_In in Hex. destruct (IH acc Hnd) as (H1 & H2 & H3).
      split; [exact H1|]. split.
      * intros x. rewrite H2. cbn [In]. split; [tauto|].
        intros [?|[<-|?]]; tauto.
      * intros _ Hdis. exfalso. apply (Hdis k); [now left | exact Hex].
    + assert (~ In k acc) as Hnin
        by (intros Hin; apply existsb_eqb_In in Hin; congruence).
      assert (List.NoDup (acc ++ [k])) as Hnd'
        by (apply (Permutation_NoDup (Permutation_cons_append _ _)); now constructor).
      destruct (IH (acc ++ [k]) Hnd') as (H1 & H2 & H3).
      split; [exact H1|]. split.
      * intros x. rewrite H2, in_app_iff. cbn [In]. tauto.
      * intros Hl Hdis. inversion Hl as [|? ? Hk Hl']; subst.
        rewrite H3; [now rewrite <- app_assoc | exact Hl'|].
        intros x Hx Hin. apply in_app_iff in Hin as [Hin|[<-|[]]].
        -- apply (Hdis x); [now right | exact Hin].
        -- contradiction.
Qed.

Lemma dict_fromkeys_nodup (l : list string) : List.NoDup (dict_fromkeys l).
Proof. apply (fromkeys_acc l []). constructor. Qed.

Lemma dict_fromkeys_In (l : list string) (x : string) :
  In x (dict_fromkeys l) <-> In x l.
Proof.
  destruct (fromkeys_acc l [] (List.NoDup_nil _)) as (_ & H & _).
  unfold dict_fromkeys. rewrite H. cbn. tauto.
Qed.

Lemma dict_fromkeys_fixed (l : list string) :
  List.NoDup l -> dict_fromkeys l = l.
Proof.
  intros Hnd. destruct (fromkeys_acc l [] (List.NoDup_nil _)) as (_ & _ & H).
  apply H; [exact Hnd | intros x _ []].
Qed.

Section FetchFacts.
Variables server series : Type.
Variable http_get : server -> list string -> server * outcome (list series).

Lemma halved_chunk (chunk : nat) :
  (1 < chunk)%nat -> (1 <= Nat.max 1 (chunk / 2) < chunk)%nat.
Proof.
  intros H. assert (chunk / 2 < chunk)%nat by (apply Nat.div_lt; lia). lia.
Qed.

Lemma batched_loop_returns (fuel : nat) (uniq_ids : list string) (i chunk : nat)
    (out : list series) (srv : server) :
  (1 <= chunk)%nat -> (length uniq_ids - i + chunk <= fuel)%nat ->
  exists r, batched_loop http_get fuel uniq_ids i chunk out srv = Some r.
Proof.
  revert i chunk out srv. induction fuel as [|fuel IH]; intros i chunk out srv Hc Hf;
    cbn [batched_loop]; destruct (i <? length uniq_ids)%nat eqn:Hi;
    try (now eexists); [lia|].
  apply Nat.ltb_lt in Hi.
  destruct (_fetch_banxico_series http_get srv _) as [srv' [part|e]].
  - apply IH; [exact Hc | lia].
  - destruct (is_413 e && (1 <? chunk)%nat)%bool eqn:Hretry; [|now eexists].
    apply andb_prop in Hretry as [_ Hgt]. apply Nat.ltb_lt in Hgt.
    pose proof (halved_chunk chunk Hgt). apply IH; lia.
Qed.

(** X25.  [fetch_banxico_series_batched] always terminates, whatever the
    server answers: every iteration either moves past at least one id or
    makes the chunk strictly smaller, so [len(uniq_ids) + chunk] iterations
    are enough for it to return or raise. *)
Theorem fetch_batched_terminates (series_ids : list string) (max_chunk : Z)
    (srv : server) :
  exists r, fetch_banxico_series_batched http_get series_ids max_chunk srv = Some r.
Proof.
  unfold fetch_banxico_series_batched. apply batched_loop_returns; lia.
Qed.

Lemma slice_nonempty (uniq_ids : list string) (i chunk : nat) :
  (i < length uniq_ids)%nat -> (1 <= chunk)%nat ->
  firstn chunk (skipn i uniq_ids) <> [].
Proof.
  intros Hi Hc Hnil. apply (f_equal (@length string)) in Hnil.
  rewrite length_firstn, length_skipn in Hnil. cbn in Hnil. lia.
Qed.

Lemma fetch_nonempty (srv : server) (ids : list string) :
  ids <> [] -> _fetch_banxico_series http_get srv ids = http_get srv ids.
Proof. destruct ids; [contradiction | reflexivity]. Qed.

Lemma skipn_slice (uniq_ids : list string) (i chunk : nat) :
  skipn i uniq_ids
  = firstn chunk (skipn i uniq_ids) ++ skipn (i + chunk) uniq_ids.
Proof.
  rewrite <- (firstn_skipn chunk (skipn i uniq_ids)) at 1.
  now rewrite skipn_skipn, (Nat.add_comm chunk i).
Qed.

Section SizeLimit.
(** A server that looks only at the number of ids in a request: up to
    [limit] ids it sends the series of each id asked, in order; beyond
    that it answers 413. *)
Variable data : string -> list series.
Variable limit : nat.
Hypothesis limit_pos : (1 <= limit)%nat.
Hypothesis within_limit : forall srv ids,
  ids <> [] -> (length ids <= limit)%nat ->
  snd (http_get srv ids) = Returned (flat_map data ids).
Hypothesis beyond_limit : forall srv ids,
  (limit < length ids)%nat ->
  snd (http_get srv ids) = Raised (HTTPError (Some 413%Z)).

Lemma batched_loop_collects (fuel : nat) (uniq_ids : list string) (i chunk : nat)
    (out : list series) (srv : server) :
  (1 <= chunk)%nat -> (length uniq_ids - i + chunk <= fuel)%nat ->
  exists srv',
    batched_loop http_get fuel uniq_ids i chunk out srv
    = Some (srv', Returned (out ++ flat_map data (skipn i uniq_ids))).
Proof.
  revert i chunk out srv. induction fuel as [|fuel IH]; intros i chunk out srv Hc Hf;
    cbn [batched_loop]; destruct (i <? length uniq_ids)%nat eqn:Hi.
  - apply Nat.ltb_lt in Hi. lia.
  - apply Nat.ltb_ge in Hi. rewrite skipn_all2 by exact Hi. cbn [flat_map].
    rewrite app_nil_r. now eexists.
  - apply Nat.ltb_lt in Hi.
    pose proof (slice_nonempty uniq_ids i chunk Hi Hc) as Hne.
    rewrite (fetch_nonempty _ _ Hne).
    destruct (le_lt_dec (length (firstn chunk (skipn i uniq_ids))) limit) as [Hle|Hgt].
    + pose proof (within_limit srv _ Hne Hle) as Hget.
      destruct (http_get srv _) as [srv' o]. cbn [snd] in Hget. subst o.
      destruct (IH (i + chunk)%nat chunk (out ++ flat_map data (firstn chunk (skipn i uniq_ids)))
                  srv' Hc ltac:(lia)) as [srv'' ->].
      exists srv''. rewrite (skipn_slice uniq_ids i chunk) at 2.
      now rewrite flat_map_app, app_assoc.
    + pose proof (beyond_limit srv _ Hgt) as Hget.
      destruct (http_get srv _) as [srv' o]. cbn [snd] in Hget. subst o.
      assert (1 < chunk)%nat as Hbig by (rewrite length_firstn in Hgt; lia).
      cbn [is_413]. rewrite Z.eqb_refl. cbn [andb].
      pose proof Hbig as Hbig'. apply Nat.ltb_lt in Hbig'. rewrite Hbig'.
      pose proof (halved_chunk chunk Hbig). apply IH; lia.
  - apply Nat.ltb_ge in Hi. rewrite skipn_all2 by exact Hi. cbn [flat_map].
    rewrite app_nil_r. now eexists.
Qed.

(** X26.  Chunking does not show in the result.  Against a server that
    refuses requests of more than [limit] ids with status 413 and otherwise
    sends the series of the ids asked, the call returns, for every
    [max_chunk], the series of the distinct ids in the order of their first
    occurrence. *)
Theorem fetch_batched_transparent (series_ids : list string) (max_chunk : Z)
    (srv : server) :
  exists srv',
    fetch_banxico_series_batched http_get series_ids max_chunk srv
    = Some (srv', Returned (flat_map data (dict_fromkeys series_ids))).
Proof.
  unfold fetch_banxico_series_batched.
  destruct (batched_loop_collects
              (length (dict_fromkeys series_ids) + Z.to_nat (Z.max 1 max_chunk))
              (dict_fromkeys series_ids) 0 (Z.to_nat (Z.max 1 max_chunk)) [] srv)
    as [srv' ->]; [lia | lia |].
  now exists srv'.
Qed.
End SizeLimit.

Section Refusal.
(** A server that fails every request in the same way. *)
Variable e : exception.
Hypothesis always_fails : forall srv ids, snd (http_get srv ids) = Raised e.

Lemma batched_loop_raises (fuel : nat) (uniq_ids : list string) (i chunk : nat)
    (out : list series) (srv : server) :
  (1 <= chunk)%nat -> (length uniq_ids - i + chunk <= fuel)%nat ->
  (i < length uniq_ids)%nat ->
  exists srv',
    batched_loop http_get fuel uniq_ids i chunk out srv = Some (srv', Raised e).
Proof.
  revert chunk srv. induction fuel as [|fuel IH]; intros chunk srv Hc Hf Hi;
    cbn [batched_loop]; [lia|].
  pose proof Hi as Hi'. apply Nat.ltb_lt in Hi'. rewrite Hi'.
  rewrite (fetch_nonempty _ _ (slice_nonempty uniq_ids i chunk Hi Hc)).
  pose proof (always_fails srv (firstn chunk (skipn i uniq_ids))) as Hget.
  destruct (http_get srv _) as [srv' o]. cbn [snd] in Hget. subst o.
  destruct (is_413 e && (1 <? chunk)%nat)%bool eqn:Hretry; [|now eexists].
  apply andb_prop in Hretry as [_ Hgt]. apply Nat.ltb_lt in Hgt.
  pose proof (halved_chunk chunk Hgt). apply IH; lia.
Qed.

(** X27.  When the server fails every request in the same way, a call with
    at least one id raises that very exception and returns nothing: a
    status 413 is retried with smaller chunks only down to one id per
    request, any other failure is not retried. *)
Theorem fetch_batched_reraises (series_ids : list string) (max_chunk : Z)
    (srv : server) :
  series_ids <> [] ->
  exists srv',
    fetch_banxico_series_batched http_get series_ids max_chunk srv
    = Some (srv', Raised e).
Proof.
  intros Hne. unfold fetch_banxico_series_batched.
  apply batched_loop_raises; [lia | lia |].
  destruct series_ids as [|k l]; [contradiction|].
  destruct (dict_fromkeys (k :: l)) as [|k' d] eqn:Hd; [|cbn; lia].
  pose proof (proj2 (dict_fromkeys_In (k :: l) k) (or_introl eq_refl)) as Hin.
  rewrite Hd in Hin. destruct Hin.
Qed.
End Refusal.

(** X28.  Repeated ids are asked for once: the call on a list with
    repetitions is the call on the list of its distinct ids, which keeps
    every id of the input, each once. *)
Theorem fetch_batched_dedup (series_ids : list string) (max_chunk : Z)
    (srv : server) :
  fetch_banxico_series_batched http_get series_ids max_chunk srv
  = fetch_banxico_series_batched http_get (dict_fromkeys series_ids) max_chunk srv /\
  List.NoDup (dict_fromkeys series_ids) /\
  forall k, In k (dict_fromkeys series_ids) <-> In k series_ids.
Proof.
  split; [|split; [apply dict_fromkeys_nodup | intros k; apply dict_fromkeys_In]].
  unfold fetch_banxico_series_batched.
  now rewrite (dict_fromkeys_fixed _ (dict_fromkeys_nodup series_ids)).
Qed.

End FetchFacts.

Lemma fetch_batched_transparent_witness :
  exists n,
    fetch_banxico_series_batched two_id_server ["SF1"%string; "SF2"%string; "SF1"%string; "SF3"%string; "SF4"%string; "SF5"%string]
      10 0%nat
    = Some (n, Returned ["SF1"%string; "SF2"%string; "SF3"%string; "SF4"%string; "SF5"%string]).
Proof.
  refine (fetch_batched_transparent nat string two_id_server (fun k => [k]) 2%nat _ _ _
            ["SF1"%string; "SF2"%string; "SF1"%string; "SF3"%string; "SF4"%string; "SF5"%string] 10 0%nat).
  - lia.
  - intros srv ids _ Hlen. unfold two_id_server. cbn [snd].
    apply Nat.leb_le in Hlen. rewrite Hlen. f_equal.
    clear. induction ids as [|k l IH]; [reflexivity|]. cbn. now rewrite <- IH.
  - intros srv ids Hlen. unfold two_id_server. cbn [snd].
    apply Nat.leb_gt in Hlen. now rewrite Hlen.
Defined.

Lemma fetch_batched_reraises_witness :
  exists n : nat,
    fetch_banxico_series_batched
      (fun (n : nat) (_ : list string) =>
         (S n, @Raised (list string) (HTTPError (Some 413%Z))))
      ["SF1"%string; "SF2"%string; "SF3"%string] 10 0%nat
    = Some (n, Raised (HTTPError (Some 413%Z))).
Proof.
  apply (fetch_batched_reraises nat string
           (fun (n : nat) (_ : list string) =>
              (S n, @Raised (list string) (HTTPError (Some 413%Z))))
           (HTTPError (Some 413%Z))).
  - intros srv ids. reflexivity.
  - discriminate.
Defined.

(* ------------------------------------------------------------------ *)
(** ** Tickers and type tags                                           *)
(* ------------------------------------------------------------------ *)

Lemma prefix_drop (p s : string) :
  String.prefix p s = true -> (p ++ string_drop (String.length p) s)%string = s.
Proof.
  revert s. induction p as [|c p IH]; intros s Hp; [reflexivity|].
  destruct s as [|c' s]; [discriminate|]. cbn in Hp.
  destruct (ascii_dec c c') as [->|]; [|discriminate].
  change (String c' (p ++ string_drop (String.length p) s)%string = String c' s).
  f_equal. now apply IH.
Qed.

Lemma prefix_append (p s : string) : String.prefix p (p ++ s) = true.
Proof.
  induction p as [|c p IH]; [now destruct s|].
  change (String.prefix (String c p) (String c (p ++ s)) = true). cbn [String.prefix].
  now destruct (ascii_dec c c).
Qed.

Lemma string_drop_append (p s : string) :
  string_drop (String.length p) (p ++ s) = s.
Proof. induction p as [|c p IH]; [reflexivity | exact IH]. Qed.

Lemma attach_family_prefix (family p sec_type tkr : string) :
  String.prefix p tkr = true ->
  attach_family family p sec_type tkr
  = Attach family (string_drop (String.length p) tkr) sec_type.
Proof.
  intros Hp. unfold attach_family. destruct tkr; cbn [split_once]; now rewrite Hp.
Qed.

(** X29.  The prefix dispatch in step 5 of [BanxicoMXNOTR.update] never
    indexes out of range, and when a ticker matches a family the ticker is
    that family's prefix followed by the tenor key it looks up, and the
    type tag it writes is one of the five instrument tags the bootstrap
    loop dispatches on. *)
Theorem classify_ticker_sound (tkr : string) :
  classify_ticker tkr <> IndexError /\
  forall family tenor sec_type,
    classify_ticker tkr = Attach family tenor sec_type ->
    recognized (lower (strip sec_type)) = true /\
    sec_type <> "overnight_rate"%string /\
    exists p, In (family, p, sec_type)
                [("Cetes", "MCET_", "zero_coupon");
                 ("Bonos", "MBONO_", "fixed_bond");
                 ("Bondes_D", "BONDES_D_", "floating_bondes_d");
                 ("Bondes_F", "BONDES_F_", "floating_bondes_f");
                 ("Bondes_G", "BONDES_G_", "floating_bondes_g")]%string /\
              tkr = (p ++ tenor)%string.
Proof.
  unfold classify_ticker.
  destruct (String.prefix "MCET_" tkr) eqn:H1;
    [|destruct (String.prefix "MBONO_" tkr) eqn:H2;
      [|destruct (String.prefix "BONDES_D_" tkr) eqn:H3;
        [|destruct (String.prefix "BONDES_F_" tkr) eqn:H4;
          [|destruct (String.prefix "BONDES_G_" tkr) eqn:H5]]]];
    try (rewrite attach_family_prefix by assumption);
    (split; [discriminate|]); intros family tenor sec_type Heq;
    try discriminate; injection Heq as <- <- <-;
    (split; [reflexivity|]); (split; [discriminate|]).
  - exists "MCET_"%string. split; [cbn; tauto|].
    symmetry. exact (prefix_drop "MCET_" tkr H1).
  - exists "MBONO_"%string. split; [cbn; tauto|].
    symmetry. exact (prefix_drop "MBONO_" tkr H2).
  - exists "BONDES_D_"%string. split; [cbn; tauto|].
    symmetry. exact (prefix_drop "BONDES_D_" tkr H3).
  - exists "BONDES_F_"%string. split; [cbn; tauto|].
    symmetry. exact (prefix_drop "BONDES_F_" tkr H4).
  - exists "BONDES_G_"%string. split; [cbn; tauto|].
    symmetry. exact (prefix_drop "BONDES_G_" tkr H5).
Qed.

(** X30.  The tickers [get_asset_list] registers find their frames: for
    every tenor name, the ticker of each of the five families is looked up
    under exactly the key [pivot_family] files that tenor's frame under,
    with the family's type tag; the asset of the target rate is passed
    over. *)
Theorem asset_tickers_find_frames (t : string) :
  classify_ticker (asset_ticker "MCET_" t)
  = Attach (fst (frames_key "Cetes" t)) (snd (frames_key "Cetes" t)) "zero_coupon" /\
  classify_ticker (asset_ticker "MBONO_" t)
  = Attach (fst (frames_key "Bonos" t)) (snd (frames_key "Bonos" t)) "fixed_bond" /\
  classify_ticker (asset_ticker "BONDES_D_" t)
  = Attach (fst (frames_key "Bondes_D" t)) (snd (frames_key "Bondes_D" t))
      "floating_bondes_d" /\
  classify_ticker (asset_ticker "BONDES_F_" t)
  = Attach (fst (frames_key "Bondes_F" t)) (snd (frames_key "Bondes_F" t))
      "floating_bondes_f" /\
  classify_ticker (asset_ticker "BONDES_G_" t)
  = Attach (fst (frames_key "Bondes_G" t)) (snd (frames_key "Bondes_G" t))
      "floating_bondes_g" /\
  classify_ticker BANXICO_TARGET_RATE = Skip.
Proof.
  repeat split; try reflexivity; unfold classify_ticker, asset_ticker;
    repeat match goal with
    | |- context [String.prefix ?p ?s] =>
        first [ rewrite (prefix_append p)
              | change (String.prefix p s) with false ]; cbv iota
    end;
    (rewrite attach_family_prefix by apply prefix_append);
    now rewrite string_drop_append.
Qed.
